(** * SHMUP_OS backend: content generation, validation and caching pipeline

    A shallow embedding of the Python backend (validation of generated game
    documents, the text- and image-generation clients with their caches,
    and the chroma-key background remover), with the properties of its
    specification stated and settled against the embedded code.

    Conventions.
    - Python [int] is [Z]; a [uint8] channel is a [Z] in [0, 255].
    - Python [str] is [string] (a byte sequence; [str.encode()] is UTF-8,
      so a [string] here stands for the encoded form).
    - [None] / an absent optional value is [option].
    - A [try ... except Exception] block is a computation in a result type
      whose failure case is caught by the handler.
    - Module-level mutable state (the image cache, the cache directories)
      is passed explicitly. *)

From Stdlib Require Import ZArith QArith Reals Lra Lia String Ascii List DecimalString.
From stdpp Require Import base tactics option list sorting gmap strings.

Local Open Scope Z_scope.

(** ** Strings *)

Module Str.

Lemma app_nil_l (t : string) : ("" ++ t)%string = t.
Proof. reflexivity. Qed.

Lemma app_cons (a : ascii) (s t : string) :
  (String a s ++ t)%string = String a (s ++ t).
Proof. reflexivity. Qed.

Lemma app_nil_r (s : string) : (s ++ "")%string = s.
Proof. induction s as [|a s IH]; [reflexivity|]. rewrite app_cons, IH. reflexivity. Qed.

Lemma app_assoc (s t u : string) : ((s ++ t) ++ u)%string = (s ++ (t ++ u))%string.
Proof.
  induction s as [|a s IH]; [reflexivity|]. rewrite !app_cons, IH. reflexivity.
Qed.

Lemma length_app (s t : string) :
  String.length (s ++ t) = (String.length s + String.length t)%nat.
Proof.
  induction s as [|a s IH]; [reflexivity|]. rewrite app_cons. simpl. rewrite IH. reflexivity.
Qed.


(** [sub in s] *)
Definition contains (sub s : string) : Prop :=
  exists before after, s = (before ++ sub ++ after)%string.

Fixpoint containsb (sub s : string) : bool :=
  String.prefix sub s ||
  match s with
  | EmptyString => false
  | String _ rest => containsb sub rest
  end.

Lemma prefix_app (sub s : string) :
  String.prefix sub s = true <-> exists after, s = (sub ++ after)%string.
Proof.
  revert s. induction sub as [|a sub IH]; intros s.
  - split; [intros _; exists s; reflexivity|]. destruct s; reflexivity.
  - destruct s as [|b s]; simpl.
    + split; [discriminate|]. intros [after H]. rewrite app_cons in H. discriminate.
    + destruct (ascii_dec a b) as [->|NE].
      * rewrite IH. split; intros [after H]; exists after.
        -- rewrite app_cons, H. reflexivity.
        -- rewrite app_cons in H. congruence.
      * split; [discriminate|]. intros [after H]. rewrite app_cons in H. congruence.
Qed.

Lemma containsb_spec (sub s : string) : containsb sub s = true <-> contains sub s.
Proof.
  unfold contains. induction s as [|b s IH].
  - cbn [containsb]. rewrite orb_false_r, prefix_app. split.
    + intros [after H]. exists ""%string, after. exact H.
    + intros (before & after & H). destruct before as [|c before].
      * exists after. exact H.
      * rewrite app_cons in H. discriminate.
  - cbn [containsb]. rewrite orb_true_iff, prefix_app, IH. split.
    + intros [[after H]|(before & after & H)].
      * exists ""%string, after. exact H.
      * exists (String b before), after. rewrite app_cons, H. reflexivity.
    + intros (before & after & H). destruct before as [|c before].
      * left. exists after. exact H.
      * right. rewrite app_cons in H. injection H as -> H. eauto.
Qed.

Lemma contains_app_l (sub s t : string) : contains sub s -> contains sub (s ++ t).
Proof.
  intros (before & after & ->). exists before, (after ++ t)%string.
  rewrite !app_assoc. reflexivity.
Qed.

Lemma contains_app_r (sub s t : string) : contains sub t -> contains sub (s ++ t).
Proof.
  intros (before & after & ->). exists (s ++ before)%string, after.
  rewrite !app_assoc. reflexivity.
Qed.

End Str.

(** ** hashlib.sha256

    Both cache keys are SHA-256 digests.  The function is written out
    (FIPS 180-4) so that keys can be computed; its constants are derived
    from the primes rather than tabulated. *)

Module Hashlib.

(** 32-bit words are [Z] in [0, 2^32); every addition wraps. *)
Definition wrap32 (x : Z) : Z := x mod 2 ^ 32.

Definition rotr (n x : Z) : Z :=
  Z.lor (Z.shiftr x n) (wrap32 (Z.shiftl x (32 - n))).

Definition ch (x y z : Z) : Z :=
  Z.lxor (Z.land x y) (Z.land (Z.lxor x (2 ^ 32 - 1)) z).

Definition maj (x y z : Z) : Z :=
  Z.lxor (Z.lxor (Z.land x y) (Z.land x z)) (Z.land y z).

Definition big_sigma0 (x : Z) : Z := Z.lxor (Z.lxor (rotr 2 x) (rotr 13 x)) (rotr 22 x).
Definition big_sigma1 (x : Z) : Z := Z.lxor (Z.lxor (rotr 6 x) (rotr 11 x)) (rotr 25 x).
Definition small_sigma0 (x : Z) : Z := Z.lxor (Z.lxor (rotr 7 x) (rotr 18 x)) (Z.shiftr x 3).
Definition small_sigma1 (x : Z) : Z := Z.lxor (Z.lxor (rotr 17 x) (rotr 19 x)) (Z.shiftr x 10).

(** The first 64 primes. *)
Definition primes64 : list Z :=
  [2; 3; 5; 7; 11; 13; 17; 19; 23; 29; 31; 37; 41; 43; 47; 53;
   59; 61; 67; 71; 73; 79; 83; 89; 97; 101; 103; 107; 109; 113; 127; 131;
   137; 139; 149; 151; 157; 163; 167; 173; 179; 181; 191; 193; 197; 199; 211; 223;
   227; 229; 233; 239; 241; 251; 257; 263; 269; 271; 277; 281; 283; 293; 307; 311].

(** Integer cube root, bit by bit from bit [b - 1] down. *)
Fixpoint icbrt_bits (b : nat) (n r : Z) : Z :=
  match b with
  | O => r
  | S b' =>
      let r' := r + 2 ^ Z.of_nat b' in
      icbrt_bits b' n (if r' * r' * r' <=? n then r' else r)
  end.

Definition icbrt (n : Z) : Z := icbrt_bits 40 n 0.

(** Round constants: the first 32 bits of the fractional parts of the cube
    roots of the first 64 primes. *)
Definition round_constants : list Z :=
  (fun p => wrap32 (icbrt (p * 2 ^ 96))) <$> primes64.

(** Initial hash value: the first 32 bits of the fractional parts of the
    square roots of the first 8 primes. *)
Definition hash_state := (Z * Z * Z * Z * Z * Z * Z * Z)%type.

Definition frac_sqrt (p : Z) : Z := wrap32 (Z.sqrt (p * 2 ^ 64)).

Definition initial_state : hash_state :=
  (frac_sqrt 2, frac_sqrt 3, frac_sqrt 5, frac_sqrt 7,
   frac_sqrt 11, frac_sqrt 13, frac_sqrt 17, frac_sqrt 19).

Definition bytes_of_string (s : string) : list Z :=
  (fun c => Z.of_N (N_of_ascii c)) <$> list_ascii_of_string s.

(** Big-endian bytes of [x], [n] of them. *)
Fixpoint be_bytes (n : nat) (x : Z) : list Z :=
  match n with
  | O => []
  | S n' => (Z.shiftr x (8 * Z.of_nat n')) mod 256 :: be_bytes n' x
  end.

(** Padding: the bit 1, zeros up to 56 mod 64 bytes, the bit length on 64 bits. *)
Definition pad (msg : list Z) : list Z :=
  let len := Z.of_nat (length msg) in
  msg ++ [128] ++ replicate (Z.to_nat ((55 - len) mod 64)) 0 ++ be_bytes 8 (8 * len).

Fixpoint be_words (n : nat) (bytes : list Z) : list Z :=
  match n with
  | O => []
  | S n' =>
      match bytes with
      | b0 :: b1 :: b2 :: b3 :: rest =>
          (((b0 * 256 + b1) * 256 + b2) * 256 + b3) :: be_words n' rest
      | _ => []
      end
  end.

(** The message schedule: 16 words of the block extended to 64. *)
Fixpoint extend_schedule (n : nat) (w : list Z) : list Z :=
  match n with
  | O => w
  | S n' =>
      let t := length w in
      let x := wrap32 (small_sigma1 (nth (t - 2) w 0) + nth (t - 7) w 0
                       + small_sigma0 (nth (t - 15) w 0) + nth (t - 16) w 0) in
      extend_schedule n' (w ++ [x])
  end.

Definition round (st : hash_state) (kw : Z * Z) : hash_state :=
  let '(a, b, c, d, e, f, g, h) := st in
  let t1 := wrap32 (h + big_sigma1 e + ch e f g + kw.1 + kw.2) in
  let t2 := wrap32 (big_sigma0 a + maj a b c) in
  (wrap32 (t1 + t2), a, b, c, wrap32 (d + t1), e, f, g).

Definition add_state (s1 s2 : hash_state) : hash_state :=
  let '(a, b, c, d, e, f, g, h) := s1 in
  let '(a', b', c', d', e', f', g', h') := s2 in
  (wrap32 (a + a'), wrap32 (b + b'), wrap32 (c + c'), wrap32 (d + d'),
   wrap32 (e + e'), wrap32 (f + f'), wrap32 (g + g'), wrap32 (h + h')).

Definition compress (st : hash_state) (block : list Z) : hash_state :=
  let w := extend_schedule 48 (be_words 16 block) in
  add_state st (foldl round st (zip round_constants w)).

Fixpoint blocks (n : nat) (bytes : list Z) : list (list Z) :=
  match n with
  | O => []
  | S n' =>
      match bytes with
      | [] => []
      | _ => take 64 bytes :: blocks n' (drop 64 bytes)
      end
  end.

Definition sha256_state (msg : list Z) : hash_state :=
  let padded := pad msg in
  foldl compress initial_state (blocks (length padded) padded).

Definition hex_digit (d : Z) : ascii :=
  nth (Z.to_nat d) (list_ascii_of_string "0123456789abcdef") "0"%char.

Fixpoint hex_be (n : nat) (x : Z) : string :=
  match n with
  | O => EmptyString
  | S n' => String (hex_digit ((Z.shiftr x (4 * Z.of_nat n')) mod 16)) (hex_be n' x)
  end.

Definition hexdigest (st : hash_state) : string :=
  let '(a, b, c, d, e, f, g, h) := st in
  (hex_be 8 a ++ hex_be 8 b ++ hex_be 8 c ++ hex_be 8 d ++
   hex_be 8 e ++ hex_be 8 f ++ hex_be 8 g ++ hex_be 8 h)%string.

(** [hashlib.sha256(s.encode()).hexdigest()] *)
Definition sha256_hex (s : string) : string :=
  hexdigest (sha256_state (bytes_of_string s)).

Example sha256_empty :
  sha256_hex "" = "e3b0c44298fc1c149afbf4c8996fb92427ae41e4649b934ca495991b7852b855"%string.
Proof. vm_compute. reflexivity. Qed.

Example sha256_abc :
  sha256_hex "abc" = "ba7816bf8f01cfea414140de5dae2223b00361a396177a9cb410ff61f20015ad"%string.
Proof. vm_compute. reflexivity. Qed.

Example sha256_two_blocks :
  sha256_hex "abcdbcdecdefdefgefghfghighijhijkijkljklmklmnlmnomnopnopq"
  = "248d6a61d20638b8e5c026930c3e6039a33ce45964ff2167f6ecedd419db06c1"%string.
Proof. vm_compute. reflexivity. Qed.

(** *** Every digest is one of [2^256] values *)














Lemma length_hex_be n x : String.length (hex_be n x) = n.
Proof. induction n as [|n IH]; simpl; [reflexivity|]. rewrite IH. reflexivity. Qed.

(** A digest is 64 characters long. *)
Lemma length_sha256_hex s : String.length (sha256_hex s) = 64%nat.
Proof.
  unfold sha256_hex, hexdigest.
  destruct (sha256_state _) as [[[[[[[a b] c] d] e] f] g] h].
  rewrite !Str.length_app, !length_hex_be. reflexivity.
Qed.

Lemma sha256_hex_nonempty s : sha256_hex s <> ""%string.
Proof.
  intros E. pose proof (length_sha256_hex s) as L. rewrite E in L. discriminate.
Qed.






End Hashlib.

(** ** base64.b64encode *)

Module Base64.

Definition alphabet : list ascii :=
  list_ascii_of_string "ABCDEFGHIJKLMNOPQRSTUVWXYZabcdefghijklmnopqrstuvwxyz0123456789+/".

Definition sextet (n shift : Z) : ascii :=
  nth (Z.to_nat (Z.land (Z.shiftr n shift) 63)) alphabet "A"%char.

Fixpoint encode_bytes (bytes : list Z) : string :=
  match bytes with
  | [] => EmptyString
  | [b0] =>
      let n := b0 * 65536 in
      String (sextet n 18) (String (sextet n 12) "==")
  | [b0; b1] =>
      let n := b0 * 65536 + b1 * 256 in
      String (sextet n 18) (String (sextet n 12) (String (sextet n 6) "="))
  | b0 :: b1 :: b2 :: rest =>
      let n := b0 * 65536 + b1 * 256 + b2 in
      String (sextet n 18) (String (sextet n 12)
        (String (sextet n 6) (String (sextet n 0) (encode_bytes rest))))
  end.

(** [base64.b64encode(data).decode('utf-8')] *)
Definition b64encode (data : string) : string :=
  encode_bytes (Hashlib.bytes_of_string data).

Example b64encode_3 : b64encode "Man" = "TWFu"%string.
Proof. reflexivity. Qed.

Example b64encode_2 : b64encode "Ma" = "TWE="%string.
Proof. reflexivity. Qed.

Example b64encode_1 : b64encode "M" = "TQ=="%string.
Proof. reflexivity. Qed.

End Base64.

(** ** utils/image_processing.py *)

Module ImageProcessing.

(** One RGBA pixel of the [numpy] array [np.array(img)] (dtype [uint8]). *)
Record pixel := Pixel { red : Z; green : Z; blue : Z; alpha : Z }.

(** [data]: [height] rows of [width] pixels, [data[y][x]]. *)
Abbreviation raster := (list (list pixel)).

Abbreviation rgb := (Z * Z * Z)%type.

Definition rgb_of (p : pixel) : rgb := (red p, green p, blue p).

Definition chan_r (c : rgb) : Z := c.1.1.
Definition chan_g (c : rgb) : Z := c.1.2.
Definition chan_b (c : rgb) : Z := c.2.

Definition uint8 (z : Z) : Prop := 0 <= z <= 255.

Definition wf_pixel (p : pixel) : Prop :=
  uint8 (red p) /\ uint8 (green p) /\ uint8 (blue p) /\ uint8 (alpha p).

Definition wf_raster (data : raster) : Prop := Forall (Forall wf_pixel) data.

(** [height, width = data.shape[:2]] *)
Definition height (data : raster) : nat := length data.
Definition width (data : raster) : nat :=
  match data with
  | [] => 0%nat
  | row :: _ => length row
  end.

(** The exceptions the body of [remove_solid_background] can raise; all of
    them are subclasses of [Exception]. *)
Inductive exn :=
| IndexError      (* subscript out of range *)
| DecodeError     (* base64.b64decode / Image.open / convert / np.array *)
| EncodeError.    (* Image.fromarray / save / b64encode *)

Inductive result (A : Type) :=
| Ret (a : A)
| Raise (e : exn).
Arguments Ret {A} a.
Arguments Raise {A} e.

#[global] Instance result_ret : MRet result := fun _ a => Ret a.
#[global] Instance result_bind : MBind result := fun _ _ k m =>
  match m with
  | Ret a => k a
  | Raise e => Raise e
  end.

Definition index_or_raise {A} (o : option A) : result A :=
  match o with
  | Some a => Ret a
  | None => Raise IndexError
  end.

(** Lines 42-53: the four border edges, concatenated in the order top row,
    bottom row, left column, right column (corner pixels occur twice, and
    every pixel of a one-row image occurs in both the top and the bottom
    edge).  Indexing an empty axis raises [IndexError]. *)
Definition edge_samples (data : raster) : result (list rgb) :=
  top ← index_or_raise (data !! 0%nat);
  bottom ← index_or_raise (data !! (height data - 1)%nat);
  left ← index_or_raise (mapM (fun row => row !! 0%nat) data);
  right ← index_or_raise (mapM (fun row => row !! (width data - 1)%nat) data);
  Ret (rgb_of <$> (top ++ bottom ++ left ++ right)).

(** Lines 56-58: [G > 150 and G > R and G > B]. *)
Definition greenish (c : rgb) : bool :=
  (150 <? chan_g c) && (chan_r c <? chan_g c) && (chan_b c <? chan_g c).

(** [int(np.median(xs))] for a list of channel values: the middle element
    of the sorted list, or the mean of the two middle elements (computed in
    [float64], exact on these integers), truncated toward zero by
    [.astype(int)]. *)
Definition median_int (xs : list Z) : Z :=
  let s := merge_sort Z.le xs in
  let n := length s in
  if Nat.even n
  then Z.quot (nth (n / 2 - 1) s 0 + nth (n / 2) s 0) 2
  else nth (n / 2) s 0.

(** [np.median(pixels, axis=0).astype(int)] *)
Definition median_color (cs : list rgb) : rgb :=
  (median_int (chan_r <$> cs), median_int (chan_g <$> cs), median_int (chan_b <$> cs)).

(** Lines 60-69. *)
Definition estimate_bg_color (samples : list rgb) : rgb :=
  let greenish_pixels := filter (fun c => greenish c = true) samples in
  if (0 <? length greenish_pixels)%nat
  then median_color greenish_pixels
  else median_color samples.

(** Lines 73-77 before the square root: [r_diff**2 + g_diff**2 + b_diff**2]. *)
Definition dist2 (bg : rgb) (p : pixel) : Z :=
  (red p - chan_r bg) ^ 2 + (green p - chan_g bg) ^ 2 + (blue p - chan_b bg) ^ 2.

(** [np.sqrt(d2) <= t] for an integer [t].  The square root is correctly
    rounded and monotone, and [d2 <= 3 * 255^2], so the [float64]
    comparison agrees with the comparison of the squares (and is false
    for a negative [t]). *)
Definition sqrt_le (d2 t : Z) : bool := (0 <=? t) && (d2 <=? t * t).

(** Line 80: [green_mask = color_distance <= tolerance]. *)
Definition green_mask (color_distance2 tolerance : Z) : bool :=
  sqrt_le color_distance2 tolerance.

(** Lines 92-93: [(color_distance > tolerance) & (color_distance <= feather_tolerance)]. *)
Definition feather_mask (color_distance2 tolerance : Z) : bool :=
  let feather_tolerance := tolerance + 10 in
  negb (sqrt_le color_distance2 tolerance) && sqrt_le color_distance2 feather_tolerance.

(** Line 96: [((color_distance - tolerance) / 10 * 255).astype(np.uint8)],
    i.e. the integer part of [(sqrt d2 - t) * 51 / 2].  Since [51 * t] is
    an integer this is [(floor (sqrt (51^2 * d2)) - 51 * t) / 2].  Inside
    the feather band the value lies in [0, 255], so the cast to [uint8]
    neither wraps nor rounds differently from the floor, and the
    [float64] evaluation has the same integer part: it is off by less than
    [1e-12], the exact value is an integer only for distances [t + 2],
    [t + 4], ..., [t + 10], where the [float64] result is that integer, and
    it is otherwise farther than [9e-6] from every integer. *)
Definition feather_alpha (color_distance2 tolerance : Z) : Z :=
  (Z.sqrt (2601 * color_distance2) - 51 * tolerance) / 2.

Definition set_alpha (p : pixel) (a : Z) : pixel :=
  {| red := red p; green := green p; blue := blue p; alpha := a |}.

(** Lines 73-97 at one array position.  The array operations are
    elementwise; [color_distance] is computed once, from the colour
    channels, before the alpha channel is written. *)
Definition update_pixel (bg_color : rgb) (tolerance : Z) (p : pixel) : pixel :=
  let color_distance2 := dist2 bg_color p in
  (* data[green_mask, 3] = 0 *)
  let p1 := if green_mask color_distance2 tolerance then set_alpha p 0 else p in
  (* data[feather_mask, 3] = np.minimum(data[feather_mask, 3], feather_alpha) *)
  if feather_mask color_distance2 tolerance
  then set_alpha p1 (Z.min (alpha p1) (feather_alpha color_distance2 tolerance))
  else p1.

Definition apply_masks (bg_color : rgb) (tolerance : Z) (data : raster) : raster :=
  fmap (M := list) (fmap (M := list) (update_pixel bg_color tolerance)) data.

(** Lines 37-97 on the decoded array: the estimated background colour and
    the modified array. *)
Definition remove_background_array (data : raster) (tolerance : Z) : result (rgb * raster) :=
  samples ← edge_samples data;
  let bg_color := estimate_bg_color samples in
  Ret (bg_color, apply_masks bg_color tolerance data).

(** [s.split(',', 1)[1]]: what follows the first comma; [IndexError] when
    there is none. *)
Fixpoint after_first_comma (s : string) : result string :=
  match s with
  | EmptyString => Raise IndexError
  | String c rest => if Ascii.eqb c "," then Ret rest else after_first_comma rest
  end.

(** Lines 24-27. *)
Definition strip_data_url (base64_image : string) : result string :=
  if String.prefix "data:" base64_image
  then after_first_comma base64_image
  else Ret base64_image.

Section Codec.

(** The image codec is library code (base64, PIL, numpy), taken as two
    partial functions; [None] stands for any exception they raise.
    [open_rgba] is lines 29-37 ([b64decode], [Image.open], [convert('RGBA')],
    [np.array]) and [save_png_b64] is lines 100-105 ([Image.fromarray],
    [save(format='PNG')], [b64encode], [decode]). *)
Variable open_rgba : string -> option raster.
Variable save_png_b64 : raster -> option string.

Definition decode_or_raise (o : option raster) : result raster :=
  match o with
  | Some d => Ret d
  | None => Raise DecodeError
  end.

Definition encode_or_raise (o : option string) : result string :=
  match o with
  | Some s => Ret s
  | None => Raise EncodeError
  end.

(** The [try] block, lines 22-107. *)
Definition try_block (base64_image : string) (tolerance : Z) : result string :=
  base64_data ← strip_data_url base64_image;
  data ← decode_or_raise (open_rgba base64_data);
  r ← remove_background_array data tolerance;
  result_base64 ← encode_or_raise (save_png_b64 r.2);
  Ret ("data:image/png;base64," ++ result_base64)%string.

(** [remove_solid_background], with its handler [except Exception: return
    base64_image] (lines 109-112). *)
Definition remove_solid_background (base64_image : string) (tolerance : Z) : string :=
  match try_block base64_image tolerance with
  | Ret out => out
  | Raise _ => base64_image
  end.

(** The decoded array of the input, when it has one. *)
Definition decoded_input (base64_image : string) : result raster :=
  base64_data ← strip_data_url base64_image;
  decode_or_raise (open_rgba base64_data).

End Codec.

(** A pixel of the array at row [y], column [x]. *)
Definition pixel_at (data : raster) (y x : nat) : option pixel :=
  row ← data !! y; row !! x.


(** Rows all as long as the first one: the shape of a [numpy] array. *)
Definition rectangular (data : raster) : Prop :=
  Forall (fun row => length row = width data) data.

(** *** The per-pixel update *)

Lemma update_pixel_rgb bg t p : rgb_of (update_pixel bg t p) = rgb_of p.
Proof.
  unfold update_pixel.
  destruct (green_mask _ _), (feather_mask _ _); reflexivity.
Qed.

Lemma masks_disjoint d2 t : green_mask d2 t = true -> feather_mask d2 t = false.
Proof.
  unfold green_mask, feather_mask. intros ->. reflexivity.
Qed.

Lemma update_pixel_green bg t p :
  green_mask (dist2 bg p) t = true -> alpha (update_pixel bg t p) = 0.
Proof.
  intros H. unfold update_pixel. rewrite (masks_disjoint _ _ H), H. reflexivity.
Qed.


Lemma update_pixel_other bg t p :
  green_mask (dist2 bg p) t = false -> feather_mask (dist2 bg p) t = false ->
  update_pixel bg t p = p.
Proof.
  intros G F. unfold update_pixel. rewrite G, F. reflexivity.
Qed.

Lemma update_pixel_alpha_le bg t p :
  0 <= alpha p -> alpha (update_pixel bg t p) <= alpha p.
Proof.
  intros Ha. unfold update_pixel.
  destruct (green_mask _ _), (feather_mask _ _); simpl; lia.
Qed.

Lemma pixel_at_apply_masks bg t data y x :
  pixel_at (apply_masks bg t data) y x = update_pixel bg t <$> pixel_at data y x.
Proof.
  unfold pixel_at, apply_masks.
  rewrite list_lookup_fmap.
  destruct (data !! y) as [row|]; simpl; [|reflexivity].
  apply list_lookup_fmap.
Qed.

Lemma pixel_at_wf data y x p :
  wf_raster data -> pixel_at data y x = Some p -> wf_pixel p.
Proof.
  unfold wf_raster, pixel_at. intros Hwf H.
  destruct (data !! y) as [row|] eqn:Hy; simpl in H; [|discriminate].
  rewrite Forall_forall in Hwf.
  assert (Hrow : Forall wf_pixel row).
  { apply Hwf. eapply list_elem_of_lookup_2. exact Hy. }
  rewrite Forall_forall in Hrow. apply Hrow.
  eapply list_elem_of_lookup_2. exact H.
Qed.

Lemma dist2_nonneg bg p : 0 <= dist2 bg p.
Proof. unfold dist2. nia. Qed.

(** *** The integer tests against the real-valued distance *)

Lemma sqrt_le_real d2 t :
  0 <= d2 -> sqrt_le d2 t = true <-> (sqrt (IZR d2) <= IZR t)%R.
Proof.
  intros Hd. unfold sqrt_le.
  rewrite andb_true_iff, Z.leb_le, Z.leb_le. split.
  - intros [Ht Hle].
    rewrite <- (sqrt_square (IZR t)) by (apply IZR_le; lia).
    apply sqrt_le_1_alt. rewrite <- mult_IZR. apply IZR_le. lia.
  - intros H.
    assert (Ht : (0 <= IZR t)%R) by (eapply Rle_trans; [apply sqrt_pos | exact H]).
    split; [apply le_IZR; exact Ht|].
    apply le_IZR. rewrite mult_IZR.
    rewrite <- (sqrt_sqrt (IZR d2)) by (apply IZR_le; lia).
    apply Rmult_le_compat; auto using sqrt_pos.
Qed.

Lemma sqrt_le_real_false d2 t :
  0 <= d2 -> sqrt_le d2 t = false <-> (IZR t < sqrt (IZR d2))%R.
Proof.
  intros Hd. pose proof (sqrt_le_real d2 t Hd) as H.
  destruct (sqrt_le d2 t); split; intros H'; try discriminate; try reflexivity.
  - exfalso. apply (Rlt_irrefl (IZR t)). eapply Rlt_le_trans; [exact H'|]. tauto.
  - destruct (Rle_or_lt (sqrt (IZR d2)) (IZR t)) as [Hle|Hlt]; [|exact Hlt].
    apply H in Hle. discriminate.
Qed.

Lemma Zsqrt_real n :
  0 <= n -> (IZR (Z.sqrt n) <= sqrt (IZR n) < IZR (Z.sqrt n) + 1)%R.
Proof.
  intros Hn. pose proof (Z.sqrt_spec n Hn) as [Hlo Hhi].
  pose proof (Z.sqrt_nonneg n) as Hs.
  assert (Hs' : (0 <= IZR (Z.sqrt n))%R) by (apply IZR_le; lia).
  split.
  - rewrite <- (sqrt_square (IZR (Z.sqrt n))) at 1 by exact Hs'.
    apply sqrt_le_1_alt. rewrite <- mult_IZR. apply IZR_le. exact Hlo.
  - replace (IZR (Z.sqrt n) + 1)%R with (IZR (Z.succ (Z.sqrt n)))
      by (rewrite succ_IZR; reflexivity).
    rewrite <- (sqrt_square (IZR (Z.succ (Z.sqrt n)))) by (apply IZR_le; lia).
    apply sqrt_lt_1_alt. split; [apply IZR_le; lia|].
    rewrite <- mult_IZR. apply IZR_lt. exact Hhi.
Qed.

Lemma sqrt_2601 d2 :
  0 <= d2 -> sqrt (IZR (2601 * d2)) = (51 * sqrt (IZR d2))%R.
Proof.
  intros Hd. rewrite mult_IZR.
  rewrite sqrt_mult by (try apply IZR_le; lia).
  f_equal. replace (IZR 2601) with (51 * 51)%R by lra.
  apply sqrt_square. lra.
Qed.

(** [feather_alpha] is the integer part of the interpolated value. *)
Lemma feather_alpha_real d2 t :
  0 <= d2 ->
  feather_alpha d2 t = Int_part ((sqrt (IZR d2) - IZR t) / 10 * 255).
Proof.
  intros Hd. apply Int_part_spec. unfold feather_alpha.
  pose proof (Zsqrt_real (2601 * d2) ltac:(lia)) as [Hlo Hhi].
  rewrite sqrt_2601 in Hlo, Hhi by exact Hd.
  set (s := Z.sqrt (2601 * d2)) in *.
  set (k := (s - 51 * t) / 2).
  assert (Hk : 2 * k <= s - 51 * t <= 2 * k + 1).
  { pose proof (Z.div_mod (s - 51 * t) 2 ltac:(lia)) as E.
    pose proof (Z.mod_pos_bound (s - 51 * t) 2 ltac:(lia)) as B.
    fold k in E. lia. }
  destruct Hk as [Hk1 Hk2].
  apply IZR_le in Hk1, Hk2.
  repeat (rewrite plus_IZR in Hk1 || rewrite minus_IZR in Hk1 || rewrite mult_IZR in Hk1).
  repeat (rewrite plus_IZR in Hk2 || rewrite minus_IZR in Hk2 || rewrite mult_IZR in Hk2).
  lra.
Qed.

(** Inside the feather band the computed alpha is a [uint8]. *)
Lemma feather_alpha_range d2 t :
  0 <= d2 -> feather_mask d2 t = true -> 0 <= feather_alpha d2 t <= 255.
Proof.
  intros Hd. unfold feather_mask. cbv zeta.
  rewrite andb_true_iff, negb_true_iff.
  rewrite (sqrt_le_real_false d2 t Hd), (sqrt_le_real d2 (t + 10) Hd).
  rewrite plus_IZR. intros [Hlo Hhi].
  rewrite (feather_alpha_real d2 t Hd).
  set (v := ((sqrt (IZR d2) - IZR t) / 10 * 255)%R).
  destruct (base_Int_part v) as [H1 H2].
  assert (Hv : (0 < v <= 255)%R) by (unfold v; lra).
  split.
  - apply Z.lt_succ_r. apply lt_IZR. rewrite succ_IZR. lra.
  - apply le_IZR. lra.
Qed.

Lemma feather_alpha_at_1 t : 0 <= t + 1 -> feather_alpha ((t + 1) ^ 2) t = 25.
Proof.
  intros H. unfold feather_alpha.
  replace (2601 * (t + 1) ^ 2) with ((51 * (t + 1)) * (51 * (t + 1))) by ring.
  rewrite Z.sqrt_square by lia.
  replace (51 * (t + 1) - 51 * t) with 51 by ring. reflexivity.
Qed.

Lemma feather_alpha_at_10 t : 0 <= t + 10 -> feather_alpha ((t + 10) ^ 2) t = 255.
Proof.
  intros H. unfold feather_alpha.
  replace (2601 * (t + 10) ^ 2) with ((51 * (t + 10)) * (51 * (t + 10))) by ring.
  rewrite Z.sqrt_square by lia.
  replace (51 * (t + 10) - 51 * t) with 510 by ring. reflexivity.
Qed.

(** *** The border samples *)

Lemma mapM_elem {A B} (f : A -> option B) (l : list A) (k : list B) :
  mapM f l = Some k ->
  forall b, b ∈ k <-> exists i a, l !! i = Some a /\ f a = Some b.
Proof.
  rewrite mapM_Some. intros HF b. split.
  - intros [i Hi]%list_elem_of_lookup_1.
    destruct (Forall2_lookup_r _ _ _ _ _ HF Hi) as (a & Ha & Hfa). eauto.
  - intros (i & a & Ha & Hfa).
    destruct (Forall2_lookup_l _ _ _ _ _ HF Ha) as (b' & Hb' & Hfb').
    assert (b' = b) as -> by congruence.
    eapply list_elem_of_lookup_2. exact Hb'.
Qed.

Lemma edge_samples_inv (data : raster) (samples : list rgb) :
  edge_samples data = Ret samples ->
  exists top bottom left right,
    data !! 0%nat = Some top /\ data !! (height data - 1)%nat = Some bottom /\
    mapM (fun row => row !! 0%nat) data = Some left /\
    mapM (fun row => row !! (width data - 1)%nat) data = Some right /\
    samples = rgb_of <$> (top ++ bottom ++ left ++ right).
Proof.
  unfold edge_samples. intros H.
  destruct (data !! 0%nat) as [top|]; [|discriminate].
  destruct (data !! (height data - 1)%nat) as [bottom|]; [|discriminate].
  destruct (mapM (fun row => row !! 0%nat) data) as [left|]; [|discriminate].
  destruct (mapM (fun row => row !! (width data - 1)%nat) data) as [right|]; [|discriminate].
  cbn in H. injection H as <-. eauto 10.
Qed.

(** The samples are exactly the colours of the pixels of the first and
    last row and of the first and last column. *)
Lemma edge_samples_border (data : raster) (samples : list rgb) :
  edge_samples data = Ret samples ->
  forall c, c ∈ samples <->
    exists y x p, pixel_at data y x = Some p /\ c = rgb_of p /\
      (y = 0%nat \/ y = (height data - 1)%nat \/ x = 0%nat \/ x = (width data - 1)%nat).
Proof.
  intros H c.
  apply edge_samples_inv in H as (top & bottom & left & right & Htop & Hbot & Hleft & Hright & ->).
  pose proof (mapM_elem _ _ _ Hleft) as HL.
  pose proof (mapM_elem _ _ _ Hright) as HR.
  rewrite list_elem_of_fmap. setoid_rewrite elem_of_app. setoid_rewrite elem_of_app.
  setoid_rewrite elem_of_app. unfold pixel_at. split.
  - intros (p & -> & [Hp|[Hp|[Hp|Hp]]]).
    + apply list_elem_of_lookup_1 in Hp as [x Hx].
      exists 0%nat, x, p. rewrite Htop. simpl. auto 10.
    + apply list_elem_of_lookup_1 in Hp as [x Hx].
      exists (height data - 1)%nat, x, p. rewrite Hbot. simpl. auto 10.
    + apply HL in Hp as (y & row & Hy & Hx).
      exists y, 0%nat, p. rewrite Hy. simpl. auto 10.
    + apply HR in Hp as (y & row & Hy & Hx).
      exists y, (width data - 1)%nat, p. rewrite Hy. simpl. auto 10.
  - intros (y & x & p & Hp & -> & Hpos). exists p. split; [reflexivity|].
    destruct (data !! y) as [row|] eqn:Hy; simpl in Hp; [|discriminate].
    destruct Hpos as [Hpos|[Hpos|[Hpos|Hpos]]]; subst.
    + left. assert (row = top) as Hrow by congruence. subst row.
      eapply list_elem_of_lookup_2. exact Hp.
    + right; left. assert (row = bottom) as Hrow by congruence. subst row.
      eapply list_elem_of_lookup_2. exact Hp.
    + right; right; left. apply HL. eauto.
    + right; right; right. apply HR. eauto.
Qed.

(** Both branches of the estimate take their median over a non-empty list. *)
Lemma edge_samples_nonempty (data : raster) (samples : list rgb) :
  edge_samples data = Ret samples -> samples <> [].
Proof.
  intros H.
  apply edge_samples_inv in H as (top & bottom & left & right & Htop & Hbot & Hleft & Hright & ->).
  apply mapM_Some, Forall2_length in Hleft.
  destruct data as [|row data]; [discriminate|].
  destruct left; [discriminate|].
  intros E. apply fmap_nil_inv in E.
  apply app_eq_nil in E as [_ E]. apply app_eq_nil in E as [_ E].
  apply app_eq_nil in E as [E _]. discriminate.
Qed.

(** A 3x3 sprite on a slightly noisy green screen: the centre pixel is
    red, the pixel to its left is a darker green inside the feather band
    of tolerance 80. *)
Definition sample_sprite : raster :=
  [ [Pixel 0 255 0 255; Pixel 2 254 0 255; Pixel 0 255 0 255];
    [Pixel 0 170 0 255; Pixel 200 10 10 255; Pixel 0 255 1 255];
    [Pixel 0 255 0 255; Pixel 0 253 4 255; Pixel 0 255 0 255] ].

Example sample_sprite_removed :
  remove_background_array sample_sprite 80
  = Ret ((0, 255, 0),
         [ [Pixel 0 255 0 0; Pixel 2 254 0 0; Pixel 0 255 0 0];
           [Pixel 0 170 0 127; Pixel 200 10 10 255; Pixel 0 255 1 0];
           [Pixel 0 255 0 0; Pixel 0 253 4 0; Pixel 0 255 0 0] ]).
Proof. vm_compute. reflexivity. Qed.

Example empty_array_raises : remove_background_array [] 35 = Raise IndexError.
Proof. reflexivity. Qed.

Example median_int_odd : median_int [7; 1; 250] = 7.
Proof. reflexivity. Qed.

Example median_int_even : median_int [201; 200] = 200.
Proof. reflexivity. Qed.

(** *** The array-level algorithm *)







(** *** The string-level function *)

Section CodecFacts.

Variable open_rgba : string -> option raster.
Variable save_png_b64 : raster -> option string.

Lemma try_block_inv (base64_image : string) (tolerance : Z) (out : string) :
  try_block open_rgba save_png_b64 base64_image tolerance = Ret out ->
  exists data bg data' enc,
    decoded_input open_rgba base64_image = Ret data /\
    remove_background_array data tolerance = Ret (bg, data') /\
    save_png_b64 data' = Some enc /\
    out = ("data:image/png;base64," ++ enc)%string.
Proof.
  unfold try_block, decoded_input. intros H.
  destruct (strip_data_url base64_image) as [b64|]; [|discriminate].
  cbn in H |- *.
  destruct (open_rgba b64) as [data|]; [|discriminate].
  cbn in H |- *.
  destruct (remove_background_array data tolerance) as [[bg data']|] eqn:Hrun; [|discriminate].
  cbn in H.
  destruct (save_png_b64 data') as [enc|] eqn:Henc; [|discriminate].
  cbn in H. injection H as <-.
  exists data, bg, data', enc. repeat split; auto.
Qed.

Lemma strip_failure_returns_input (base64_image : string) (tolerance : Z) (e : exn) :
  strip_data_url base64_image = Raise e ->
  remove_solid_background open_rgba save_png_b64 base64_image tolerance = base64_image.
Proof.
  intros H. unfold remove_solid_background, try_block. rewrite H. reflexivity.
Qed.

Lemma undecodable_returns_input (base64_image base64_data : string) (tolerance : Z) :
  strip_data_url base64_image = Ret base64_data ->
  open_rgba base64_data = None ->
  remove_solid_background open_rgba save_png_b64 base64_image tolerance = base64_image.
Proof.
  intros H1 H2. unfold remove_solid_background, try_block. rewrite H1. cbn.
  rewrite H2. reflexivity.
Qed.

Lemma handler_returns_input
    (base64_image : string) (tolerance : Z) (e : exn) :
  try_block open_rgba save_png_b64 base64_image tolerance = Raise e ->
  remove_solid_background open_rgba save_png_b64 base64_image tolerance = base64_image.
Proof.
  intros H. unfold remove_solid_background. rewrite H. reflexivity.
Qed.

End CodecFacts.

(** One of the steps of the [try] block raises: splitting the data URL,
    decoding the image, the array computation, or encoding the result. *)
Definition step_fails (open_rgba : string -> option raster)
    (save_png_b64 : raster -> option string)
    (base64_image : string) (tolerance : Z) : Prop :=
  (exists e, strip_data_url base64_image = Raise e) \/
  (exists base64_data,
     strip_data_url base64_image = Ret base64_data /\ open_rgba base64_data = None) \/
  (exists base64_data data e,
     strip_data_url base64_image = Ret base64_data /\
     open_rgba base64_data = Some data /\
     remove_background_array data tolerance = Raise e) \/
  (exists base64_data data r,
     strip_data_url base64_image = Ret base64_data /\
     open_rgba base64_data = Some data /\
     remove_background_array data tolerance = Ret r /\
     save_png_b64 r.2 = None).

Lemma try_block_raises (open_rgba : string -> option raster)
    (save_png_b64 : raster -> option string) (base64_image : string) (tolerance : Z) :
  (exists e, try_block open_rgba save_png_b64 base64_image tolerance = Raise e)
  <-> step_fails open_rgba save_png_b64 base64_image tolerance.
Proof.
  unfold step_fails, try_block.
  destruct (strip_data_url base64_image) as [b64|e0]; cbn.
  2:{ split; [eauto|]. intros _. eauto. }
  destruct (open_rgba b64) as [data|] eqn:Hopen; cbn.
  2:{ split; [intros _; right; left; eauto|]. intros _. eauto. }
  destruct (remove_background_array data tolerance) as [r|e1] eqn:Hrun; cbn.
  2:{ split; [intros _; right; right; left; exists b64, data, e1; auto|]. intros _. eauto. }
  destruct (save_png_b64 r.2) as [enc|] eqn:Henc; cbn.
  - split; [intros [e H]; discriminate|].
    intros [[e H]|[(b & H1 & H2)|[(b & d & e & H1 & H2 & H3)|(b & d & r' & H1 & H2 & H3 & H4)]]];
      try discriminate; simplify_eq; congruence.
  - split; [|intros _; eauto].
    intros _. right; right; right. exists b64, data, r. auto.
Qed.

(** C7. For every input string and tolerance [remove_solid_background]
    returns a string (it is a total function), and whenever a step of its
    [try] block raises (splitting the data URL, decoding the image,
    indexing the array, encoding the result) it returns its input
    unchanged; otherwise it returns the encoded result. *)
Theorem remove_solid_background_failure_returns_input
    (open_rgba : string -> option raster) (save_png_b64 : raster -> option string)
    (base64_image : string) (tolerance : Z) :
  (forall e, try_block open_rgba save_png_b64 base64_image tolerance = Raise e ->
     remove_solid_background open_rgba save_png_b64 base64_image tolerance = base64_image) /\
  (step_fails open_rgba save_png_b64 base64_image tolerance ->
     remove_solid_background open_rgba save_png_b64 base64_image tolerance = base64_image) /\
  (forall out, try_block open_rgba save_png_b64 base64_image tolerance = Ret out ->
     remove_solid_background open_rgba save_png_b64 base64_image tolerance = out).
Proof.
  split; [apply handler_returns_input|]. split.
  - intros [e H]%try_block_raises. eapply handler_returns_input. exact H.
  - intros out H. unfold remove_solid_background. rewrite H. reflexivity.
Qed.

Lemma remove_solid_background_failure_returns_input_witness :
  step_fails (fun _ => None) (fun _ => None) "not an image" 35 /\
  remove_solid_background (fun _ => None) (fun _ => None) "not an image" 35
  = "not an image"%string.
Proof.
  assert (H : step_fails (fun _ => None) (fun _ => None) "not an image" 35).
  { right; left. exists "not an image"%string. split; reflexivity. }
  split; [exact H|].
  destruct (remove_solid_background_failure_returns_input (fun _ => None) (fun _ => None)
              "not an image" 35) as (_ & Hstep & _).
  apply Hstep. exact H.
Defined.

Example data_url_without_comma :
  remove_solid_background (fun _ => None) (fun _ => None) "data:image/png" 35
  = "data:image/png"%string.
Proof. reflexivity. Qed.

(** Pixelwise: same shape, same colour channels, alpha not raised. *)
Definition only_lowers_alpha (data data' : raster) : Prop :=
  forall y x,
    match pixel_at data y x with
    | None => pixel_at data' y x = None
    | Some p =>
        exists p', pixel_at data' y x = Some p' /\
          red p' = red p /\ green p' = green p /\ blue p' = blue p /\
          alpha p' <= alpha p
    end.

Lemma apply_masks_only_lowers_alpha (bg : rgb) (tolerance : Z) (data : raster) :
  wf_raster data -> only_lowers_alpha data (apply_masks bg tolerance data).
Proof.
  intros Hwf y x. rewrite pixel_at_apply_masks.
  destruct (pixel_at data y x) as [p|] eqn:Hp; [|reflexivity].
  exists (update_pixel bg tolerance p). split; [reflexivity|].
  pose proof (update_pixel_rgb bg tolerance p) as Hrgb.
  unfold rgb_of in Hrgb. injection Hrgb as Hr Hg Hb.
  destruct (pixel_at_wf _ _ _ _ Hwf Hp) as (_ & _ & _ & [Ha _]).
  auto using update_pixel_alpha_le.
Qed.

Lemma only_lowers_alpha_refl (data : raster) : only_lowers_alpha data data.
Proof.
  intros y x. destruct (pixel_at data y x) as [p|]; [|reflexivity].
  exists p. repeat split; lia.
Qed.

(** C10. For every input whose decoded array is [data] (channels in
    [0, 255]) and every tolerance: on the success path the array that is
    encoded into the returned string has, at every position, the colour
    channels of [data] and an alpha that is at most that of [data]; on
    the failure path the returned string is the input itself, so its
    array is [data]. *)
Theorem remove_solid_background_only_lowers_alpha
    (open_rgba : string -> option raster) (save_png_b64 : raster -> option string)
    (base64_image : string) (tolerance : Z) (data : raster) :
  decoded_input open_rgba base64_image = Ret data ->
  wf_raster data ->
  (forall out, try_block open_rgba save_png_b64 base64_image tolerance = Ret out ->
     remove_solid_background open_rgba save_png_b64 base64_image tolerance = out /\
     exists bg data' enc,
       remove_background_array data tolerance = Ret (bg, data') /\
       save_png_b64 data' = Some enc /\
       out = ("data:image/png;base64," ++ enc)%string /\
       only_lowers_alpha data data') /\
  (forall e, try_block open_rgba save_png_b64 base64_image tolerance = Raise e ->
     remove_solid_background open_rgba save_png_b64 base64_image tolerance = base64_image /\
     only_lowers_alpha data data).
Proof.
  intros Hdec Hwf. split.
  - intros out Hout. split.
    { unfold remove_solid_background. rewrite Hout. reflexivity. }
    apply try_block_inv in Hout as (data0 & bg & data' & enc & Hdec0 & Hrun & Henc & ->).
    assert (data0 = data) as -> by congruence.
    exists bg, data', enc. repeat split; try assumption.
    unfold remove_background_array in Hrun.
    destruct (edge_samples data) as [samples|]; [|discriminate].
    cbn in Hrun. injection Hrun as <- <-.
    apply apply_masks_only_lowers_alpha. exact Hwf.
  - intros e He. split.
    + eapply handler_returns_input. exact He.
    + apply only_lowers_alpha_refl.
Qed.

Lemma sample_sprite_wf : wf_raster sample_sprite.
Proof.
  unfold wf_raster, sample_sprite, wf_pixel, uint8.
  repeat constructor; simpl; lia.
Qed.

Lemma remove_solid_background_only_lowers_alpha_witness :
  let open_rgba := fun _ : string => Some sample_sprite in
  let save_png_b64 := fun _ : raster => Some "iVBORw0KGgo="%string in
  decoded_input open_rgba "data:image/png;base64,AAAA" = Ret sample_sprite /\
  wf_raster sample_sprite /\
  forall out,
    try_block open_rgba save_png_b64 "data:image/png;base64,AAAA" 80 = Ret out ->
    exists bg data' enc,
      remove_background_array sample_sprite 80 = Ret (bg, data') /\
      save_png_b64 data' = Some enc /\
      out = ("data:image/png;base64," ++ enc)%string /\
      only_lowers_alpha sample_sprite data'.
Proof.
  intros open_rgba save_png_b64.
  split; [reflexivity|]. split; [exact sample_sprite_wf|].
  intros out Hout.
  destruct (remove_solid_background_only_lowers_alpha open_rgba save_png_b64
              "data:image/png;base64,AAAA" 80 sample_sprite eq_refl sample_sprite_wf)
    as [Hok _].
  destruct (Hok out Hout) as [_ H]. exact H.
Defined.

(** *** Further properties of the array algorithm *)

(** The median of a non-empty list lies between any bounds of the list. *)
Lemma median_int_bounds (xs : list Z) (lo hi : Z) :
  xs <> [] -> Forall (fun x => lo <= x <= hi) xs -> lo <= median_int xs <= hi.
Proof.
  intros Hne Hall. unfold median_int.
  set (s := merge_sort Z.le xs).
  assert (Hperm : s ≡ₚ xs) by apply merge_sort_Permutation.
  assert (Hs : Forall (fun x => lo <= x <= hi) s) by (rewrite Hperm; exact Hall).
  assert (Hlen : (0 < length s)%nat).
  { rewrite Hperm. destruct xs; [congruence|simpl; lia]. }
  assert (Hnth : forall i, (i < length s)%nat -> lo <= nth i s 0 <= hi).
  { intros i Hi. rewrite Forall_forall in Hs. apply Hs.
    apply list_elem_of_In. apply nth_In. exact Hi. }
  cbv zeta. destruct (Nat.even (length s)) eqn:He.
  - assert (Hn : (2 <= length s)%nat).
    { destruct (length s) as [|[|n]]; [lia|discriminate|lia]. }
    assert (H2 : (length s / 2 < length s)%nat) by (apply Nat.div_lt; lia).
    pose proof (Hnth (length s / 2 - 1)%nat ltac:(lia)) as Ha.
    pose proof (Hnth (length s / 2)%nat H2) as Hb.
    set (a := nth (length s / 2 - 1) s 0) in *.
    set (b := nth (length s / 2) s 0) in *.
    pose proof (Z.quot_rem' (a + b) 2) as Hq.
    pose proof (Z.rem_bound_abs (a + b) 2 ltac:(lia)) as Hr.
    assert (Hsign : 0 <= a + b -> 0 <= Z.rem (a + b) 2) by (intros; apply Z.rem_nonneg; lia).
    assert (Hsign' : a + b <= 0 -> Z.rem (a + b) 2 <= 0) by (intros; apply Z.rem_nonpos; lia).
    lia.
  - apply Hnth. apply Nat.div_lt; lia.
Qed.

Lemma median_int_const (xs : list Z) (c : Z) :
  xs <> [] -> Forall (fun x => x = c) xs -> median_int xs = c.
Proof.
  intros Hne Hall.
  assert (c <= median_int xs <= c); [|lia].
  apply median_int_bounds; [exact Hne|].
  eapply Forall_impl; [exact Hall|]. simpl. intros; lia.
Qed.

Definition uint8_color (c : rgb) : Prop :=
  uint8 (chan_r c) /\ uint8 (chan_g c) /\ uint8 (chan_b c).

Lemma median_color_bounds (cs : list rgb) :
  cs <> [] -> Forall uint8_color cs -> uint8_color (median_color cs).
Proof.
  intros Hne Hall. unfold median_color, uint8_color, uint8, chan_r, chan_g, chan_b.
  cbn [fst snd].
  split; [|split]; (apply median_int_bounds;
    [destruct cs; [congruence|discriminate]|]);
    apply Forall_fmap; (eapply Forall_impl; [exact Hall|]);
    intros c (Hr & Hg & Hb); simpl; unfold uint8, chan_r, chan_g, chan_b in *; tauto.
Qed.

Lemma estimate_bg_color_cases (samples : list rgb) :
  let greenish_pixels := filter (fun c => greenish c = true) samples in
  (greenish_pixels <> [] /\ estimate_bg_color samples = median_color greenish_pixels) \/
  (greenish_pixels = [] /\ estimate_bg_color samples = median_color samples).
Proof.
  cbv zeta. unfold estimate_bg_color.
  destruct (filter _ samples) as [|c cs]; [right|left]; split; auto; discriminate.
Qed.

Lemma edge_samples_wf (data : raster) (samples : list rgb) :
  wf_raster data -> edge_samples data = Ret samples -> Forall uint8_color samples.
Proof.
  intros Hwf Hs. apply Forall_forall. intros c Hc.
  apply (edge_samples_border data samples Hs) in Hc as (y & x & p & Hp & -> & _).
  destruct (pixel_at_wf _ _ _ _ Hwf Hp) as (Hr & Hg & Hb & _).
  unfold uint8_color, rgb_of, chan_r, chan_g, chan_b. simpl. auto.
Qed.

(** The estimated background colour of a well-formed array is itself a
    colour with channels in [0, 255]. *)
Lemma estimate_bg_color_uint8 (data : raster) (samples : list rgb) :
  wf_raster data -> edge_samples data = Ret samples ->
  uint8_color (estimate_bg_color samples).
Proof.
  intros Hwf Hs.
  pose proof (edge_samples_wf data samples Hwf Hs) as Hall.
  destruct (estimate_bg_color_cases samples) as [[Hne ->]|[_ ->]].
  - apply median_color_bounds; [exact Hne|].
    apply Forall_forall. intros c [_ Hc]%list_elem_of_filter.
    rewrite Forall_forall in Hall. apply Hall. exact Hc.
  - apply median_color_bounds; [|exact Hall]. eapply edge_samples_nonempty. exact Hs.
Qed.

Lemma update_pixel_wf (bg : rgb) (t : Z) (p : pixel) :
  wf_pixel p -> wf_pixel (update_pixel bg t p).
Proof.
  intros (Hr & Hg & Hb & Ha). unfold update_pixel.
  pose proof (dist2_nonneg bg p) as Hd.
  destruct (green_mask _ _) eqn:G.
  - rewrite (masks_disjoint _ _ G). unfold wf_pixel, uint8 in *. simpl. lia.
  - destruct (feather_mask _ _) eqn:F; [|unfold wf_pixel; auto].
    pose proof (feather_alpha_range _ _ Hd F) as Hf.
    unfold wf_pixel, uint8 in *. simpl. lia.
Qed.

Lemma apply_masks_wf (bg : rgb) (t : Z) (data : raster) :
  wf_raster data -> wf_raster (apply_masks bg t data).
Proof.
  unfold wf_raster, apply_masks. intros H.
  apply Forall_fmap. eapply Forall_impl; [exact H|].
  intros row Hrow. simpl. apply Forall_fmap. eapply Forall_impl; [exact Hrow|].
  intros p Hp. simpl. apply update_pixel_wf. exact Hp.
Qed.

Lemma apply_masks_shape (bg : rgb) (t : Z) (data : raster) :
  height (apply_masks bg t data) = height data /\
  width (apply_masks bg t data) = width data /\
  (rectangular data -> rectangular (apply_masks bg t data)).
Proof.
  unfold height, width, apply_masks, rectangular.
  split; [apply length_fmap|]. split.
  - destruct data; simpl; [reflexivity|apply length_fmap].
  - intros H. apply Forall_fmap. eapply Forall_impl; [exact H|].
    intros row Hrow. simpl. rewrite length_fmap, Hrow.
    destruct data; simpl; [reflexivity|rewrite length_fmap; reflexivity].
Qed.

(** X1. the result is again an RGBA array of [uint8] of the same shape, and
    the estimated colour is a [uint8] colour. *)
Theorem remove_background_array_well_formed (data : raster) (tolerance : Z)
    (bg : rgb) (out : raster) :
  wf_raster data ->
  remove_background_array data tolerance = Ret (bg, out) ->
  wf_raster out /\ uint8_color bg /\
  height out = height data /\ width out = width data /\
  (rectangular data -> rectangular out).
Proof.
  intros Hwf Hrun. unfold remove_background_array in Hrun.
  destruct (edge_samples data) as [samples|] eqn:Hs; [|discriminate].
  cbn in Hrun. injection Hrun as <- <-.
  split; [apply apply_masks_wf; exact Hwf|].
  split; [eapply estimate_bg_color_uint8; eassumption|].
  apply apply_masks_shape.
Qed.

Lemma remove_background_array_well_formed_witness :
  wf_raster sample_sprite /\
  exists bg out,
    remove_background_array sample_sprite 80 = Ret (bg, out) /\
    wf_raster out /\ uint8_color bg.
Proof.
  split; [exact sample_sprite_wf|].
  eexists _, _. split; [vm_compute; reflexivity|].
  destruct (remove_background_array_well_formed sample_sprite 80 _ _ sample_sprite_wf
              sample_sprite_removed) as (H1 & H2 & _).
  split; assumption.
Defined.

Lemma sqrt_le_mono (d2 t t' : Z) :
  t <= t' -> sqrt_le d2 t = true -> sqrt_le d2 t' = true.
Proof.
  unfold sqrt_le. rewrite !andb_true_iff, !Z.leb_le. intros Ht [H0 Hd]. split; nia.
Qed.

Lemma feather_alpha_antitone (d2 t t' : Z) :
  t <= t' -> feather_alpha d2 t' <= feather_alpha d2 t.
Proof.
  intros Ht. unfold feather_alpha. apply Z.div_le_mono; lia.
Qed.

Lemma update_pixel_tolerance_mono (bg : rgb) (t t' : Z) (p : pixel) :
  0 <= alpha p -> t <= t' ->
  alpha (update_pixel bg t' p) <= alpha (update_pixel bg t p).
Proof.
  intros Ha Ht. pose proof (dist2_nonneg bg p) as Hd.
  unfold update_pixel, green_mask.
  destruct (sqrt_le (dist2 bg p) t) eqn:G.
  - rewrite (sqrt_le_mono _ _ _ Ht G).
    unfold feather_mask. cbv zeta. rewrite G, (sqrt_le_mono _ _ _ Ht G). simpl. lia.
  - destruct (sqrt_le (dist2 bg p) t') eqn:G'.
    + rewrite (masks_disjoint _ _ G').
      destruct (feather_mask (dist2 bg p) t) eqn:F; simpl; [|lia].
      pose proof (feather_alpha_range _ _ Hd F). lia.
    + destruct (feather_mask (dist2 bg p) t') eqn:F'; simpl.
      * destruct (feather_mask (dist2 bg p) t) eqn:F; simpl.
        -- pose proof (feather_alpha_antitone (dist2 bg p) t t' Ht). lia.
        -- lia.
      * destruct (feather_mask (dist2 bg p) t) eqn:F; simpl; [|lia].
        exfalso. unfold feather_mask in F, F'. cbv zeta in F, F'.
        rewrite G in F. rewrite G' in F'. simpl in F, F'.
        rewrite (sqrt_le_mono _ (t + 10) (t' + 10) ltac:(lia) F) in F'. discriminate.
Qed.

(** X2. the estimated colour does not depend on the tolerance, and raising
    the tolerance never makes a pixel more opaque. *)
Theorem remove_background_tolerance_monotone (data : raster) (t t' : Z)
    (bg bg' : rgb) (out out' : raster) :
  wf_raster data -> t <= t' ->
  remove_background_array data t = Ret (bg, out) ->
  remove_background_array data t' = Ret (bg', out') ->
  bg' = bg /\
  forall y x p p', pixel_at out y x = Some p -> pixel_at out' y x = Some p' ->
    alpha p' <= alpha p.
Proof.
  intros Hwf Ht Hrun Hrun'. unfold remove_background_array in Hrun, Hrun'.
  destruct (edge_samples data) as [samples|] eqn:Hs; [|discriminate].
  cbn in Hrun, Hrun'. injection Hrun as <- <-. injection Hrun' as <- <-.
  split; [reflexivity|].
  intros y x p p'. rewrite !pixel_at_apply_masks.
  destruct (pixel_at data y x) as [q|] eqn:Hq; [|discriminate].
  simpl. intros E E'. injection E as <-. injection E' as <-.
  apply update_pixel_tolerance_mono; [|exact Ht].
  destruct (pixel_at_wf _ _ _ _ Hwf Hq) as (_ & _ & _ & [Ha _]). exact Ha.
Qed.

Lemma remove_background_tolerance_monotone_witness :
  wf_raster sample_sprite /\ 35 <= 80 /\
  exists bg out out',
    remove_background_array sample_sprite 35 = Ret (bg, out) /\
    remove_background_array sample_sprite 80 = Ret (bg, out') /\
    forall y x p p', pixel_at out y x = Some p -> pixel_at out' y x = Some p' ->
      alpha p' <= alpha p.
Proof.
  split; [exact sample_sprite_wf|]. split; [lia|].
  eexists _, _, _. split; [vm_compute; reflexivity|]. split; [vm_compute; reflexivity|].
  eapply (remove_background_tolerance_monotone sample_sprite 35 80);
    [exact sample_sprite_wf|lia|vm_compute; reflexivity|vm_compute; reflexivity].
Defined.

Lemma median_color_const (cs : list rgb) (c : rgb) :
  cs <> [] -> Forall (fun x => x = c) cs -> median_color cs = c.
Proof.
  intros Hne Hall. destruct c as [[r g] b]. unfold median_color.
  assert (Hf : forall f : rgb -> Z, median_int (f <$> cs) = f (r, g, b)).
  { intros f. apply median_int_const.
    - destruct cs; [congruence|discriminate].
    - apply Forall_fmap. eapply Forall_impl; [exact Hall|]. intros x ->. reflexivity. }
  rewrite !Hf. reflexivity.
Qed.

(** X3. when all border pixels have one colour, that colour is the
    estimate, whether it is greenish or not; with a tolerance of at least 0
    every pixel of that colour then becomes fully transparent. *)
Theorem uniform_border_is_background (data : raster) (tolerance : Z)
    (bg : rgb) (out : raster) (c : rgb) :
  remove_background_array data tolerance = Ret (bg, out) ->
  (forall y x p, pixel_at data y x = Some p ->
     y = 0%nat \/ y = (height data - 1)%nat \/ x = 0%nat \/ x = (width data - 1)%nat ->
     rgb_of p = c) ->
  bg = c /\
  (0 <= tolerance ->
   forall y x p, pixel_at data y x = Some p -> rgb_of p = c ->
     exists p', pixel_at out y x = Some p' /\ rgb_of p' = c /\ alpha p' = 0).
Proof.
  intros Hrun Hborder. unfold remove_background_array in Hrun.
  destruct (edge_samples data) as [samples|] eqn:Hs; [|discriminate].
  cbn in Hrun. injection Hrun as <- <-.
  assert (Hall : Forall (fun s => s = c) samples).
  { apply Forall_forall. intros s Hin.
    apply (edge_samples_border data samples Hs) in Hin as (y & x & p & Hp & -> & Hpos).
    eapply Hborder; eassumption. }
  assert (Hbg : estimate_bg_color samples = c).
  { destruct (estimate_bg_color_cases samples) as [[Hne ->]|[_ ->]].
    - apply median_color_const; [exact Hne|].
      apply Forall_forall. intros s [_ Hin]%list_elem_of_filter.
      rewrite Forall_forall in Hall. apply Hall. exact Hin.
    - apply median_color_const; [|exact Hall]. eapply edge_samples_nonempty. exact Hs. }
  split; [exact Hbg|]. rewrite Hbg.
  intros Ht y x p Hp Hc. exists (update_pixel c tolerance p).
  split; [rewrite pixel_at_apply_masks, Hp; reflexivity|].
  split; [rewrite update_pixel_rgb; exact Hc|].
  apply update_pixel_green.
  assert (Hd : dist2 c p = 0).
  { unfold dist2. rewrite <- Hc. unfold rgb_of, chan_r, chan_g, chan_b.
    cbn [fst snd]. replace (red p - red p) with 0 by lia.
    replace (green p - green p) with 0 by lia.
    replace (blue p - blue p) with 0 by lia. reflexivity. }
  rewrite Hd. unfold green_mask, sqrt_le.
  apply andb_true_iff. rewrite !Z.leb_le. split; nia.
Qed.

(** A 3x3 image with a blue frame around a white pixel. *)
Definition framed_pixel : raster :=
  [ [Pixel 0 0 255 255; Pixel 0 0 255 255; Pixel 0 0 255 255];
    [Pixel 0 0 255 255; Pixel 255 255 255 255; Pixel 0 0 255 255];
    [Pixel 0 0 255 255; Pixel 0 0 255 255; Pixel 0 0 255 255] ].

Lemma uniform_border_is_background_witness :
  exists bg out,
    remove_background_array framed_pixel 35 = Ret (bg, out) /\
    bg = (0, 0, 255) /\
    exists p', pixel_at out 0 1 = Some p' /\ rgb_of p' = (0, 0, 255) /\ alpha p' = 0.
Proof.
  eexists _, _. split; [vm_compute; reflexivity|].
  destruct (uniform_border_is_background framed_pixel 35 _ _ (0, 0, 255)
              ltac:(vm_compute; reflexivity)) as [Hbg Hall].
  - intros y x p Hp Hpos.
    destruct y as [|[|[|y]]]; destruct x as [|[|[|x]]];
      vm_compute in Hp; try discriminate; simplify_eq; try reflexivity.
    vm_compute in Hpos. destruct Hpos as [H|[H|[H|H]]]; discriminate.
  - split; [exact Hbg|].
    apply (Hall ltac:(lia) 0%nat 1%nat (Pixel 0 0 255 255)); reflexivity.
Defined.

(** X4. with a tolerance below -10 neither mask selects a pixel: the array
    is returned as it is. *)
Theorem tolerance_below_minus_10_changes_nothing (data : raster) (tolerance : Z)
    (bg : rgb) (out : raster) :
  tolerance < -10 ->
  remove_background_array data tolerance = Ret (bg, out) ->
  out = data.
Proof.
  intros Ht Hrun. unfold remove_background_array in Hrun.
  destruct (edge_samples data) as [samples|]; [|discriminate].
  cbn in Hrun. injection Hrun as <- <-.
  unfold apply_masks.
  assert (Hid : forall p, update_pixel (estimate_bg_color samples) tolerance p = p).
  { intros p. apply update_pixel_other.
    - unfold green_mask, sqrt_le. destruct (Z.leb_spec 0 tolerance); [lia|reflexivity].
    - unfold feather_mask, sqrt_le. cbv zeta.
      destruct (Z.leb_spec 0 (tolerance + 10)); [lia|]. apply andb_false_r. }
  induction data as [|row data IH]; [reflexivity|].
  rewrite fmap_cons. f_equal; [|exact IH].
  induction row as [|p row IHr]; [reflexivity|].
  rewrite fmap_cons, Hid. f_equal. exact IHr.
Qed.

Lemma tolerance_below_minus_10_changes_nothing_witness :
  -11 < -10 /\
  exists bg out, remove_background_array sample_sprite (-11) = Ret (bg, out) /\
                 out = sample_sprite.
Proof.
  split; [lia|]. eexists _, _. split; [vm_compute; reflexivity|].
  eapply (tolerance_below_minus_10_changes_nothing sample_sprite (-11));
    [lia|vm_compute; reflexivity].
Defined.


Lemma after_first_comma_app (header rest : string) :
  Str.containsb "," header = false ->
  after_first_comma (header ++ "," ++ rest) = Ret rest.
Proof.
  induction header as [|c header IH]; intros Hno.
  - reflexivity.
  - cbn [Str.containsb] in Hno. apply orb_false_iff in Hno as [Hc Hno].
    rewrite Str.app_cons. cbn [after_first_comma].
    destruct (Ascii.eqb_spec c ",") as [->|_].
    { assert (Ht : String.prefix "," (String "," header) = true)
        by (apply Str.prefix_app; exists header; reflexivity).
      congruence. }
    apply IH. exact Hno.
Qed.

Section DataUrl.

Variable open_rgba : string -> option raster.
Variable save_png_b64 : raster -> option string.

(** X5. an image given as a data URL is processed like its bare base64
    content: what stands between [data:] and the first comma is not looked
    at, so both forms give the same result whenever the processing
    succeeds. *)
Theorem data_url_header_is_ignored (header base64_data : string) (tolerance : Z) :
  Str.containsb "," header = false ->
  String.prefix "data:" base64_data = false ->
  let url := ("data:" ++ header ++ "," ++ base64_data)%string in
  try_block open_rgba save_png_b64 url tolerance
  = try_block open_rgba save_png_b64 base64_data tolerance /\
  forall out, try_block open_rgba save_png_b64 base64_data tolerance = Ret out ->
    remove_solid_background open_rgba save_png_b64 url tolerance = out /\
    remove_solid_background open_rgba save_png_b64 base64_data tolerance = out.
Proof.
  intros Hno Hbare url.
  assert (Hs : strip_data_url url = Ret base64_data).
  { unfold strip_data_url, url.
    assert (Hp : String.prefix "data:" ("data:" ++ header ++ "," ++ base64_data) = true)
      by (apply Str.prefix_app; eauto).
    rewrite Hp.
    change ("data:" ++ header ++ "," ++ base64_data)%string
      with (String "d" (String "a" (String "t" (String "a" (String ":"
              (header ++ "," ++ base64_data)))))).
    cbn [after_first_comma Ascii.eqb Bool.eqb].
    apply after_first_comma_app. exact Hno. }
  assert (Hb : strip_data_url base64_data = Ret base64_data).
  { unfold strip_data_url. rewrite Hbare. reflexivity. }
  assert (Heq : try_block open_rgba save_png_b64 url tolerance
                = try_block open_rgba save_png_b64 base64_data tolerance).
  { unfold try_block. rewrite Hs, Hb. reflexivity. }
  split; [exact Heq|].
  intros out Hout. unfold remove_solid_background. rewrite Heq, Hout. auto.
Qed.

End DataUrl.

Lemma data_url_header_is_ignored_witness :
  try_block (fun _ => Some sample_sprite) (fun _ => Some "UE5H"%string)
    "data:image/png;base64,QUJD" 35
  = try_block (fun _ => Some sample_sprite) (fun _ => Some "UE5H"%string) "QUJD" 35.
Proof.
  destruct (data_url_header_is_ignored (fun _ => Some sample_sprite)
              (fun _ => Some "UE5H"%string) "image/png;base64" "QUJD" 35
              eq_refl eq_refl) as [H _].
  exact H.
Defined.

End ImageProcessing.

(** ** Raw documents

    A value as [json.loads] produces it and as the [GameData] constructor
    receives it.  A [dict] keeps its items as an association list. *)

#[warnings="-register-all"]
Inductive pyval :=
| PNone
| PBool (b : bool)
| PInt (z : Z)
| PFloat (q : Q)
| PStr (s : string)
| PList (items : list pyval)
| PDict (items : list (string * pyval)).

(** [bool(v)] *)
Definition truthy (v : pyval) : bool :=
  match v with
  | PNone => false
  | PBool b => b
  | PInt z => negb (z =? 0)
  | PFloat q => negb (Qeq_bool q 0)
  | PStr s => negb (String.eqb s "")
  | PList items => negb (Nat.eqb (length items) 0)
  | PDict items => negb (Nat.eqb (length items) 0)
  end.

(** ** services/llm_service.py *)

Module LlmService.

Definition PROMPT_VERSION : string := "v4".

(** Line 204: [f"{PROMPT_VERSION}:{user_prompt}"], with the version tag as
    an argument. *)
Definition llm_key_str (version user_prompt : string) : string :=
  (version ++ ":" ++ user_prompt)%string.

(** [get_llm_cache_key] (lines 199-205).  [difficulty] is accepted and not
    used. *)
Definition get_llm_cache_key (user_prompt : string) (difficulty : option string) : string :=
  let key_str := llm_key_str PROMPT_VERSION user_prompt in
  Hashlib.sha256_hex key_str.

(** What one pass through the [try] block of the retry loop does
    (lines 271-316). *)
Inductive attempt_result :=
| Parsed (game_data : pyval)                (* [json.loads(content)] returned *)
| JSONDecodeError (msg : string)            (* [except json.JSONDecodeError as e], [msg = str(e)] *)
| OtherException (type_name msg : string).  (* [except Exception as e] *)

(** What the function does to the outside, in order. *)
Inductive event :=
| EvCacheLoad (cache_key : string)
| EvCompletion (attempt : nat) (user_message : string)
| EvSleep (seconds : Z)
| EvCacheSave (cache_key : string).

(** [cache_files]: the parsable files of [CACHE_DIR], by key (a file that
    does not parse loads as [None], like a missing one).
    [cache_writable]: whether [open(cache_file, 'w')] succeeds. *)
Record world := World {
  cache_files : gmap string pyval;
  cache_writable : bool;
  trace : list event
}.

Definition log (e : event) (w : world) : world :=
  {| cache_files := cache_files w; cache_writable := cache_writable w;
     trace := trace w ++ [e] |}.

(** [load_from_llm_cache] (lines 208-217) *)
Definition load_from_llm_cache (cache_key : string) (w : world) : option pyval * world :=
  (cache_files w !! cache_key, log (EvCacheLoad cache_key) w).

(** [save_to_llm_cache] (lines 220-228); a failed write is printed and
    swallowed. *)
Definition save_to_llm_cache (cache_key : string) (game_data : pyval) (w : world) : world :=
  let w := log (EvCacheSave cache_key) w in
  if cache_writable w
  then {| cache_files := <[cache_key := game_data]> (cache_files w);
          cache_writable := cache_writable w; trace := trace w |}
  else w.

(** [(success, game_data_dict, error_message)] *)
Record outcome := Outcome {
  success : bool;
  game_data : option pyval;
  error_message : option string
}.

(** [use_cache and cache_key] *)
Definition cache_on (use_cache : bool) (cache_key : option string) : option string :=
  if use_cache
  then match cache_key with
       | Some k => if String.eqb k "" then None else Some k
       | None => None
       end
  else None.

Section Provider.

(** [build_user_prompt] (lines 43-196) is a fixed template filled with the
    theme and the difficulty preset; only its dependency on both arguments
    matters here.  [completion] is the provider: what the [try] block
    does at a given attempt for a given user message. *)
Variable build_user_prompt : string -> string -> string.
Variable completion : string -> nat -> attempt_result.

(** The loop [for attempt in range(max_retries)] (lines 270-318), on the
    attempts that remain. *)
Fixpoint retry_loop (user_message : string) (max_retries : Z)
    (use_cache : bool) (cache_key : option string)
    (attempts : list nat) (w : world) : outcome * world :=
  match attempts with
  | [] => (Outcome false None (Some "Max retries exceeded"%string), w)
  | attempt :: rest =>
      let w := log (EvCompletion attempt user_message) w in
      match completion user_message attempt with
      | Parsed game_data =>
          let w := match cache_on use_cache cache_key with
                   | Some k => save_to_llm_cache k game_data w
                   | None => w
                   end in
          (Outcome true (Some game_data) None, w)
      | JSONDecodeError e =>
          let error_msg := ("JSON parsing error: " ++ e)%string in
          if Z.of_nat attempt <? max_retries - 1
          then
            let wait_time := 2 ^ Z.of_nat attempt in
            retry_loop user_message max_retries use_cache cache_key rest (log (EvSleep wait_time) w)
          else (Outcome false None (Some error_msg), w)
      | OtherException type_name e =>
          let error_msg := ("LLM error: " ++ type_name ++ ": " ++ e)%string in
          if Z.of_nat attempt <? max_retries - 1
          then
            let wait_time := 2 ^ Z.of_nat attempt in
            retry_loop user_message max_retries use_cache cache_key rest (log (EvSleep wait_time) w)
          else (Outcome false None (Some error_msg), w)
      end
  end.

(** [range(max_retries)] *)
Definition range (n : Z) : list nat := seq 0 (Z.to_nat n).

(** [generate_game_json] (lines 231-318) *)
Definition generate_game_json (user_prompt difficulty : string) (max_retries : Z)
    (use_cache : bool) (w : world) : outcome * world :=
  let cache_key := if use_cache then Some (get_llm_cache_key user_prompt None) else None in
  let '(cached_data, w) :=
    match cache_on use_cache cache_key with
    | Some k => load_from_llm_cache k w
    | None => (None, w)
    end in
  match cached_data with
  | Some data =>
      if truthy data
      then (Outcome true (Some data) None, w)
      else retry_loop (build_user_prompt user_prompt difficulty) max_retries
             use_cache cache_key (range max_retries) w
  | None =>
      retry_loop (build_user_prompt user_prompt difficulty) max_retries
        use_cache cache_key (range max_retries) w
  end.

End Provider.

(** The error message an attempt ends with, if it fails. *)
Definition failure_message (r : attempt_result) : option string :=
  match r with
  | Parsed _ => None
  | JSONDecodeError e => Some ("JSON parsing error: " ++ e)%string
  | OtherException type_name e => Some ("LLM error: " ++ type_name ++ ": " ++ e)%string
  end.

Definition completions_of (tr : list event) : list nat :=
  omap (fun e => match e with EvCompletion i _ => Some i | _ => None end) tr.

Definition sleeps_of (tr : list event) : list Z :=
  omap (fun e => match e with EvSleep s => Some s | _ => None end) tr.

(** The events of [n] failing attempts: each attempt but the last is
    followed by its backoff sleep. *)
Definition failing_events (user_message : string) (n : nat) (attempts : list nat) : list event :=
  flat_map (fun i => EvCompletion i user_message ::
                     (if (S i <? n)%nat then [EvSleep (2 ^ Z.of_nat i)] else []))
           attempts.

(** *** The cache key *)







(** *** The retry loop *)

Lemma completions_of_failing_events msg n l :
  completions_of (failing_events msg n l) = l.
Proof.
  unfold completions_of, failing_events.
  induction l as [|i l IH]; [reflexivity|].
  cbn [flat_map]. rewrite omap_app, IH.
  destruct (S i <? n)%nat; reflexivity.
Qed.

Lemma sleeps_of_failing_events msg n m : forall k,
  (k + m = n)%nat ->
  sleeps_of (failing_events msg n (seq k m)) = (fun i => 2 ^ Z.of_nat i) <$> seq k (m - 1).
Proof.
  unfold sleeps_of, failing_events.
  induction m as [|m IH]; intros k Hk; [reflexivity|].
  cbn [seq flat_map]. rewrite omap_app, (IH (S k)) by lia.
  destruct (Nat.ltb_spec (S k) n) as [Hlt|Hge].
  - destruct m as [|m]; [lia|]. cbn [Nat.sub]. rewrite !Nat.sub_0_r. reflexivity.
  - assert (m = 0%nat) as -> by lia. reflexivity.
Qed.

Section RetryFacts.

Variable completion : string -> nat -> attempt_result.
Variable msg : string.
Variable max_retries : Z.
Variable use_cache : bool.
Variable cache_key : option string.

Hypothesis always_fails : forall i, failure_message (completion msg i) <> None.

Lemma retry_loop_all_fail (m : nat) : forall (k : nat) (w : world),
  Z.of_nat (k + m) = max_retries ->
  let r := retry_loop completion msg max_retries use_cache cache_key (seq k m) w in
  trace r.2 = trace w ++ failing_events msg (k + m) (seq k m) /\
  cache_files r.2 = cache_files w /\
  success r.1 = false /\ game_data r.1 = None /\
  error_message r.1 =
    match m with
    | O => Some "Max retries exceeded"%string
    | S _ => failure_message (completion msg (k + m - 1))
    end.
Proof.
  induction m as [|m IH]; intros k w Hn.
  - simpl. rewrite app_nil_r. auto.
  - cbn [seq retry_loop].
    pose proof (always_fails k) as Hk.
    assert (Hcond : (Z.of_nat k <? max_retries - 1) = (S k <? k + S m)%nat).
    { destruct (Z.ltb_spec (Z.of_nat k) (max_retries - 1)),
               (Nat.ltb_spec (S k) (k + S m)); try reflexivity; lia. }
    assert (Hcont : (S k <? k + S m)%nat = true ->
      let r := retry_loop completion msg max_retries use_cache cache_key (seq (S k) m)
                 (log (EvSleep (2 ^ Z.of_nat k)) (log (EvCompletion k msg) w)) in
      trace r.2 = trace w ++ failing_events msg (k + S m) (k :: seq (S k) m) /\
      cache_files r.2 = cache_files w /\
      success r.1 = false /\ game_data r.1 = None /\
      error_message r.1 = failure_message (completion msg (k + S m - 1))).
    { intros Hlt. apply Nat.ltb_lt in Hlt as Hlt'.
      destruct (IH (S k) (log (EvSleep (2 ^ Z.of_nat k)) (log (EvCompletion k msg) w))
                  ltac:(lia)) as (Ht & Hc & Hs & Hg & He).
      cbv zeta. rewrite Ht, Hc, Hs, Hg, He.
      replace (S k + m)%nat with (k + S m)%nat by lia.
      split; [|split; [reflexivity|split; [reflexivity|split; [reflexivity|]]]].
      - unfold failing_events at 2. cbn [flat_map]. rewrite Hlt.
        unfold log. cbn [trace]. rewrite <- !app_assoc. reflexivity.
      - destruct m as [|m']; [lia|]. repeat f_equal; lia. }
    assert (Hstop : (S k <? k + S m)%nat = false ->
      forall error_msg, failure_message (completion msg k) = Some error_msg ->
      let r := (Outcome false None (Some error_msg), log (EvCompletion k msg) w) in
      trace r.2 = trace w ++ failing_events msg (k + S m) (k :: seq (S k) m) /\
      cache_files r.2 = cache_files w /\
      success r.1 = false /\ game_data r.1 = None /\
      error_message r.1 = failure_message (completion msg (k + S m - 1))).
    { intros Hge error_msg Hmsg. apply Nat.ltb_ge in Hge as Hge'.
      assert (m = 0%nat) as -> by lia.
      cbv zeta. cbn [fst snd trace log success game_data error_message cache_files].
      unfold failing_events. cbn [flat_map seq]. rewrite Hge.
      replace (k + 1 - 1)%nat with k by lia. rewrite Hmsg. auto. }
    destruct (completion msg k) as [gd|e|ty e] eqn:Hc.
    + exfalso. apply Hk. reflexivity.
    + rewrite Hcond. destruct (S k <? k + S m)%nat eqn:Hlt.
      * apply Hcont. reflexivity.
      * apply (Hstop eq_refl). reflexivity.
    + rewrite Hcond. destruct (S k <? k + S m)%nat eqn:Hlt.
      * apply Hcont. reflexivity.
      * apply (Hstop eq_refl). reflexivity.
Qed.

End RetryFacts.

Lemma last_failing_events msg n :
  (1 <= n)%nat ->
  last (failing_events msg n (seq 0 n)) = Some (EvCompletion (n - 1) msg).
Proof.
  intros Hn. destruct n as [|n]; [lia|].
  rewrite seq_S. unfold failing_events. rewrite flat_map_app. cbn [flat_map].
  rewrite app_nil_r. cbn [Nat.add].
  destruct (Nat.ltb_spec (S n) (S n)) as [Hlt|_]; [lia|].
  replace (S n - 1)%nat with n by lia.
  apply last_snoc.
Qed.

Lemma llm_cache_on_key (user_prompt : string) :
  cache_on true (Some (get_llm_cache_key user_prompt None))
  = Some (get_llm_cache_key user_prompt None).
Proof.
  unfold cache_on.
  destruct (String.eqb_spec (get_llm_cache_key user_prompt None) "") as [E|_]; [|reflexivity].
  exfalso. revert E. apply Hashlib.sha256_hex_nonempty.
Qed.

(** C4. Against a provider whose every attempt fails, with the cache
    disabled or missing the key and [max_retries >= 0]: the call returns
    (it is a total function); it makes exactly [max_retries] attempts,
    numbered [0, ..., max_retries - 1]; it sleeps [2^attempt] seconds
    after each attempt but the last and nothing follows the last attempt;
    the result is a failure without data which, when there was an attempt,
    carries the error message of the last one. *)
Theorem generate_game_json_retry_policy
    (build_user_prompt : string -> string -> string)
    (completion : string -> nat -> attempt_result)
    (user_prompt difficulty : string) (max_retries : Z) (use_cache : bool) (w : world) :
  0 <= max_retries ->
  (use_cache = true ->
   match cache_files w !! get_llm_cache_key user_prompt None with
   | Some cached_data => truthy cached_data = false
   | None => True
   end) ->
  (forall i, failure_message (completion (build_user_prompt user_prompt difficulty) i) <> None) ->
  let msg := build_user_prompt user_prompt difficulty in
  let n := Z.to_nat max_retries in
  let r := generate_game_json build_user_prompt completion
             user_prompt difficulty max_retries use_cache w in
  let lookup := if use_cache then [EvCacheLoad (get_llm_cache_key user_prompt None)] else [] in
  let attempts := failing_events msg n (seq 0 n) in
  trace r.2 = trace w ++ lookup ++ attempts /\
  completions_of attempts = seq 0 n /\
  Z.of_nat (length (completions_of attempts)) = max_retries /\
  sleeps_of attempts = (fun i => 2 ^ Z.of_nat i) <$> seq 0 (n - 1)%nat /\
  (1 <= max_retries -> last attempts = Some (EvCompletion (n - 1)%nat msg)) /\
  success r.1 = false /\ game_data r.1 = None /\
  (1 <= max_retries ->
   is_Some (error_message r.1) /\
   error_message r.1 = failure_message (completion msg (n - 1)%nat)) /\
  cache_files r.2 = cache_files w.
Proof.
  intros Hmax Hmiss Hfail msg n r lookup attempts.
  assert (Hloop : forall w0,
    let r0 := retry_loop completion msg max_retries use_cache
                (if use_cache then Some (get_llm_cache_key user_prompt None) else None)
                (range max_retries) w0 in
    trace r0.2 = trace w0 ++ attempts /\ cache_files r0.2 = cache_files w0 /\
    success r0.1 = false /\ game_data r0.1 = None /\
    (1 <= max_retries ->
     is_Some (error_message r0.1) /\
     error_message r0.1 = failure_message (completion msg (n - 1)%nat))).
  { intros w0.
    destruct (retry_loop_all_fail completion msg max_retries use_cache
                (if use_cache then Some (get_llm_cache_key user_prompt None) else None)
                Hfail n 0%nat w0 ltac:(unfold n; lia)) as (Ht & Hc & Hs & Hg & He).
    cbv zeta. unfold range. fold n.
    rewrite Ht, Hc, Hs, Hg, He. cbn [Nat.add].
    repeat split; try reflexivity.
    - destruct n as [|n'] eqn:En; [lia|].
      destruct (failure_message (completion msg (S n' - 1)%nat)) eqn:Hm; [eauto|].
      exfalso. eapply Hfail. exact Hm.
    - destruct n as [|n'] eqn:En; [lia|]. reflexivity. }
  assert (Hrun : trace r.2 = trace w ++ lookup ++ attempts /\ cache_files r.2 = cache_files w /\
    success r.1 = false /\ game_data r.1 = None /\
    (1 <= max_retries ->
     is_Some (error_message r.1) /\
     error_message r.1 = failure_message (completion msg (n - 1)%nat))).
  { unfold r, generate_game_json, lookup. destruct use_cache.
    - rewrite llm_cache_on_key. unfold load_from_llm_cache.
      specialize (Hmiss eq_refl).
      specialize (Hloop (log (EvCacheLoad (get_llm_cache_key user_prompt None)) w)).
      cbv zeta in Hloop. cbn [trace log cache_files] in Hloop.
      rewrite <- app_assoc in Hloop.
      destruct (cache_files w !! get_llm_cache_key user_prompt None) as [data|].
      + rewrite Hmiss. exact Hloop.
      + exact Hloop.
    - cbn [cache_on]. specialize (Hloop w). cbv zeta in Hloop. exact Hloop. }
  destruct Hrun as (Ht & Hc & Hs & Hg & He).
  split; [exact Ht|].
  split; [apply completions_of_failing_events|].
  split; [unfold attempts; rewrite completions_of_failing_events, length_seq; unfold n; lia|].
  split; [apply sleeps_of_failing_events; lia|].
  split; [intros H1; apply last_failing_events; unfold n; lia|].
  auto.
Qed.

(** A provider that never answers with JSON. *)
Definition broken_provider (user_message : string) (attempt : nat) : attempt_result :=
  if Nat.even attempt
  then JSONDecodeError "Expecting value: line 1 column 1 (char 0)"
  else OtherException "Timeout" "request timed out".

Definition empty_world : world :=
  {| cache_files := ∅; cache_writable := true; trace := [] |}.

Example three_failing_attempts :
  let r := generate_game_json (fun theme _ => theme) broken_provider
             "A cathedral kernel" "normal" 3 false empty_world in
  r.1 = Outcome false None
          (Some "JSON parsing error: Expecting value: line 1 column 1 (char 0)"%string) /\
  trace r.2 = [EvCompletion 0 "A cathedral kernel"; EvSleep 1;
               EvCompletion 1 "A cathedral kernel"; EvSleep 2;
               EvCompletion 2 "A cathedral kernel"].
Proof. split; reflexivity. Qed.

Lemma generate_game_json_retry_policy_witness :
  let r := generate_game_json (fun theme _ => theme) broken_provider
             "A cathedral kernel" "normal" 3 false empty_world in
  0 <= 3 /\
  trace r.2 = [] ++ [] ++ failing_events "A cathedral kernel" 3 (seq 0 3) /\
  success r.1 = false.
Proof.
  pose proof (generate_game_json_retry_policy (fun theme _ => theme) broken_provider
                "A cathedral kernel" "normal" 3 false empty_world
                ltac:(lia) ltac:(discriminate)) as H.
  cbv zeta in H |- *.
  destruct H as (Ht & _ & _ & _ & _ & Hs & _).
  - intros i. unfold broken_provider. destruct (Nat.even i); discriminate.
  - split; [lia|]. split; [exact Ht|exact Hs].
Defined.


(** *** Any provider *)

(** The events of an attempt that fails and is retried. *)
Definition retried_events (user_message : string) (attempts : list nat) : list event :=
  flat_map (fun i => [EvCompletion i user_message; EvSleep (2 ^ Z.of_nat i)]) attempts.

Definition well_shaped (o : outcome) : Prop :=
  match success o with
  | true => is_Some (game_data o) /\ error_message o = None
  | false => game_data o = None /\ is_Some (error_message o)
  end.

Section AnyProvider.

Variable completion : string -> nat -> attempt_result.
Variable msg : string.
Variable max_retries : Z.
Variable use_cache : bool.
Variable cache_key : option string.

Lemma retry_loop_well_shaped (attempts : list nat) : forall w,
  well_shaped (retry_loop completion msg max_retries use_cache cache_key attempts w).1.
Proof.
  induction attempts as [|i rest IH]; intros w.
  - simpl. unfold well_shaped. simpl. eauto.
  - cbn [retry_loop].
    destruct (completion msg i) as [gd|e|ty e].
    + unfold well_shaped. simpl. eauto.
    + destruct (Z.of_nat i <? max_retries - 1); [apply IH|].
      unfold well_shaped. simpl. eauto.
    + destruct (Z.of_nat i <? max_retries - 1); [apply IH|].
      unfold well_shaped. simpl. eauto.
Qed.

Lemma save_to_llm_cache_files (k : string) (gd : pyval) (w : world) :
  cache_files (save_to_llm_cache k gd w) =
    (if cache_writable w then <[k := gd]> (cache_files w) else cache_files w) /\
  cache_writable (save_to_llm_cache k gd w) = cache_writable w /\
  trace (save_to_llm_cache k gd w) = trace w ++ [EvCacheSave k].
Proof.
  unfold save_to_llm_cache, log. cbn [cache_writable cache_files trace].
  destruct (cache_writable w) eqn:E; cbn [cache_writable cache_files trace]; auto.
Qed.

Lemma retry_loop_cache_frame (attempts : list nat) : forall w,
  let r := retry_loop completion msg max_retries use_cache cache_key attempts w in
  cache_writable r.2 = cache_writable w /\
  (cache_files r.2 = cache_files w \/
   exists k gd, cache_on use_cache cache_key = Some k /\ cache_writable w = true /\
     r.1 = Outcome true (Some gd) None /\
     cache_files r.2 = <[k := gd]> (cache_files w)).
Proof.
  induction attempts as [|i rest IH]; intros w.
  - simpl. auto.
  - cbn [retry_loop]. cbv zeta.
    assert (Hrec : forall s,
      let r := retry_loop completion msg max_retries use_cache cache_key rest
                 (log (EvSleep s) (log (EvCompletion i msg) w)) in
      cache_writable r.2 = cache_writable w /\
      (cache_files r.2 = cache_files w \/
       exists k gd, cache_on use_cache cache_key = Some k /\ cache_writable w = true /\
         r.1 = Outcome true (Some gd) None /\
         cache_files r.2 = <[k := gd]> (cache_files w))).
    { intros s. exact (IH (log (EvSleep s) (log (EvCompletion i msg) w))). }
    destruct (completion msg i) as [gd|e|ty e].
    + destruct (cache_on use_cache cache_key) as [k|] eqn:Hk; cbn [fst snd].
      * destruct (save_to_llm_cache_files k gd (log (EvCompletion i msg) w)) as (Hf & Hw & _).
        rewrite Hf, Hw. cbn [log cache_writable cache_files].
        split; [reflexivity|].
        destruct (cache_writable w) eqn:E; [|auto].
        right. exists k, gd. auto.
      * cbn [log cache_writable cache_files]. auto.
    + destruct (Z.of_nat i <? max_retries - 1); [apply Hrec|].
      cbn [fst snd log cache_writable cache_files]. auto.
    + destruct (Z.of_nat i <? max_retries - 1); [apply Hrec|].
      cbn [fst snd log cache_writable cache_files]. auto.
Qed.


(** The first attempt that parses ends the loop: the attempts before it
    are each followed by their sleep, the data is saved when caching is
    on, and it is returned also when the save fails. *)
Lemma retry_loop_first_success (j : nat) (gd : pyval) (m : nat) : forall (k : nat) (w : world),
  (k <= j < k + m)%nat ->
  Z.of_nat (k + m) = max_retries ->
  (forall i, (k <= i < j)%nat -> failure_message (completion msg i) <> None) ->
  completion msg j = Parsed gd ->
  let r := retry_loop completion msg max_retries use_cache cache_key (seq k m) w in
  r.1 = Outcome true (Some gd) None /\
  trace r.2 = trace w ++ retried_events msg (seq k (j - k)) ++ [EvCompletion j msg] ++
                match cache_on use_cache cache_key with
                | Some key => [EvCacheSave key]
                | None => []
                end /\
  cache_files r.2 =
    match cache_on use_cache cache_key with
    | Some key => if cache_writable w then <[key := gd]> (cache_files w) else cache_files w
    | None => cache_files w
    end.
Proof.
  induction m as [|m IH]; intros k w Hj Hmax Hfail Hok; [lia|].
  cbn [seq retry_loop]. cbv zeta.
  destruct (Nat.eq_dec k j) as [->|Hne].
  - rewrite Hok. rewrite Nat.sub_diag. cbn [seq retried_events flat_map app fst snd].
    split; [reflexivity|].
    destruct (cache_on use_cache cache_key) as [key|].
    + destruct (save_to_llm_cache_files key gd (log (EvCompletion j msg) w)) as (Hf & _ & Ht).
      rewrite Hf, Ht. cbn [log trace cache_files cache_writable].
      rewrite <- app_assoc. auto.
    + cbn [log trace cache_files]. auto.
  - assert (Hlt : (Z.of_nat k <? max_retries - 1) = true) by (apply Z.ltb_lt; lia).
    pose proof (Hfail k ltac:(lia)) as Hk.
    destruct (IH (S k) (log (EvSleep (2 ^ Z.of_nat k)) (log (EvCompletion k msg) w))
                ltac:(lia) ltac:(lia) ltac:(intros i Hi; apply Hfail; lia) Hok)
      as (Ho & Ht & Hc).
    cbv zeta in Ho, Ht, Hc.
    assert (Hseq : seq k (j - k) = k :: seq (S k) (j - S k)).
    { replace (j - k)%nat with (S (j - S k)) by lia. reflexivity. }
    destruct (completion msg k) as [gd'|e|ty e]; [exfalso; apply Hk; reflexivity| |];
      rewrite Hlt, Ho, Ht, Hc, Hseq; cbn [log trace cache_files cache_writable];
      cbn [retried_events flat_map app]; rewrite <- !app_assoc; auto.
Qed.

End AnyProvider.

Section AnyCall.

Variable build_user_prompt : string -> string -> string.
Variable completion : string -> nat -> attempt_result.

Lemma generate_game_json_well_shaped
    (user_prompt difficulty : string) (max_retries : Z) (use_cache : bool) (w : world) :
  well_shaped (generate_game_json build_user_prompt completion
                 user_prompt difficulty max_retries use_cache w).1.
Proof.
  unfold generate_game_json.
  destruct (cache_on use_cache _) as [k|].
  - unfold load_from_llm_cache.
    destruct (cache_files w !! k) as [data|]; [|apply retry_loop_well_shaped].
    destruct (truthy data); [|apply retry_loop_well_shaped].
    unfold well_shaped. simpl. eauto.
  - apply retry_loop_well_shaped.
Qed.



(** X8. the cache changes only by a successful call with [use_cache]
    writing the returned data under the key of the user prompt. *)
Theorem generate_game_json_cache_frame
    (user_prompt difficulty : string) (max_retries : Z) (use_cache : bool) (w : world) :
  let r := generate_game_json build_user_prompt completion
             user_prompt difficulty max_retries use_cache w in
  cache_files r.2 = cache_files w \/
  (use_cache = true /\
   exists gd, r.1 = Outcome true (Some gd) None /\
     cache_files r.2 = <[get_llm_cache_key user_prompt None := gd]> (cache_files w)).
Proof.
  cbv zeta.
  assert (Hloop : forall w0, cache_files w0 = cache_files w ->
    let r := retry_loop completion (build_user_prompt user_prompt difficulty) max_retries
               use_cache (if use_cache then Some (get_llm_cache_key user_prompt None) else None)
               (range max_retries) w0 in
    cache_files r.2 = cache_files w \/
    (use_cache = true /\
     exists gd, r.1 = Outcome true (Some gd) None /\
       cache_files r.2 = <[get_llm_cache_key user_prompt None := gd]> (cache_files w))).
  { intros w0 Hw0. cbv zeta.
    destruct (retry_loop_cache_frame completion (build_user_prompt user_prompt difficulty)
                max_retries use_cache
                (if use_cache then Some (get_llm_cache_key user_prompt None) else None)
                (range max_retries) w0) as (_ & [Hsame|(k & gd & Hk & _ & Ho & Hc)]).
    - left. congruence.
    - right. destruct use_cache; [|discriminate].
      rewrite llm_cache_on_key in Hk. injection Hk as <-.
      split; [reflexivity|]. exists gd. split; [exact Ho|]. rewrite Hc, Hw0. reflexivity. }
  unfold generate_game_json.
  destruct (cache_on use_cache _) as [k|].
  - unfold load_from_llm_cache.
    destruct (cache_files w !! k) as [data|]; [|apply Hloop; reflexivity].
    destruct (truthy data); [|apply Hloop; reflexivity].
    left. reflexivity.
  - apply Hloop. reflexivity.
Qed.

(** X9. once a call with caching has succeeded on a writable cache with
    data that is not empty, every later call with caching for the same user
    prompt returns that data without calling the provider, for any
    difficulty, any retry count and any provider. *)
Theorem generate_game_json_cache_round_trip
    (user_prompt difficulty : string) (max_retries : Z) (w : world)
    (j : nat) (gd : pyval) :
  let msg := build_user_prompt user_prompt difficulty in
  let key := get_llm_cache_key user_prompt None in
  cache_files w !! key = None ->
  cache_writable w = true ->
  Z.of_nat j < max_retries ->
  (forall i, (i < j)%nat -> failure_message (completion msg i) <> None) ->
  completion msg j = Parsed gd ->
  truthy gd = true ->
  let r := generate_game_json build_user_prompt completion
             user_prompt difficulty max_retries true w in
  r.1 = Outcome true (Some gd) None /\
  trace r.2 = trace w ++ [EvCacheLoad key] ++ retried_events msg (seq 0 j) ++
                [EvCompletion j msg; EvCacheSave key] /\
  forall build_user_prompt' completion' difficulty' max_retries',
    let r' := generate_game_json build_user_prompt' completion'
                user_prompt difficulty' max_retries' true r.2 in
    r'.1 = Outcome true (Some gd) None /\
    trace r'.2 = trace r.2 ++ [EvCacheLoad key].
Proof.
  intros msg key Hmiss Hwr Hj Hfail Hok Htruthy r.
  assert (Hr : r.1 = Outcome true (Some gd) None /\
    trace r.2 = trace w ++ [EvCacheLoad key] ++ retried_events msg (seq 0 j) ++
                  [EvCompletion j msg; EvCacheSave key] /\
    cache_files r.2 = <[key := gd]> (cache_files w)).
  { unfold r, generate_game_json. rewrite llm_cache_on_key.
    unfold load_from_llm_cache. fold key. rewrite Hmiss.
    destruct (retry_loop_first_success completion msg max_retries true (Some key)
                j gd (Z.to_nat max_retries) 0%nat (log (EvCacheLoad key) w)
                ltac:(lia) ltac:(lia) ltac:(intros i Hi; apply Hfail; lia) Hok)
      as (Ho & Ht & Hc).
    cbv zeta in Ho, Ht, Hc. unfold key in Ht, Hc. rewrite llm_cache_on_key in Ht, Hc.
    fold key in Ht, Hc. rewrite Nat.sub_0_r in Ht.
    cbn [log trace cache_files cache_writable] in Ht, Hc. rewrite Hwr in Hc.
    unfold range. fold msg.
    split; [exact Ho|]. split; [|exact Hc].
    rewrite Ht. rewrite <- !app_assoc. reflexivity. }
  destruct Hr as (Ho & Ht & Hc).
  split; [exact Ho|]. split; [exact Ht|].
  intros build' completion' difficulty' max_retries'. cbv zeta.
  unfold generate_game_json. rewrite llm_cache_on_key.
  unfold load_from_llm_cache. fold key. rewrite Hc, lookup_insert_eq, Htruthy.
  split; reflexivity.
Qed.

End AnyCall.

(** A provider that answers with JSON at its second attempt. *)
Definition flaky_provider (user_message : string) (attempt : nat) : attempt_result :=
  match attempt with
  | O => OtherException "Timeout" "request timed out"
  | _ => Parsed (PDict [("game_id"%string, PStr "g1")])
  end.

Lemma generate_game_json_cache_round_trip_witness :
  let r := generate_game_json (fun theme _ => theme) flaky_provider
             "A cathedral kernel" "normal" 3 true empty_world in
  r.1 = Outcome true (Some (PDict [("game_id"%string, PStr "g1")])) None /\
  let r' := generate_game_json (fun theme _ => theme) broken_provider
              "A cathedral kernel" "hard" 1 true r.2 in
  r'.1 = Outcome true (Some (PDict [("game_id"%string, PStr "g1")])) None.
Proof.
  destruct (generate_game_json_cache_round_trip (fun theme _ => theme) flaky_provider
              "A cathedral kernel" "normal" 3 empty_world 1%nat
              (PDict [("game_id"%string, PStr "g1")])) as (Ho & _ & Hnext).
  - reflexivity.
  - reflexivity.
  - lia.
  - intros i Hi. assert (i = 0%nat) as -> by lia. discriminate.
  - reflexivity.
  - reflexivity.
  - cbv zeta. split; [exact Ho|].
    apply (Hnext (fun theme _ => theme) broken_provider "hard"%string 1).
Defined.

End LlmService.

(** ** services/image_service.py *)

Module ImageService.

(** [get_cache_key] (lines 38-41): [f"{prompt}|{size}|{model}"] hashed. *)
Definition get_cache_key (prompt size model : string) : string :=
  let key_str := (prompt ++ "|" ++ size ++ "|" ++ model)%string in
  Hashlib.sha256_hex key_str.

(** [(success, base64_image, error_message)] *)
Record outcome := Outcome {
  success : bool;
  image : option string;
  error : option string
}.

Inductive event :=
| EvFsLoad (image_type cache_key : string)
| EvMemLookup (cache_key : string)
| EvMemStore (cache_key : string)
| EvFsSave (image_type cache_key : string)
| EvGemini (prompt size : string)
| EvOpenAI (prompt size : string).

(** [IMAGE_CACHE] is the module-level dictionary; [files] is [CACHE_DIR]:
    the bytes of [<image_type>/<cache_key>.png]. *)
Record world := World {
  IMAGE_CACHE : gmap string string;
  files : gmap (string * string) string;
  trace : list event
}.

Definition log (e : event) (w : world) : world :=
  {| IMAGE_CACHE := IMAGE_CACHE w; files := files w; trace := trace w ++ [e] |}.

Definition PNG_PREFIX : string := "data:image/png;base64,".

(** [load_image_from_cache] (lines 83-113) *)
Definition load_image_from_cache (cache_key image_type : string) (w : world)
  : option string * world :=
  let w := log (EvFsLoad image_type cache_key) w in
  match files w !! (image_type, cache_key) with
  | None => (None, w)
  | Some image_bytes => (Some (PNG_PREFIX ++ Base64.b64encode image_bytes)%string, w)
  end.

(** [bool(s)] for an optional string *)
Definition nonempty (o : option string) : bool :=
  match o with
  | Some s => negb (String.eqb s "")
  | None => false
  end.

(** [f"{error}"] *)
Definition str_of (o : option string) : string :=
  match o with
  | Some s => s
  | None => "None"
  end.

Section Providers.

(** [b64decode]: [base64.b64decode], [None] when it raises.  The two
    provider functions wrap calls to external services in
    [try/except Exception]; they are taken by what they return. *)
Variable b64decode : string -> option string.
Variable generate_image_gemini : string -> string -> outcome.
Variable generate_image_openai : string -> string -> outcome.

(** [save_image_to_cache] (lines 44-80); a failure is printed and swallowed. *)
Definition save_image_to_cache (cache_key base64_data image_type : string) (w : world) : world :=
  let w := log (EvFsSave image_type cache_key) w in
  let base64_content :=
    if String.prefix PNG_PREFIX base64_data
    then String.substring (String.length PNG_PREFIX)
           (String.length base64_data - String.length PNG_PREFIX) base64_data
    else base64_data in
  match b64decode base64_content with
  | Some image_bytes =>
      {| IMAGE_CACHE := IMAGE_CACHE w;
         files := <[(image_type, cache_key) := image_bytes]> (files w);
         trace := trace w |}
  | None => w
  end.

(** [IMAGE_CACHE[cache_key] = image] *)
Definition store_in_memory (cache_key img : string) (w : world) : world :=
  let w := log (EvMemStore cache_key) w in
  {| IMAGE_CACHE := <[cache_key := img]> (IMAGE_CACHE w); files := files w; trace := trace w |}.

(** Lines 343-346 and 355-358. *)
Definition cache_result (cache_key : option string) (img image_type : string) (w : world) : world :=
  match cache_key with
  | Some k => save_image_to_cache k img image_type (store_in_memory k img w)
  | None => w
  end.

(** Lines 338-361: the primary provider, then the fallback. *)
Definition generate_uncached (prompt size image_type : string)
    (cache_key : option string) (w : world) : outcome * world :=
  let w := log (EvGemini prompt size) w in
  let r := generate_image_gemini prompt size in
  if success r && nonempty (image r)
  then (Outcome true (image r) None, cache_result cache_key (str_of (image r)) image_type w)
  else
    let w := log (EvOpenAI prompt size) w in
    let r := generate_image_openai prompt size in
    if success r && nonempty (image r)
    then (Outcome true (image r) None, cache_result cache_key (str_of (image r)) image_type w)
    else (Outcome false None
            (Some ("Both Gemini and OpenAI failed. Last error: " ++ str_of (error r))%string), w).

(** [use_cache and cache_key] *)
Definition cache_on (use_cache : bool) (cache_key : option string) : option string :=
  if use_cache
  then match cache_key with
       | Some k => if String.eqb k "" then None else Some k
       | None => None
       end
  else None.

(** [generate_image] (lines 298-361) *)
Definition generate_image (prompt size : string) (use_cache : bool) (image_type : string)
    (w : world) : outcome * world :=
  let cache_key := if use_cache then Some (get_cache_key prompt size image_type) else None in
  match cache_on use_cache cache_key with
  | Some k =>
      (* Try filesystem cache *)
      let '(cached_image, w) := load_image_from_cache k image_type w in
      if nonempty cached_image
      then (Outcome true cached_image None, store_in_memory k (str_of cached_image) w)
      else
        (* Try memory cache *)
        let w := log (EvMemLookup k) w in
        match IMAGE_CACHE w !! k with
        | Some img => (Outcome true (Some img) None, w)
        | None => generate_uncached prompt size image_type (cache_on use_cache cache_key) w
        end
  | None => generate_uncached prompt size image_type None w
  end.

End Providers.

Lemma image_cache_on_key (prompt size image_type : string) :
  cache_on true (Some (get_cache_key prompt size image_type))
  = Some (get_cache_key prompt size image_type).
Proof.
  unfold cache_on.
  destruct (String.eqb_spec (get_cache_key prompt size image_type) "") as [E|_]; [|reflexivity].
  exfalso. revert E. apply Hashlib.sha256_hex_nonempty.
Qed.

Lemma nonempty_png (b64 : string) : nonempty (Some (PNG_PREFIX ++ b64)%string) = true.
Proof. reflexivity. Qed.

(** *** Cache lookup order *)

Definition failing (reason : string) : string -> string -> outcome :=
  fun _ _ => Outcome false None (Some reason).

(** A state in which both tiers hold the key of the request
    [("a red ship", "1024x1024", "enemy")], with different images. *)
Definition both_tiers : world :=
  let k := get_cache_key "a red ship" "1024x1024" "enemy" in
  {| IMAGE_CACHE := {[ k := "data:image/png;base64,TUVN"%string ]};
     files := {[ ("enemy"%string, k) := "FS"%string ]};
     trace := [] |}.

(** With both tiers holding the key, the filesystem tier is read first,
    its image is returned and overwrites the one in memory; the memory
    tier is never looked up. *)
Lemma filesystem_tier_wins :
  let k := get_cache_key "a red ship" "1024x1024" "enemy" in
  let r := generate_image (fun _ => None) (failing "unused") (failing "unused")
             "a red ship" "1024x1024" true "enemy" both_tiers in
  IMAGE_CACHE both_tiers !! k = Some "data:image/png;base64,TUVN"%string /\
  r.1 = Outcome true (Some "data:image/png;base64,RlM="%string) None /\
  trace r.2 = [EvFsLoad "enemy" k; EvMemStore k] /\
  IMAGE_CACHE r.2 !! k = Some "data:image/png;base64,RlM="%string.
Proof. vm_compute. repeat split; reflexivity. Qed.

Section LookupFacts.

Variable b64decode : string -> option string.
Variable generate_image_gemini : string -> string -> outcome.
Variable generate_image_openai : string -> string -> outcome.

Lemma generate_image_fs_hit (prompt size image_type : string) (w : world) (image_bytes : string) :
  let k := get_cache_key prompt size image_type in
  let payload := (PNG_PREFIX ++ Base64.b64encode image_bytes)%string in
  files w !! (image_type, k) = Some image_bytes ->
  generate_image b64decode generate_image_gemini generate_image_openai
    prompt size true image_type w
  = (Outcome true (Some payload) None,
     {| IMAGE_CACHE := <[k := payload]> (IMAGE_CACHE w);
        files := files w;
        trace := trace w ++ [EvFsLoad image_type k; EvMemStore k] |}).
Proof.
  intros k payload Hfile. unfold generate_image. rewrite image_cache_on_key. fold k.
  unfold load_image_from_cache. cbn [files log]. rewrite Hfile.
  rewrite nonempty_png. unfold store_in_memory, log. cbn. rewrite <- app_assoc. reflexivity.
Qed.

Lemma generate_image_memory_hit (prompt size image_type : string) (w : world) (img : string) :
  let k := get_cache_key prompt size image_type in
  files w !! (image_type, k) = None ->
  IMAGE_CACHE w !! k = Some img ->
  generate_image b64decode generate_image_gemini generate_image_openai
    prompt size true image_type w
  = (Outcome true (Some img) None,
     {| IMAGE_CACHE := IMAGE_CACHE w;
        files := files w;
        trace := trace w ++ [EvFsLoad image_type k; EvMemLookup k] |}).
Proof.
  intros k Hfile Hmem. unfold generate_image. rewrite image_cache_on_key. fold k.
  unfold load_image_from_cache. cbn [files log]. rewrite Hfile.
  cbn [nonempty]. cbn [log IMAGE_CACHE]. rewrite Hmem.
  unfold log. cbn. rewrite <- app_assoc. reflexivity.
Qed.

Lemma generate_image_first_event (prompt size image_type : string) (w : world) :
  let k := get_cache_key prompt size image_type in
  exists rest,
    trace (generate_image b64decode generate_image_gemini generate_image_openai
             prompt size true image_type w).2
    = trace w ++ EvFsLoad image_type k :: rest.
Proof.
  intros k.
  destruct (files w !! (image_type, k)) as [image_bytes|] eqn:Hfile.
  { rewrite (generate_image_fs_hit _ _ _ _ _ Hfile). cbn. eauto. }
  destruct (IMAGE_CACHE w !! k) as [img|] eqn:Hmem.
  { rewrite (generate_image_memory_hit _ _ _ _ _ Hfile Hmem). cbn. eauto. }
  unfold generate_image. rewrite image_cache_on_key. fold k.
  unfold load_image_from_cache. cbn [files log]. rewrite Hfile.
  cbn [nonempty]. cbn [log IMAGE_CACHE]. rewrite Hmem.
  unfold generate_uncached, cache_result, save_image_to_cache, store_in_memory, log.
  repeat match goal with
  | |- context [if ?c then _ else _] => destruct c
  | |- context [match b64decode ?x with _ => _ end] => destruct (b64decode x)
  end; cbn; rewrite <- ?app_assoc; cbn; eauto.
Qed.

End LookupFacts.

(** C2 (amended). On every lookup ([use_cache] true) the filesystem tier is
    consulted first.  On a filesystem hit the loaded image is written into
    the in-memory tier and returned, without a look at the memory tier
    and without a provider call.  The in-memory tier is consulted only
    after a filesystem miss, and a hit there is returned as it is. *)
Theorem generate_image_lookup_order
    (b64decode : string -> option string)
    (generate_image_gemini generate_image_openai : string -> string -> outcome)
    (prompt size image_type : string) (w : world) :
  let k := get_cache_key prompt size image_type in
  let run := generate_image b64decode generate_image_gemini generate_image_openai
               prompt size true image_type w in
  (exists rest, trace run.2 = trace w ++ EvFsLoad image_type k :: rest) /\
  (forall image_bytes, files w !! (image_type, k) = Some image_bytes ->
     let payload := (PNG_PREFIX ++ Base64.b64encode image_bytes)%string in
     run.1 = Outcome true (Some payload) None /\
     IMAGE_CACHE run.2 = <[k := payload]> (IMAGE_CACHE w) /\
     files run.2 = files w /\
     trace run.2 = trace w ++ [EvFsLoad image_type k; EvMemStore k]) /\
  (forall img, files w !! (image_type, k) = None -> IMAGE_CACHE w !! k = Some img ->
     run.1 = Outcome true (Some img) None /\
     IMAGE_CACHE run.2 = IMAGE_CACHE w /\
     files run.2 = files w /\
     trace run.2 = trace w ++ [EvFsLoad image_type k; EvMemLookup k]).
Proof.
  intros k run. split; [apply generate_image_first_event|]. split.
  - intros image_bytes Hfile payload. unfold run.
    rewrite (generate_image_fs_hit _ _ _ _ _ _ _ _ Hfile). auto.
  - intros img Hfile Hmem. unfold run.
    rewrite (generate_image_memory_hit _ _ _ _ _ _ _ _ Hfile Hmem). auto.
Qed.

(** *** Failover *)

(** Both providers fail, each with its own reason. *)
Lemma primary_reason_dropped :
  let r := generate_image (fun _ => None)
             (failing "Content blocked by safety filters: SAFETY")
             (failing "OpenAI error: Timeout: timed out")
             "a red ship" "1024x1024" false "enemy"
             {| IMAGE_CACHE := ∅; files := ∅; trace := [] |} in
  r.1 = Outcome false None
          (Some "Both Gemini and OpenAI failed. Last error: OpenAI error: Timeout: timed out"%string) /\
  Str.containsb "Content blocked by safety filters: SAFETY" (str_of (error r.1)) = false /\
  Str.containsb "OpenAI error: Timeout: timed out" (str_of (error r.1)) = true.
Proof. vm_compute. repeat split; reflexivity. Qed.

(** A provider result that [generate_image] accepts: [success and image]. *)
Definition usable (r : outcome) : bool := success r && nonempty (image r).

(** C3 (amended). When neither tier of the cache answers (or the cache is
    off) and both providers fail, the primary is tried once, then the
    fallback once, nothing is cached, and the result is a failure without
    image whose message is ["Both Gemini and OpenAI failed. Last error: "]
    followed by the fallback's reason: it contains the reason of the
    fallback provider. *)
Theorem generate_image_both_fail
    (b64decode : string -> option string)
    (generate_image_gemini generate_image_openai : string -> string -> outcome)
    (prompt size image_type : string) (use_cache : bool) (w : world) :
  (use_cache = true ->
   files w !! (image_type, get_cache_key prompt size image_type) = None /\
   IMAGE_CACHE w !! get_cache_key prompt size image_type = None) ->
  usable (generate_image_gemini prompt size) = false ->
  usable (generate_image_openai prompt size) = false ->
  let r := generate_image b64decode generate_image_gemini generate_image_openai
             prompt size use_cache image_type w in
  let reason := str_of (error (generate_image_openai prompt size)) in
  r.1 = Outcome false None
          (Some ("Both Gemini and OpenAI failed. Last error: " ++ reason)%string) /\
  Str.contains reason (str_of (error r.1)) /\
  IMAGE_CACHE r.2 = IMAGE_CACHE w /\ files r.2 = files w /\
  exists lookups,
    trace r.2 = trace w ++ lookups ++ [EvGemini prompt size; EvOpenAI prompt size] /\
    lookups = if use_cache
              then [EvFsLoad image_type (get_cache_key prompt size image_type);
                    EvMemLookup (get_cache_key prompt size image_type)]
              else [].
Proof.
  intros Hmiss Hg Ho r reason.
  assert (Hun : forall ck w0,
    generate_uncached b64decode generate_image_gemini generate_image_openai
      prompt size image_type ck w0
    = (Outcome false None
         (Some ("Both Gemini and OpenAI failed. Last error: " ++ reason)%string),
       log (EvOpenAI prompt size) (log (EvGemini prompt size) w0))).
  { intros ck w0. unfold generate_uncached. unfold usable in Hg, Ho.
    rewrite Hg, Ho. reflexivity. }
  assert (Hc : Str.contains reason
                 ("Both Gemini and OpenAI failed. Last error: " ++ reason)%string).
  { exists "Both Gemini and OpenAI failed. Last error: "%string, ""%string.
    rewrite Str.app_nil_r. reflexivity. }
  unfold r, generate_image. destruct use_cache.
  - destruct (Hmiss eq_refl) as [Hfile Hmem].
    rewrite image_cache_on_key. unfold load_image_from_cache. cbn [files log].
    rewrite Hfile. cbn [nonempty]. cbn [log IMAGE_CACHE]. rewrite Hmem.
    rewrite Hun. cbn. repeat split; try assumption.
    eexists. split; [|reflexivity]. rewrite <- !app_assoc. reflexivity.
  - cbn [cache_on]. rewrite Hun. cbn. repeat split; try assumption.
    eexists. split; [|reflexivity]. rewrite <- !app_assoc. reflexivity.
Qed.

Lemma generate_image_both_fail_witness :
  let w := {| IMAGE_CACHE := ∅; files := ∅; trace := [] |} in
  let r := generate_image (fun _ => None)
             (failing "Content blocked by safety filters: SAFETY")
             (failing "OpenAI error: Timeout: timed out")
             "a red ship" "1024x1024" false "enemy" w in
  usable (failing "Content blocked by safety filters: SAFETY" "a red ship" "1024x1024") = false /\
  usable (failing "OpenAI error: Timeout: timed out" "a red ship" "1024x1024") = false /\
  r.1 = Outcome false None
          (Some ("Both Gemini and OpenAI failed. Last error: "
                 ++ "OpenAI error: Timeout: timed out")%string).
Proof.
  split; [reflexivity|]. split; [reflexivity|].
  pose proof (generate_image_both_fail (fun _ => None)
                (failing "Content blocked by safety filters: SAFETY")
                (failing "OpenAI error: Timeout: timed out")
                "a red ship" "1024x1024" "enemy" false
                {| IMAGE_CACHE := ∅; files := ∅; trace := [] |}
                ltac:(discriminate) eq_refl eq_refl) as H.
  cbv zeta in H. destruct H as [H _]. exact H.
Defined.


(** *** Provider choice and caching, for any provider *)

(** Line 58-61 of [save_image_to_cache]: what is handed to [b64decode]. *)
Definition base64_content_of (base64_data : string) : string :=
  if String.prefix PNG_PREFIX base64_data
  then String.substring (String.length PNG_PREFIX)
         (String.length base64_data - String.length PNG_PREFIX) base64_data
  else base64_data.

Section ProviderFacts.

Variable b64decode : string -> option string.
Variable generate_image_gemini : string -> string -> outcome.
Variable generate_image_openai : string -> string -> outcome.

Lemma usable_image (r : outcome) :
  usable r = true -> exists img, image r = Some img /\ img <> ""%string.
Proof.
  unfold usable. rewrite andb_true_iff. intros [_ H].
  destruct (image r) as [img|]; [|discriminate].
  exists img. split; [reflexivity|]. simpl in H.
  destruct (String.eqb_spec img ""); [discriminate|assumption].
Qed.

Lemma cache_result_spec (k img image_type : string) (w : world) :
  let w' := cache_result b64decode (Some k) img image_type w in
  IMAGE_CACHE w' = <[k := img]> (IMAGE_CACHE w) /\
  files w' = match b64decode (base64_content_of img) with
             | Some image_bytes => <[(image_type, k) := image_bytes]> (files w)
             | None => files w
             end /\
  trace w' = trace w ++ [EvMemStore k; EvFsSave image_type k].
Proof.
  unfold cache_result, save_image_to_cache, store_in_memory, log, base64_content_of.
  cbv zeta. cbn [IMAGE_CACHE files trace].
  destruct (b64decode _); cbn [IMAGE_CACHE files trace];
    rewrite <- app_assoc; auto.
Qed.

Lemma generate_uncached_primary (prompt size image_type : string)
    (ck : option string) (w : world) :
  usable (generate_image_gemini prompt size) = true ->
  generate_uncached b64decode generate_image_gemini generate_image_openai
    prompt size image_type ck w
  = (Outcome true (image (generate_image_gemini prompt size)) None,
     cache_result b64decode ck (str_of (image (generate_image_gemini prompt size)))
       image_type (log (EvGemini prompt size) w)).
Proof.
  intros Hg. unfold generate_uncached. unfold usable in Hg. rewrite Hg. reflexivity.
Qed.

Lemma generate_uncached_fallback (prompt size image_type : string)
    (ck : option string) (w : world) :
  usable (generate_image_gemini prompt size) = false ->
  usable (generate_image_openai prompt size) = true ->
  generate_uncached b64decode generate_image_gemini generate_image_openai
    prompt size image_type ck w
  = (Outcome true (image (generate_image_openai prompt size)) None,
     cache_result b64decode ck (str_of (image (generate_image_openai prompt size)))
       image_type (log (EvOpenAI prompt size) (log (EvGemini prompt size) w))).
Proof.
  intros Hg Ho. unfold generate_uncached. unfold usable in Hg, Ho. rewrite Hg, Ho.
  reflexivity.
Qed.

(** After a cache miss (or with the cache off) the call is
    [generate_uncached] behind the two lookups. *)
Lemma generate_image_miss (prompt size image_type : string) (use_cache : bool) (w : world) :
  let k := get_cache_key prompt size image_type in
  (use_cache = true ->
   files w !! (image_type, k) = None /\ IMAGE_CACHE w !! k = None) ->
  generate_image b64decode generate_image_gemini generate_image_openai
    prompt size use_cache image_type w
  = generate_uncached b64decode generate_image_gemini generate_image_openai
      prompt size image_type (if use_cache then Some k else None)
      (if use_cache
       then log (EvMemLookup k) (log (EvFsLoad image_type k) w)
       else w).
Proof.
  intros k Hmiss. unfold generate_image. destruct use_cache.
  - destruct (Hmiss eq_refl) as [Hfile Hmem].
    rewrite image_cache_on_key. fold k. unfold load_image_from_cache. cbn [files log].
    rewrite Hfile. cbn [nonempty]. cbn [log IMAGE_CACHE]. rewrite Hmem. reflexivity.
  - reflexivity.
Qed.


Definition lookups (use_cache : bool) (k image_type : string) : list event :=
  if use_cache then [EvFsLoad image_type k; EvMemLookup k] else [].


End ProviderFacts.


Definition succeeding (img : string) : string -> string -> outcome :=
  fun _ _ => Outcome true (Some img) None.

Definition no_images : world := {| IMAGE_CACHE := ∅; files := ∅; trace := [] |}.




Definition well_shaped (o : outcome) : Prop :=
  match success o with
  | true => is_Some (image o) /\ error o = None
  | false => image o = None /\ is_Some (error o)
  end.

Section AnyProviders.

Variable b64decode : string -> option string.
Variable generate_image_gemini : string -> string -> outcome.
Variable generate_image_openai : string -> string -> outcome.

Lemma generate_uncached_cases (prompt size image_type : string)
    (ck : option string) (w : world) :
  let r := generate_uncached b64decode generate_image_gemini generate_image_openai
             prompt size image_type ck w in
  (exists img w', r = (Outcome true (Some img) None, cache_result b64decode ck img image_type w') /\
     img <> ""%string /\
     IMAGE_CACHE w' = IMAGE_CACHE w /\ files w' = files w) \/
  (exists msg, r.1 = Outcome false None (Some msg) /\
     IMAGE_CACHE r.2 = IMAGE_CACHE w /\ files r.2 = files w).
Proof.
  cbv zeta.
  destruct (usable (generate_image_gemini prompt size)) eqn:Hg.
  - rewrite (generate_uncached_primary _ _ _ _ _ _ _ _ Hg).
    destruct (usable_image _ Hg) as (img & -> & Hne). left.
    eexists img, _. split; [reflexivity|]. auto.
  - destruct (usable (generate_image_openai prompt size)) eqn:Ho.
    + rewrite (generate_uncached_fallback _ _ _ _ _ _ _ _ Hg Ho).
      destruct (usable_image _ Ho) as (img & -> & Hne). left.
      eexists img, _. split; [reflexivity|]. auto.
    + right. unfold generate_uncached. unfold usable in Hg, Ho. rewrite Hg, Ho.
      eexists. split; [reflexivity|]. auto.
Qed.

(** X12. the returned triple is either [(True, image, None)] or
    [(False, None, message)], whatever the providers return. *)
Theorem generate_image_outcome_shape
    (prompt size image_type : string) (use_cache : bool) (w : world) :
  well_shaped (generate_image b64decode generate_image_gemini generate_image_openai
                 prompt size use_cache image_type w).1.
Proof.
  assert (Hun : forall ck w0,
    well_shaped (generate_uncached b64decode generate_image_gemini generate_image_openai
                   prompt size image_type ck w0).1).
  { intros ck w0.
    destruct (generate_uncached_cases prompt size image_type ck w0)
      as [(img & w' & -> & _)|(msg & -> & _)]; unfold well_shaped; simpl; eauto. }
  unfold generate_image.
  destruct (cache_on use_cache _) as [k|]; [|apply Hun].
  unfold load_image_from_cache. cbn [files log].
  destruct (files w !! (image_type, k)) as [image_bytes|].
  - rewrite nonempty_png. unfold well_shaped. simpl. eauto.
  - cbn [nonempty]. cbn [log IMAGE_CACHE].
    destruct (IMAGE_CACHE w !! k) as [img|]; [|apply Hun].
    unfold well_shaped. simpl. eauto.
Qed.

(** X13. a call reads and writes only the entries of its own key, and with
    [use_cache] off it leaves both tiers as they are. *)
Theorem generate_image_cache_frame
    (prompt size image_type : string) (use_cache : bool) (w : world) :
  let k := get_cache_key prompt size image_type in
  let r := generate_image b64decode generate_image_gemini generate_image_openai
             prompt size use_cache image_type w in
  (use_cache = false -> IMAGE_CACHE r.2 = IMAGE_CACHE w /\ files r.2 = files w) /\
  (forall k', k' <> k -> IMAGE_CACHE r.2 !! k' = IMAGE_CACHE w !! k') /\
  (forall f, f <> (image_type, k) -> files r.2 !! f = files w !! f).
Proof.
  intros k r.
  assert (Hun : forall ck w0,
    IMAGE_CACHE w0 = IMAGE_CACHE w -> files w0 = files w ->
    (ck = None \/ ck = Some k) ->
    let r := generate_uncached b64decode generate_image_gemini generate_image_openai
               prompt size image_type ck w0 in
    (ck = None -> IMAGE_CACHE r.2 = IMAGE_CACHE w /\ files r.2 = files w) /\
    (forall k', k' <> k -> IMAGE_CACHE r.2 !! k' = IMAGE_CACHE w !! k') /\
    (forall f, f <> (image_type, k) -> files r.2 !! f = files w !! f)).
  { intros ck w0 Hm Hf Hck. cbv zeta.
    destruct (generate_uncached_cases prompt size image_type ck w0)
      as [(img & w' & -> & _ & Hm' & Hf')|(msg & _ & Hm' & Hf')].
    - destruct Hck as [->| ->].
      + cbn [cache_result snd]. rewrite Hm', Hf', Hm, Hf. auto.
      + destruct (cache_result_spec b64decode k img image_type w') as (Hcm & Hcf & _).
        cbv zeta in Hcm, Hcf. cbn [snd]. rewrite Hcm, Hcf, Hm', Hf', Hm, Hf.
        split; [discriminate|]. split.
        * intros k' Hk'. apply lookup_insert_ne. congruence.
        * intros f Hne. destruct (b64decode _); [|reflexivity].
          apply lookup_insert_ne. congruence.
    - rewrite Hm', Hf', Hm, Hf. auto. }
  unfold r, generate_image. destruct use_cache.
  - rewrite image_cache_on_key. fold k. unfold load_image_from_cache. cbn [files log].
    split; [discriminate|].
    destruct (files w !! (image_type, k)) as [image_bytes|].
    + rewrite nonempty_png. cbn [snd store_in_memory log IMAGE_CACHE files]. split.
      * intros k' Hk'. apply lookup_insert_ne. congruence.
      * reflexivity.
    + cbn [nonempty]. cbn [log IMAGE_CACHE].
      destruct (IMAGE_CACHE w !! k) as [img|].
      * cbn [snd log IMAGE_CACHE files]. auto.
      * destruct (Hun (Some k) (log (EvMemLookup k) (log (EvFsLoad image_type k) w))
                    eq_refl eq_refl ltac:(auto)) as (_ & H2 & H3).
        split; assumption.
  - cbn [cache_on].
    destruct (Hun None w eq_refl eq_refl ltac:(auto)) as (H1 & H2 & H3).
    split; [intros _; apply H1; reflexivity|]. split; assumption.
Qed.

End AnyProviders.

(** X14. after a call with caching has returned an image, the next call with
    caching for the same prompt, size and type is answered by the cache: no
    provider is called.  It returns the image of the file when there is
    one (its bytes encoded again), else the image held in memory, which is
    the one the first call returned. *)
Theorem generate_image_cache_round_trip
    (b64decode : string -> option string)
    (generate_image_gemini generate_image_openai : string -> string -> outcome)
    (prompt size image_type : string) (w : world) :
  let k := get_cache_key prompt size image_type in
  let r := generate_image b64decode generate_image_gemini generate_image_openai
             prompt size true image_type w in
  success r.1 = true ->
  forall b64decode' generate_image_gemini' generate_image_openai',
    let r' := generate_image b64decode' generate_image_gemini' generate_image_openai'
                prompt size true image_type r.2 in
    match files r.2 !! (image_type, k) with
    | Some image_bytes =>
        r'.1 = Outcome true (Some (PNG_PREFIX ++ Base64.b64encode image_bytes)%string) None /\
        trace r'.2 = trace r.2 ++ [EvFsLoad image_type k; EvMemStore k]
    | None =>
        r'.1 = r.1 /\
        trace r'.2 = trace r.2 ++ [EvFsLoad image_type k; EvMemLookup k]
    end.
Proof.
  intros k r Hs b64decode' gemini' openai' r'.
  destruct (files r.2 !! (image_type, k)) as [image_bytes|] eqn:Hfile.
  - unfold r'. rewrite (generate_image_fs_hit _ _ _ _ _ _ _ _ Hfile). auto.
  - assert (Hmem : exists img, r.1 = Outcome true (Some img) None /\
                               IMAGE_CACHE r.2 !! k = Some img).
    { revert Hs Hfile. unfold r, generate_image. rewrite image_cache_on_key. fold k.
      unfold load_image_from_cache. cbn [files log].
      destruct (files w !! (image_type, k)) as [image_bytes|] eqn:Hf0.
      - rewrite nonempty_png. cbn [snd store_in_memory log files]. congruence.
      - cbn [nonempty]. cbn [log IMAGE_CACHE].
        destruct (IMAGE_CACHE w !! k) as [img|] eqn:Hm0.
        + cbn [fst snd log IMAGE_CACHE]. eauto.
        + destruct (generate_uncached_cases b64decode generate_image_gemini
                      generate_image_openai prompt size image_type (Some k)
                      (log (EvMemLookup k) (log (EvFsLoad image_type k) w)))
            as [(img & w' & -> & _ & Hm' & Hf')|(msg & -> & _)].
          * destruct (cache_result_spec b64decode k img image_type w') as (Hcm & _ & _).
            cbv zeta in Hcm. cbn [fst snd]. rewrite Hcm. intros _ _.
            exists img. split; [reflexivity|]. apply lookup_insert_eq.
          * discriminate. }
    destruct Hmem as (img & Hr & Hm).
    unfold r'. rewrite (generate_image_memory_hit _ _ _ _ _ _ _ _ Hfile Hm).
    rewrite Hr. auto.
Qed.

Lemma generate_image_cache_round_trip_witness :
  let r := generate_image (fun _ => Some "FS"%string)
             (succeeding "data:image/png;base64,RlM=") (failing "unused")
             "a red ship" "1024x1024" true "enemy" no_images in
  let r' := generate_image (fun _ => None) (failing "down") (failing "down")
              "a red ship" "1024x1024" true "enemy" r.2 in
  success r.1 = true /\
  files r.2 !! ("enemy"%string, get_cache_key "a red ship" "1024x1024" "enemy") = Some "FS"%string /\
  r'.1 = Outcome true (Some "data:image/png;base64,RlM="%string) None.
Proof.
  cbv zeta.
  assert (Hs : success (generate_image (fun _ => Some "FS"%string)
             (succeeding "data:image/png;base64,RlM=") (failing "unused")
             "a red ship" "1024x1024" true "enemy" no_images).1 = true)
    by (vm_compute; reflexivity).
  assert (Hf : files (generate_image (fun _ => Some "FS"%string)
             (succeeding "data:image/png;base64,RlM=") (failing "unused")
             "a red ship" "1024x1024" true "enemy" no_images).2
           !! ("enemy"%string, get_cache_key "a red ship" "1024x1024" "enemy") = Some "FS"%string)
    by (vm_compute; reflexivity).
  split; [exact Hs|]. split; [exact Hf|].
  pose proof (generate_image_cache_round_trip (fun _ => Some "FS"%string)
                (succeeding "data:image/png;base64,RlM=") (failing "unused")
                "a red ship" "1024x1024" "enemy" no_images Hs
                (fun _ => None) (failing "down") (failing "down")) as H.
  cbv zeta in H. rewrite Hf in H. destruct H as [H _]. exact H.
Defined.


(** *** Sprites *)



Definition player_prompt (description : string) : string :=
  (description ++ ", side view sprite facing RIGHT, player ship, game asset.
CRITICAL: The ENTIRE background must be SOLID BRIGHT GREEN color (#00FF00 / RGB 0,255,0).
Fill the entire background with pure bright green chroma key color.
The ship should be centered with detailed colors and textures.
Facing RIGHT, no text, no UI, clean cutout style.
Background must be completely filled with bright green (#00FF00) for chroma keying.")%string.

(** The key of the background-removed version of a sprite. *)
Definition nobg_key (full_prompt image_type : string) : string :=
  get_cache_key (full_prompt ++ "|nobg|v6") "1024x1024" image_type.

Section Sprites.

Variable b64decode : string -> option string.
Variable generate_image_gemini : string -> string -> outcome.
Variable generate_image_openai : string -> string -> outcome.
Variable open_rgba : string -> option ImageProcessing.raster.
Variable save_png_b64 : ImageProcessing.raster -> option string.

(** The body the three sprite functions share, after the prompt is built
    (lines 413-433, 457-477 and 501-521); they differ in the prompt and in
    the image type only. *)
Definition generate_sprite (full_prompt image_type : string) (w : world) : outcome * world :=
  let cache_key := nobg_key full_prompt image_type in
  let '(cached_nobg, w) := load_image_from_cache cache_key image_type w in
  if nonempty cached_nobg
  then (Outcome true cached_nobg None, w)
  else
    let '(r, w) := generate_image b64decode generate_image_gemini generate_image_openai
                     full_prompt "1024x1024" true image_type w in
    if success r && nonempty (image r)
    then
      let base64_image :=
        ImageProcessing.remove_solid_background open_rgba save_png_b64 (str_of (image r)) 80 in
      let w := save_image_to_cache b64decode cache_key base64_image image_type w in
      (Outcome (success r) (Some base64_image) (error r), w)
    else (r, w).



Definition generate_player_sprite (description : string) (w : world) : outcome * world :=
  generate_sprite (player_prompt description) "player" w.

End Sprites.

(** [clear_cache] (lines 545-561) *)
Definition clear_cache (clear_filesystem : bool) (w : world) : world :=
  {| IMAGE_CACHE := ∅;
     files := if clear_filesystem then ∅ else files w;
     trace := trace w |}.

Section SpriteFacts.

Variable b64decode : string -> option string.
Variable generate_image_gemini : string -> string -> outcome.
Variable generate_image_openai : string -> string -> outcome.
Variable open_rgba : string -> option ImageProcessing.raster.
Variable save_png_b64 : ImageProcessing.raster -> option string.




End SpriteFacts.





(** X17. [clear_cache()] empties the memory tier only: an image that has a
    file is still served, from the file, and put back in memory; without
    a file the next call goes to the provider even if the image was in
    memory.  [clear_cache(True)] empties both tiers, so that the next
    call always goes to the provider. *)
Theorem clear_cache_then_generate
    (b64decode : string -> option string)
    (generate_image_gemini generate_image_openai : string -> string -> outcome)
    (prompt size image_type : string) (clear_filesystem : bool) (w : world) :
  let k := get_cache_key prompt size image_type in
  let r := generate_image b64decode generate_image_gemini generate_image_openai
             prompt size true image_type (clear_cache clear_filesystem w) in
  (forall image_bytes, clear_filesystem = false ->
     files w !! (image_type, k) = Some image_bytes ->
     r.1 = Outcome true (Some (PNG_PREFIX ++ Base64.b64encode image_bytes)%string) None /\
     IMAGE_CACHE r.2 = {[ k := (PNG_PREFIX ++ Base64.b64encode image_bytes)%string ]} /\
     trace r.2 = trace w ++ [EvFsLoad image_type k; EvMemStore k]) /\
  (clear_filesystem = true \/ files w !! (image_type, k) = None ->
     exists rest,
       trace r.2 = trace w ++ [EvFsLoad image_type k; EvMemLookup k; EvGemini prompt size]
                     ++ rest).
Proof.
  intros k r. split.
  - intros image_bytes -> Hfile. unfold r.
    rewrite (generate_image_fs_hit b64decode generate_image_gemini generate_image_openai
               prompt size image_type (clear_cache false w) image_bytes Hfile).
    cbn [fst snd IMAGE_CACHE trace clear_cache]. fold k.
    split; [reflexivity|]. split; [|reflexivity].
    rewrite insert_empty. reflexivity.
  - intros Hmiss.
    assert (Hfile : files (clear_cache clear_filesystem w) !! (image_type, k) = None).
    { unfold clear_cache. cbn [files].
      destruct clear_filesystem; [apply lookup_empty|].
      destruct Hmiss as [?|?]; [discriminate|assumption]. }
    unfold r.
    rewrite (generate_image_miss b64decode generate_image_gemini generate_image_openai
               prompt size image_type true (clear_cache clear_filesystem w)
               ltac:(intros _; split; [exact Hfile|apply lookup_empty])).
    fold k. unfold generate_uncached, cache_result, save_image_to_cache, store_in_memory, log.
    repeat match goal with
    | |- context [if ?c then _ else _] => destruct c
    | |- context [match b64decode ?x with _ => _ end] => destruct (b64decode x)
    end; cbn [snd trace clear_cache]; rewrite <- ?app_assoc; cbn [app]; eauto.
Qed.


(** *** The two providers *)

(** A Python attribute: missing ([hasattr] is false) or holding a value. *)
Inductive attr (A : Type) :=
| NoAttr
| Attr (a : A).
Arguments NoAttr {A}.
Arguments Attr {A} a.

(** [inline_data.data]: bytes, or anything else, which the f-string of
    line 171 formats to [formatted]. *)
Inductive image_data :=
| Bytes (b : string)
| Formatted (formatted : string).

(** The objects of a Gemini response, as far as [parse_gemini_response]
    looks at them.  An attribute that is there and holds [None] is an
    object without attributes, except for [candidates] and [parts], which
    are iterated: [None] there is [Attr None]. *)
Record InlineData := {
  data : attr image_data;
  mime_type : attr string
}.

Record Part := { inline_data : attr InlineData }.

Record Content := { parts : attr (option (list Part)) }.

Record Candidate := {
  content : attr Content;
  finish_reason : attr string    (* [str(candidate.finish_reason)] *)
}.

Record Response := { candidates : attr (option (list Candidate)) }.

(** The dictionary [parse_gemini_response] returns: [{"image": ...}] or
    [{"error": ...}]. *)
Inductive parsed :=
| ParsedImage (url : string)
| ParsedError (msg : string).

(** Lines 161-171, for an [inline_data] object. *)
Definition image_url_of (d : InlineData) : option string :=
  match data d with
  | Attr image_data =>
      let mime := match mime_type d with Attr m => m | NoAttr => "image/png"%string end in
      let image_b64 := match image_data with
                       | Bytes b => Base64.b64encode b
                       | Formatted s => s
                       end in
      Some ("data:" ++ mime ++ ";base64," ++ image_b64)%string
  | NoAttr => None
  end.

(** The loop over the parts (lines 157-174), left by [break] at the first
    image. *)
Fixpoint scan_parts (ps : list Part) : option string :=
  match ps with
  | [] => None
  | part :: rest =>
      match inline_data part with
      | Attr d =>
          match image_url_of d with
          | Some url => Some url
          | None => scan_parts rest
          end
      | NoAttr => scan_parts rest
      end
  end.

Inductive scan_result :=
| Scanned (output_image_url : option string)  (* the loop ran to its end *)
| Blocked (block_msg : string)                (* [return {"error": block_msg}], line 182 *)
| NotIterable.                                (* [TypeError]: [parts] is [None] *)

Definition is_blocking (finish_reason : string) : bool :=
  Str.containsb "SAFETY" finish_reason || Str.containsb "BLOCKED" finish_reason.

(** The loop over the candidates (lines 155-182). *)
Fixpoint scan_candidates (cs : list Candidate) (output_image_url : option string)
  : scan_result :=
  match cs with
  | [] => Scanned output_image_url
  | candidate :: rest =>
      let after_parts :=
        match content candidate with
        | Attr c =>
            match parts c with
            | Attr (Some ps) =>
                Some (match scan_parts ps with
                      | Some url => Some url
                      | None => output_image_url
                      end)
            | Attr None => None
            | NoAttr => Some output_image_url
            end
        | NoAttr => Some output_image_url
        end in
      match after_parts with
      | None => NotIterable
      | Some output_image_url =>
          match finish_reason candidate with
          | Attr fr =>
              if is_blocking fr
              then Blocked ("Content blocked by safety filters: " ++ fr)%string
              else scan_candidates rest output_image_url
          | NoAttr => scan_candidates rest output_image_url
          end
      end
  end.

(** [parse_gemini_response] (lines 148-191) *)
Definition parse_gemini_response (response : Response) : parsed :=
  let r := match candidates response with
           | Attr (Some (c :: cs)) => scan_candidates (c :: cs) None
           | _ => Scanned None
           end in
  match r with
  | Scanned (Some url) =>
      if nonempty (Some url) then ParsedImage url
      else ParsedError "No image found in response"
  | Scanned None => ParsedError "No image found in response"
  | Blocked block_msg => ParsedError block_msg
  | NotIterable =>
      ParsedError "Failed to parse response: 'NoneType' object is not iterable"
  end.

(** What a call to an external service does: it returns, or it raises an
    exception [e], given by [type(e).__name__] and [str(e)]. *)
Inductive call (A : Type) :=
| Returns (a : A)
| Throws (type_name msg : string).
Arguments Returns {A} a.
Arguments Throws {A} type_name msg.

Section External.

(** [api_key]: [os.getenv('GOOGLE_API_KEY') or os.getenv('GEMINI_API_KEY')].
    [generate_content]: lines 212-227, the client and its call, for a
    prompt.  [image_generation]: lines 266-275, the call through LiteLLM
    and the extraction of the URL, for a prompt and a size; the URL may be
    [None].  [download]: lines 281-285. *)
Variable api_key : option string.
Variable generate_content : string -> call Response.
Variable image_generation : string -> string -> call (option string).
Variable download : string -> call string.

(** [generate_image_gemini] (lines 194-243) *)
Definition generate_image_gemini (prompt size : string) : outcome :=
  if nonempty api_key
  then
    match generate_content prompt with
    | Returns response =>
        match parse_gemini_response response with
        | ParsedImage url =>
            if nonempty (Some url) then Outcome true (Some url) None
            else Outcome false None (Some "Image generation failed"%string)
        | ParsedError msg => Outcome false None (Some msg)
        end
    | Throws type_name msg =>
        Outcome false None (Some ("Gemini error: " ++ type_name ++ ": " ++ msg)%string)
    end
  else Outcome false None (Some "GOOGLE_API_KEY or GEMINI_API_KEY not configured"%string).

(** Lines 261-263. *)
Definition openai_size (size : string) : string :=
  if bool_decide (size ∈ ["1024x1024"; "1792x1024"; "1024x1792"]%string)
  then size else "1024x1024"%string.

(** [generate_image_openai] (lines 246-295) *)
Definition generate_image_openai (prompt size : string) : outcome :=
  match image_generation prompt (openai_size size) with
  | Returns image_url =>
      if negb (nonempty image_url) || String.eqb (str_of image_url) "None"
      then Outcome false None (Some "Model returned None as image URL"%string)
      else
        match download (str_of image_url) with
        | Returns img_bytes =>
            Outcome true (Some (PNG_PREFIX ++ Base64.b64encode img_bytes)%string) None
        | Throws type_name msg =>
            Outcome false None (Some ("OpenAI error: " ++ type_name ++ ": " ++ msg)%string)
        end
  | Throws type_name msg =>
      Outcome false None (Some ("OpenAI error: " ++ type_name ++ ": " ++ msg)%string)
  end.

End External.

(** The image of a candidate: the first image among its parts. *)
Definition candidate_image (c : Candidate) : option string :=
  match content c with
  | Attr ct => match parts ct with
               | Attr (Some ps) => scan_parts ps
               | _ => None
               end
  | NoAttr => None
  end.

Definition blocked (c : Candidate) : bool :=
  match finish_reason c with
  | Attr fr => is_blocking fr
  | NoAttr => false
  end.

(** [parts], when there, can be iterated. *)
Definition iterable (c : Candidate) : bool :=
  match content c with
  | Attr ct => match parts ct with
               | Attr None => false
               | _ => true
               end
  | NoAttr => true
  end.

Lemma image_url_nonempty (d : InlineData) (url : string) :
  image_url_of d = Some url -> nonempty (Some url) = true.
Proof.
  unfold image_url_of. destruct (data d); [discriminate|].
  intros H. injection H as <-. reflexivity.
Qed.

Lemma scan_parts_nonempty (ps : list Part) (url : string) :
  scan_parts ps = Some url -> nonempty (Some url) = true.
Proof.
  induction ps as [|p ps IH]; [discriminate|]. cbn [scan_parts].
  destruct (inline_data p) as [|d]; [exact IH|].
  destruct (image_url_of d) as [u|] eqn:E; [|exact IH].
  intros H. injection H as <-. eapply image_url_nonempty. exact E.
Qed.

Lemma scan_candidates_quiet (cs : list Candidate) : forall acc,
  Forall (fun c => iterable c = true /\ blocked c = false) cs ->
  scan_candidates cs acc
  = Scanned (match last (omap candidate_image cs) with
             | Some url => Some url
             | None => acc
             end).
Proof.
  induction cs as [|c cs IH]; intros acc Hq; [reflexivity|].
  apply Forall_cons in Hq as [[Hit Hbl] Hq].
  cbn [scan_candidates].
  assert (Ho : omap candidate_image (c :: cs)
               = match candidate_image c with
                 | Some u => u :: omap candidate_image cs
                 | None => omap candidate_image cs
                 end) by reflexivity.
  rewrite Ho. clear Ho.
  unfold iterable in Hit. unfold blocked in Hbl.
  assert (Hnext : forall acc',
    match finish_reason c with
    | Attr fr =>
        if is_blocking fr
        then Blocked ("Content blocked by safety filters: " ++ fr)%string
        else scan_candidates cs acc'
    | NoAttr => scan_candidates cs acc'
    end = scan_candidates cs acc').
  { intros acc'. destruct (finish_reason c) as [|fr]; [reflexivity|].
    rewrite Hbl. reflexivity. }
  unfold candidate_image at 1.
  destruct (content c) as [|ct].
  - rewrite Hnext. apply IH. exact Hq.
  - destruct (parts ct) as [|[ps|]]; [| |discriminate].
    + rewrite Hnext. apply IH. exact Hq.
    + rewrite Hnext, (IH _ Hq).
      destruct (scan_parts ps) as [url|]; [|reflexivity].
      rewrite last_cons. destruct (last (omap candidate_image cs)); reflexivity.
Qed.

Lemma last_omap_nonempty (cs : list Candidate) (url : string) :
  last (omap candidate_image cs) = Some url -> nonempty (Some url) = true.
Proof.
  intros H. apply last_Some_elem_of in H.
  apply list_elem_of_omap in H as (c & _ & Hc).
  unfold candidate_image in Hc.
  destruct (content c) as [|ct]; [discriminate|].
  destruct (parts ct) as [|[ps|]]; try discriminate.
  eapply scan_parts_nonempty. exact Hc.
Qed.

Lemma scan_candidates_blocked (cs : list Candidate) : forall acc,
  Exists (fun c => blocked c = true) cs ->
  match scan_candidates cs acc with
  | Scanned _ => False
  | _ => True
  end.
Proof.
  induction cs as [|c cs IH]; intros acc Hex; [inversion Hex|].
  cbn [scan_candidates].
  destruct (match content c with
            | Attr c0 => _
            | NoAttr => Some acc
            end) as [acc'|]; [|exact I].
  apply Exists_cons in Hex as [Hb|Hex].
  - unfold blocked in Hb. destruct (finish_reason c) as [|fr]; [discriminate|].
    rewrite Hb. exact I.
  - destruct (finish_reason c) as [|fr]; [apply IH; exact Hex|].
    destruct (is_blocking fr); [exact I|apply IH; exact Hex].
Qed.

(** X18. a candidate whose finish reason mentions SAFETY or BLOCKED makes
    the whole response an error, also when it, or another candidate,
    carries an image. *)
Theorem parse_gemini_response_blocked (response : Response) (cs : list Candidate) :
  candidates response = Attr (Some cs) ->
  Exists (fun c => blocked c = true) cs ->
  exists msg, parse_gemini_response response = ParsedError msg.
Proof.
  intros Hc Hex. unfold parse_gemini_response. rewrite Hc.
  destruct cs as [|c cs]; [inversion Hex|].
  pose proof (scan_candidates_blocked (c :: cs) None Hex) as H.
  destruct (scan_candidates (c :: cs) None); [contradiction|eauto|eauto].
Qed.

Definition png_part (b : string) : Part :=
  {| inline_data := Attr {| data := Attr (Bytes b); mime_type := Attr "image/png"%string |} |}.

Definition text_part : Part := {| inline_data := NoAttr |}.

(** A response with an image whose candidate was stopped for safety. *)
Definition blocked_response : Response :=
  {| candidates := Attr (Some
       [ {| content := Attr {| parts := Attr (Some [text_part; png_part "Man"]) |};
            finish_reason := Attr "FinishReason.SAFETY"%string |} ]) |}.

Lemma parse_gemini_response_blocked_witness :
  parse_gemini_response blocked_response
  = ParsedError "Content blocked by safety filters: FinishReason.SAFETY".
Proof.
  destruct (parse_gemini_response_blocked blocked_response _ eq_refl) as [msg Hmsg].
  - apply Exists_cons_hd. reflexivity.
  - reflexivity.
Defined.

(** X19. when no candidate is blocked (and every [parts] can be iterated),
    the result is the image of the last candidate that has one, which is
    the first image among that candidate's parts; without any image it is
    the error [No image found in response]. *)
Theorem parse_gemini_response_last_image (response : Response) (cs : list Candidate) :
  candidates response = Attr (Some cs) ->
  Forall (fun c => iterable c = true /\ blocked c = false) cs ->
  parse_gemini_response response
  = match last (omap candidate_image cs) with
    | Some url => ParsedImage url
    | None => ParsedError "No image found in response"
    end.
Proof.
  intros Hc Hq. unfold parse_gemini_response. rewrite Hc.
  destruct cs as [|c cs]; [reflexivity|].
  rewrite (scan_candidates_quiet _ None Hq).
  destruct (last (omap candidate_image (c :: cs))) as [url|] eqn:E; [|reflexivity].
  rewrite (last_omap_nonempty _ _ E). reflexivity.
Qed.

Definition two_candidates : Response :=
  {| candidates := Attr (Some
       [ {| content := Attr {| parts := Attr (Some [png_part "Man"]) |};
            finish_reason := Attr "FinishReason.STOP"%string |};
         {| content := Attr {| parts := Attr (Some [text_part; png_part "Ma"; png_part "M"]) |};
            finish_reason := NoAttr |} ]) |}.

Lemma parse_gemini_response_last_image_witness :
  parse_gemini_response two_candidates = ParsedImage "data:image/png;base64,TWE=".
Proof.
  rewrite (parse_gemini_response_last_image two_candidates _ eq_refl).
  - reflexivity.
  - repeat constructor.
Defined.

Section ExternalFacts.

Variable api_key : option string.
Variable generate_content : string -> call Response.
Variable image_generation : string -> string -> call (option string).
Variable download : string -> call string.



End ExternalFacts.

End ImageService.

(** ** models/game_data.py *)

Module GameData.

(** *** The validated models *)

Record Palette := { ansi_fg : string; ansi_bg : string; accent : string }.

Record Story := { os_name : string; tagline : string; palette : Palette }.

Record ParallaxLayer := { layer_id : string; layer_prompt : string; depth : Q }.

Record Wave := {
  time : Z; formation : string; enemy_type : string; count : Z; path : string
}.

Record BossPhase := { phase_hp : Z; patterns : list string }.

Record Boss := {
  boss_id : string; boss_title : string;
  boss_sprite_prompt : option string; phases : list BossPhase
}.

Record Stage := {
  stage_id : string; stage_title : string; scroll_speed : Q; length_sec : Z;
  parallax : list ParallaxLayer; waves : list Wave; boss : Boss
}.

Record Enemy := {
  enemy_id : string; enemy_name : string; hp : Z; speed : Q; radius : Z;
  sprite_prompt : string; score : option Z
}.

Record BulletPattern := {
  pattern_id : string; pattern_type : string; bullets : option Z;
  spread_deg : option Q; arc_deg : option Q; cooldown_ms : Z;
  pattern_speed : option Q; rate : option Q; dual : option bool
}.

Record Weapon := {
  weapon_id : string; weapon_name : option string; dps : Q;
  projectile_speed : Q; spread : Q; fire_rate : Q
}.

Record Pickup := {
  pickup_id : string; pickup_name : option string; effect : string;
  pickup_sprite_prompt : option string
}.

Record CRTEffects := { scanlines : bool; glow : Q; vignette : Q; flicker : option Q }.

Record Player := { player_sprite_prompt : string }.

Record TUISkin := {
  frame_prompt : string; glyph_bullets : bool; glyph_set : list string;
  crt_effects : CRTEffects; boot_sequence : option (list string)
}.

Record GameData := {
  game_id : string;
  story : Story;
  player : Player;
  stages : list Stage;
  enemies : list Enemy;
  bullet_patterns : option (list BulletPattern);
  weapons : list Weapon;
  pickups : list Pickup;
  tui_skin : option TUISkin;
  metadata : option (list (string * pyval))
}.

(** *** Validation errors *)

Inductive loc_item :=
| LKey (name : string)
| LIdx (index : nat).

(** One entry of [ValidationError.errors()]: its ['loc'] and its ['msg']. *)
Record line_error := LineError { err_loc : list loc_item; err_msg : string }.

Inductive validated (A : Type) :=
| Valid (a : A)
| Invalid (errors : list line_error).
Arguments Valid {A} a.
Arguments Invalid {A} errors.

Definition vmap {A B} (f : A -> B) (r : validated A) : validated B :=
  match r with
  | Valid a => Valid (f a)
  | Invalid e => Invalid e
  end.

(** Fields are validated one after the other and all their errors are
    reported. *)
Definition vap {A B} (rf : validated (A -> B)) (ra : validated A) : validated B :=
  match rf, ra with
  | Valid f, Valid a => Valid (f a)
  | Valid _, Invalid e => Invalid e
  | Invalid e, Valid _ => Invalid e
  | Invalid e1, Invalid e2 => Invalid (e1 ++ e2)
  end.

Notation "rf <*> ra" := (vap rf ra) (at level 51, left associativity).

Definition errors_of {A} (r : validated A) : list line_error :=
  match r with
  | Valid _ => []
  | Invalid e => e
  end.

Definition at_loc {A} (item : loc_item) (r : validated A) : validated A :=
  match r with
  | Valid a => Valid a
  | Invalid errors =>
      Invalid ((fun e => LineError (item :: err_loc e) (err_msg e)) <$> errors)
  end.

Definition fail {A} (msg : string) : validated A := Invalid [LineError [] msg].

(** An after-validator: runs on the validated value only. *)
Definition and_then {A B} (r : validated A) (k : A -> validated B) : validated B :=
  match r with
  | Valid a => k a
  | Invalid e => Invalid e
  end.

(** [d.get(name)] on the items of a dict. *)
Fixpoint lookup_key (name : string) (items : list (string * pyval)) : option pyval :=
  match items with
  | [] => None
  | (k, v) :: rest => if String.eqb k name then Some v else lookup_key name rest
  end.

Definition str_of_nat (n : nat) : string := NilZero.string_of_uint (Nat.to_uint n).

Definition plural (n : nat) : string := if Nat.eqb n 1 then "" else "s".

(** The number of characters of a UTF-8 encoded string: the bytes that are
    not continuation bytes. *)
Definition py_len (s : string) : nat :=
  length (filter (fun c => Z.land (Z.of_N (N_of_ascii c)) 192 <> 128)
                 (list_ascii_of_string s)).

(** A required field, an optional field with a default (the default is
    not validated), and [Optional[T]]. *)
Definition required {A} (items : list (string * pyval)) (name : string)
    (v : pyval -> validated A) : validated A :=
  match lookup_key name items with
  | Some raw => at_loc (LKey name) (v raw)
  | None => Invalid [LineError [LKey name] "Field required"]
  end.

Definition with_default {A} (items : list (string * pyval)) (name : string)
    (default : A) (v : pyval -> validated A) : validated A :=
  match lookup_key name items with
  | Some raw => at_loc (LKey name) (v raw)
  | None => Valid default
  end.

Definition nullable {A} (v : pyval -> validated A) (raw : pyval) : validated (option A) :=
  match raw with
  | PNone => Valid None
  | _ => vmap Some (v raw)
  end.

(** [str]: no conversion from other JSON types. *)
Definition v_str (raw : pyval) : validated string :=
  match raw with
  | PStr s => Valid s
  | _ => fail "Input should be a valid string"
  end.

Definition min_length (n : nat) (s : string) : validated string :=
  if (py_len s <? n)%nat
  then fail ("String should have at least " ++ str_of_nat n ++ " character" ++ plural n)
  else Valid s.

Definition max_length (n : nat) (s : string) : validated string :=
  if (n <? py_len s)%nat
  then fail ("String should have at most " ++ str_of_nat n ++ " character" ++ plural n)
  else Valid s.

Definition is_hex_digit (c : ascii) : bool :=
  let n := N_of_ascii c in
  ((48 <=? n) && (n <=? 57) || (65 <=? n) && (n <=? 70) || (97 <=? n) && (n <=? 102))%N.

(** [pattern=r"^#[0-9A-Fa-f]{6}$"] *)
Definition hex_color (s : string) : validated string :=
  match list_ascii_of_string s with
  | "#"%char :: digits =>
      if Nat.eqb (length digits) 6 && forallb is_hex_digit digits
      then Valid s
      else fail "String should match pattern '^#[0-9A-Fa-f]{6}$'"
  | _ => fail "String should match pattern '^#[0-9A-Fa-f]{6}$'"
  end.

Definition str_between (lo hi : nat) (raw : pyval) : validated string :=
  and_then (and_then (v_str raw) (min_length lo)) (max_length hi).

Definition str_min (lo : nat) (raw : pyval) : validated string :=
  and_then (v_str raw) (min_length lo).

Definition str_max (hi : nat) (raw : pyval) : validated string :=
  and_then (v_str raw) (max_length hi).

Definition in_range_Z (lo : option Z) (hi : option Z) (z : Z) : validated Z :=
  match hi with
  | Some h =>
      if h <? z
      then fail ("Input should be less than or equal to "
                 ++ NilZero.string_of_int (Z.to_int h))
      else match lo with
           | Some l =>
               if z <? l
               then fail ("Input should be greater than or equal to "
                          ++ NilZero.string_of_int (Z.to_int l))
               else Valid z
           | None => Valid z
           end
  | None =>
      match lo with
      | Some l =>
          if z <? l
          then fail ("Input should be greater than or equal to "
                     ++ NilZero.string_of_int (Z.to_int l))
          else Valid z
      | None => Valid z
      end
  end.

(** A float bound with the text pydantic prints for it. *)
Definition bound (q : Q) (text : string) : Q * string := (q, text).

Definition in_range_Q (lo hi : Q * string) (q : Q) : validated Q :=
  if Qle_bool q hi.1
  then if Qle_bool lo.1 q
       then Valid q
       else fail ("Input should be greater than or equal to " ++ lo.2)
  else fail ("Input should be less than or equal to " ++ hi.2).

(** [List[T]] with [min_length] / [max_length]: the items are validated in
    order, each error located by its index; one item too many ends the
    validation with that error alone; the lower bound is checked on the
    validated list. *)
Fixpoint v_items {A} (v : pyval -> validated A) (i : nat) (items : list pyval)
  : validated (list A) :=
  match items with
  | [] => Valid []
  | raw :: rest => Valid cons <*> at_loc (LIdx i) (v raw) <*> v_items v (S i) rest
  end.

Definition v_list {A} (name : string) (lo : nat) (hi : option nat)
    (v : pyval -> validated A) (raw : pyval) : validated (list A) :=
  match raw with
  | PList items =>
      let n := length items in
      if match hi with Some h => (h <? n)%nat | None => false end
      then fail (name ++ " should have at most " ++ str_of_nat (default 0%nat hi)
                 ++ " item" ++ plural (default 0%nat hi)
                 ++ " after validation, not " ++ str_of_nat n)
      else
        and_then (v_items v 0 items) (fun l =>
          if (n <? lo)%nat
          then fail (name ++ " should have at least " ++ str_of_nat lo ++ " item"
                     ++ plural lo ++ " after validation, not " ++ str_of_nat n)
          else Valid l)
  | _ => fail "Input should be a valid list"
  end.

(** A nested model: its fields are read from a dict. *)
Definition v_model {A} (class_name : string)
    (fields : list (string * pyval) -> validated A) (raw : pyval) : validated A :=
  match raw with
  | PDict items => fields items
  | _ => fail ("Input should be a valid dictionary or instance of " ++ class_name)
  end.

(** [Dict[str, Any]] *)
Definition v_dict (raw : pyval) : validated (list (string * pyval)) :=
  match raw with
  | PDict items => Valid items
  | _ => fail "Input should be a valid dictionary"
  end.

(** A [field_validator] raising [ValueError(msg)]. *)
Definition value_error {A} (msg : string) : validated A :=
  fail ("Value error, " ++ msg).

(** [str(uuid.uuid4())] from the 128 random bits [r]: version and variant
    bits are set, and the number is printed as 32 hex digits in groups of
    8-4-4-4-12. *)
Definition uuid4_int (r : Z) : Z :=
  let r := Z.ldiff r (Z.shiftl 49152 48) in      (* int &= ~(0xc000 << 48) *)
  let r := Z.lor r (Z.shiftl 32768 48) in        (* int |= 0x8000 << 48 *)
  let r := Z.ldiff r (Z.shiftl 61440 64) in      (* int &= ~(0xf000 << 64) *)
  Z.lor r (Z.shiftl 4 76).                       (* int |= version << 76 *)

Definition uuid4_str (r : Z) : string :=
  let n := uuid4_int r in
  (Hashlib.hex_be 8 (Z.shiftr n 96) ++ "-" ++
   Hashlib.hex_be 4 (Z.shiftr n 80) ++ "-" ++
   Hashlib.hex_be 4 (Z.shiftr n 64) ++ "-" ++
   Hashlib.hex_be 4 (Z.shiftr n 48) ++ "-" ++
   Hashlib.hex_be 12 n)%string.

Example uuid4_str_zero : uuid4_str 0 = "00000000-0000-4000-8000-000000000000"%string.
Proof. reflexivity. Qed.

Example uuid4_str_ones :
  uuid4_str (2 ^ 128 - 1) = "ffffffff-ffff-4fff-bfff-ffffffffffff"%string.
Proof. vm_compute. reflexivity. Qed.

(** *** The [field_validator]s *)

(** [v not in allowed] *)
Definition one_of (what : string) (allowed : list string) (repr : string) (v : string)
  : validated string :=
  if existsb (String.eqb v) allowed
  then Valid v
  else value_error (what ++ " must be one of " ++ repr).

(** [Wave.validate_formation] *)
Definition validate_formation : string -> validated string :=
  one_of "Formation" ["v_wave"; "column"; "line"; "arc"; "circle"; "random"]%string
         "['v_wave', 'column', 'line', 'arc', 'circle', 'random']".

(** [Wave.validate_path] *)
Definition validate_path : string -> validated string :=
  one_of "Path" ["straight"; "sine"; "seek"; "arc"; "spiral"]%string
         "['straight', 'sine', 'seek', 'arc', 'spiral']".

(** [BulletPattern.validate_type] *)
Definition validate_type : string -> validated string :=
  one_of "Pattern type" ["fan"; "burst"; "spiral"; "laser"; "aimed"; "stream"; "ring"]%string
         "['fan', 'burst', 'spiral', 'laser', 'aimed', 'stream', 'ring']".

(** [len(ids) != len(set(ids))] *)
Definition has_duplicates (ids : list string) : bool :=
  negb (Nat.eqb (length ids) (size (list_to_set (C := gset string) ids))).

(** [GameData.validate_stages] (lines 170-177) *)
Definition validate_stages (v : list Stage) : validated (list Stage) :=
  let ids := stage_id <$> v in
  if has_duplicates ids then value_error "Stage IDs must be unique" else Valid v.

(** [GameData.validate_enemies] (lines 179-186) *)
Definition validate_enemies (v : list Enemy) : validated (list Enemy) :=
  let ids := enemy_id <$> v in
  if has_duplicates ids then value_error "Enemy IDs must be unique" else Valid v.

(** What running a validator function gives: a result, or an exception
    that is neither [ValueError] nor [AssertionError] and so leaves the
    validation. *)
Inductive run (A : Type) :=
| Done (r : validated A)
| Raises (exn : string).
Arguments Done {A} r.
Arguments Raises {A} exn.

(** [GameData.validate_patterns] (lines 188-195).  The field is
    [Optional]: for an explicit [None] the comprehension iterates over
    [None]. *)
Definition validate_patterns (v : option (list BulletPattern))
  : run (option (list BulletPattern)) :=
  match v with
  | None => Raises "TypeError: 'NoneType' object is not iterable"
  | Some l =>
      let ids := pattern_id <$> l in
      if has_duplicates ids
      then Done (value_error "Bullet pattern IDs must be unique")
      else Done (Valid v)
  end.

(** *** The models' fields *)

Section Schema.

(** pydantic's conversion of a raw value to [int], [float] and [bool]
    (which also accepts some values of other types, such as numeric
    strings) is taken as given; [None] is a type error. *)
Variable as_int : pyval -> option Z.
Variable as_float : pyval -> option Q.
Variable as_bool : pyval -> option bool.

Definition v_int (lo hi : option Z) (raw : pyval) : validated Z :=
  match as_int raw with
  | Some z => in_range_Z lo hi z
  | None => fail "Input should be a valid integer"
  end.

Definition v_float (lo hi : Q * string) (raw : pyval) : validated Q :=
  match as_float raw with
  | Some q => in_range_Q lo hi q
  | None => fail "Input should be a valid number"
  end.

Definition v_bool (raw : pyval) : validated bool :=
  match as_bool raw with
  | Some b => Valid b
  | None => fail "Input should be a valid boolean"
  end.

Definition color (raw : pyval) : validated string := and_then (v_str raw) hex_color.

Definition v_Palette : pyval -> validated Palette :=
  v_model "Palette" (fun d =>
    Valid Build_Palette
    <*> required d "ansi_fg" color
    <*> required d "ansi_bg" color
    <*> required d "accent" color).

Definition v_Story : pyval -> validated Story :=
  v_model "Story" (fun d =>
    Valid Build_Story
    <*> required d "os_name" (str_between 1 100)
    <*> required d "tagline" (str_between 1 200)
    <*> required d "palette" v_Palette).

Definition v_ParallaxLayer : pyval -> validated ParallaxLayer :=
  v_model "ParallaxLayer" (fun d =>
    Valid Build_ParallaxLayer
    <*> required d "id" (str_min 1)
    <*> required d "prompt" (str_between 10 500)
    <*> required d "depth" (v_float (bound (0) "0") (bound (1) "1"))).

Definition v_Wave : pyval -> validated Wave :=
  v_model "Wave" (fun d =>
    Valid Build_Wave
    <*> required d "time" (v_int (Some 0) None)
    <*> required d "formation" (fun raw => and_then (v_str raw) validate_formation)
    <*> required d "enemy_type" v_str
    <*> required d "count" (v_int (Some 1) (Some 50))
    <*> required d "path" (fun raw => and_then (v_str raw) validate_path)).

Definition v_BossPhase : pyval -> validated BossPhase :=
  v_model "BossPhase" (fun d =>
    Valid Build_BossPhase
    <*> required d "hp" (v_int (Some 100) (Some 10000))
    <*> required d "patterns" (v_list "List" 1 (Some 10%nat) v_str)).

Definition v_Boss : pyval -> validated Boss :=
  v_model "Boss" (fun d =>
    Valid Build_Boss
    <*> required d "id" (str_min 1)
    <*> required d "title" (str_between 1 100)
    <*> with_default d "sprite_prompt" None (nullable (str_max 500))
    <*> required d "phases" (v_list "List" 1 (Some 5%nat) v_BossPhase)).

Definition v_Stage : pyval -> validated Stage :=
  v_model "Stage" (fun d =>
    Valid Build_Stage
    <*> required d "id" (str_min 1)
    <*> required d "title" (str_between 1 100)
    <*> required d "scroll_speed" (v_float (bound (1 # 10) "0.1") (bound (5) "5"))
    <*> required d "length_sec" (v_int (Some 60) (Some 600))
    <*> required d "parallax" (v_list "List" 1 (Some 5%nat) v_ParallaxLayer)
    <*> required d "waves" (v_list "List" 1 (Some 50%nat) v_Wave)
    <*> required d "boss" v_Boss).

Definition v_Enemy : pyval -> validated Enemy :=
  v_model "Enemy" (fun d =>
    Valid Build_Enemy
    <*> required d "id" (str_min 1)
    <*> required d "name" (str_between 1 100)
    <*> required d "hp" (v_int (Some 1) (Some 1000))
    <*> required d "speed" (v_float (bound (1 # 10) "0.1") (bound (10) "10"))
    <*> required d "radius" (v_int (Some 4) (Some 64))
    <*> required d "sprite_prompt" (str_between 10 500)
    <*> with_default d "score" (Some 100) (nullable (v_int (Some 0) None))).

Definition v_BulletPattern : pyval -> validated BulletPattern :=
  v_model "BulletPattern" (fun d =>
    Valid Build_BulletPattern
    <*> required d "id" (str_min 1)
    <*> required d "type" (fun raw => and_then (v_str raw) validate_type)
    <*> with_default d "bullets" None (nullable (v_int (Some 1) (Some 100)))
    <*> with_default d "spread_deg" None (nullable (v_float (bound (0) "0") (bound (360) "360")))
    <*> with_default d "arc_deg" None (nullable (v_float (bound (0) "0") (bound (360) "360")))
    <*> required d "cooldown_ms" (v_int (Some 100) (Some 10000))
    <*> with_default d "speed" (Some 300%Q) (nullable (v_float (bound (50) "50") (bound (1000) "1000")))
    <*> with_default d "rate" None (nullable (v_float (bound (1 # 100) "0.01") (bound (1) "1")))
    <*> with_default d "dual" (Some false) (nullable v_bool)).

Definition v_Weapon : pyval -> validated Weapon :=
  v_model "Weapon" (fun d =>
    Valid Build_Weapon
    <*> required d "id" (str_min 1)
    <*> with_default d "name" None (nullable (str_max 100))
    <*> required d "dps" (v_float (bound (10) "10") (bound (1000) "1000"))
    <*> required d "projectile_speed" (v_float (bound (100) "100") (bound (2000) "2000"))
    <*> with_default d "spread" 0%Q (v_float (bound (0) "0") (bound (90) "90"))
    <*> required d "fire_rate" (v_float (bound (1) "1") (bound (60) "60"))).

Definition v_Pickup : pyval -> validated Pickup :=
  v_model "Pickup" (fun d =>
    Valid Build_Pickup
    <*> required d "id" (str_min 1)
    <*> with_default d "name" None (nullable (str_max 100))
    <*> required d "effect" v_str
    <*> with_default d "sprite_prompt" None (nullable (str_max 500))).

Definition v_CRTEffects : pyval -> validated CRTEffects :=
  v_model "CRTEffects" (fun d =>
    Valid Build_CRTEffects
    <*> with_default d "scanlines" true v_bool
    <*> with_default d "glow" (3 # 10)%Q (v_float (bound (0) "0") (bound (1) "1"))
    <*> with_default d "vignette" (2 # 10)%Q (v_float (bound (0) "0") (bound (1) "1"))
    <*> with_default d "flicker" (Some 0%Q) (nullable (v_float (bound (0) "0") (bound (1) "1")))).

Definition v_Player : pyval -> validated Player :=
  v_model "Player" (fun d =>
    Valid Build_Player
    <*> required d "sprite_prompt" (str_between 10 500)).

Definition v_TUISkin : pyval -> validated TUISkin :=
  v_model "TUISkin" (fun d =>
    Valid Build_TUISkin
    <*> required d "frame_prompt" (str_between 10 500)
    <*> with_default d "glyph_bullets" true v_bool
    <*> required d "glyph_set" (v_list "List" 3 (Some 20%nat) v_str)
    <*> required d "crt_effects" v_CRTEffects
    <*> with_default d "boot_sequence" None (nullable (v_list "List" 0 (Some 10%nat) v_str))).

(** The fields [stages], [enemies] and [bullet_patterns] of [GameData]:
    the declared type first, then the [field_validator] on its result. *)
Definition stages_field (data : list (string * pyval)) : validated (list Stage) :=
  required data "stages" (fun raw =>
    and_then (v_list "List" 1 (Some 10%nat) v_Stage raw) validate_stages).

Definition enemies_field (data : list (string * pyval)) : validated (list Enemy) :=
  required data "enemies" (fun raw =>
    and_then (v_list "List" 1 (Some 50%nat) v_Enemy raw) validate_enemies).

Definition bullet_patterns_field (data : list (string * pyval))
  : run (option (list BulletPattern)) :=
  match lookup_key "bullet_patterns" data with
  | None => Done (Valid None)
  | Some raw =>
      match nullable (v_list "List" 0 None v_BulletPattern) raw with
      | Valid v =>
          match validate_patterns v with
          | Done r => Done (at_loc (LKey "bullet_patterns") r)
          | Raises exn => Raises exn
          end
      | Invalid e => Done (at_loc (LKey "bullet_patterns") (Invalid e))
      end
  end.

(** [game_id: str = Field(default_factory=lambda: str(uuid.uuid4()))] *)
Definition game_id_field (fresh : Z) (data : list (string * pyval)) : validated string :=
  with_default data "game_id" (uuid4_str fresh) v_str.

(** The [GameData] constructor on the items of [data]: every field in the
    order of declaration.
    [fresh] is the random number [uuid.uuid4()] would draw. *)
Definition new_GameData (fresh : Z) (data : list (string * pyval)) : run GameData :=
  match bullet_patterns_field data with
  | Raises exn => Raises exn
  | Done r_bullet_patterns =>
      Done (Valid Build_GameData
            <*> game_id_field fresh data
            <*> required data "story" v_Story
            <*> required data "player" v_Player
            <*> stages_field data
            <*> enemies_field data
            <*> r_bullet_patterns
            <*> required data "weapons" (v_list "List" 1 (Some 10%nat) v_Weapon)
            <*> required data "pickups" (v_list "List" 1 (Some 20%nat) v_Pickup)
            <*> with_default data "tui_skin" None (nullable v_TUISkin)
            <*> with_default data "metadata" None (nullable v_dict))
  end.

End Schema.

End GameData.

(** ** utils/validation.py *)

Module Validation.

Import GameData.

Definition newline : string := String (ascii_of_nat 10) EmptyString.

(** [sep.join(parts)] *)
Fixpoint join (sep : string) (parts : list string) : string :=
  match parts with
  | [] => EmptyString
  | [x] => x
  | x :: rest => (x ++ sep ++ join sep rest)%string
  end.

(** [str(x)] for an element of ['loc'] *)
Definition loc_str (item : loc_item) : string :=
  match item with
  | LKey name => name
  | LIdx i => str_of_nat i
  end.

(** One line of the message; the bullet is the byte sequence of the source
    file. *)
Definition error_line (e : line_error) : string :=
  let loc := join " -> " (loc_str <$> err_loc e) in
  ("  â€¢ " ++ loc ++ ": " ++ err_msg e)%string.

(** [format_validation_error] (lines 30-46) *)
Definition format_validation_error (errors : list line_error) : string :=
  ("Validation failed:" ++ newline ++ join newline (error_line <$> errors))%string.

(** What a call of [validate_game_data] does: it returns its triple, or
    an exception other than [ValidationError] passes through it. *)
Inductive call :=
| Returned (is_valid : bool) (game_data : option GameData) (error_msg : option string)
| Propagated (exn : string).

Section Schema.

Variable as_int : pyval -> option Z.
Variable as_float : pyval -> option Q.
Variable as_bool : pyval -> option bool.

(** [validate_game_data] (lines 9-27) *)
Definition validate_game_data (fresh : Z) (data : list (string * pyval)) : call :=
  match new_GameData as_int as_float as_bool fresh data with
  | Done (Valid game_data) => Returned true (Some game_data) None
  | Done (Invalid e) =>
      let error_msg := format_validation_error e in
      Returned false None (Some error_msg)
  | Raises exn => Propagated exn
  end.

End Schema.

Record summary := {
  s_game_id : string;
  s_os_name : string;
  stage_count : Z;
  enemy_count : Z;
  pattern_count : Z;
  weapon_count : Z;
  pickup_count : Z;
  total_waves : Z;
  total_boss_phases : Z;
  s_glyph_bullets : bool
}.

(** [len(xs)] *)
Definition len {A} (xs : list A) : Z := Z.of_nat (length xs).

(** [sum(f(x) for x in xs)] *)
Definition py_sum {A} (f : A -> Z) (xs : list A) : Z :=
  foldl (fun acc x => acc + f x) 0 xs.

(** [get_validation_summary] (lines 82-103) *)
Definition get_validation_summary (game_data : GameData) : summary :=
  {| s_game_id := game_id game_data;
     s_os_name := os_name (story game_data);
     stage_count := len (stages game_data);
     enemy_count := len (enemies game_data);
     pattern_count :=
       match bullet_patterns game_data with
       | Some l => if Nat.eqb (length l) 0 then 0 else len l
       | None => 0
       end;
     weapon_count := len (weapons game_data);
     pickup_count := len (pickups game_data);
     total_waves := py_sum (fun stage => len (waves stage)) (stages game_data);
     total_boss_phases := py_sum (fun stage => len (phases (boss stage))) (stages game_data);
     s_glyph_bullets :=
       match tui_skin game_data with
       | Some skin => glyph_bullets skin
       | None => false
       end |}.

(** *** The summary *)

Lemma py_sum_acc {A} (f : A -> Z) (xs : list A) (acc : Z) :
  foldl (fun acc x => acc + f x) acc xs = acc + py_sum f xs.
Proof.
  unfold py_sum. revert acc. induction xs as [|x xs IH]; intros acc; simpl; [lia|].
  rewrite IH, (IH (0 + f x)). lia.
Qed.

Lemma py_sum_cons {A} (f : A -> Z) (x : A) (xs : list A) :
  py_sum f (x :: xs) = f x + py_sum f xs.
Proof. unfold py_sum at 1. simpl. rewrite py_sum_acc. lia. Qed.

(** The sum of the lengths is the length of the concatenation. *)
Lemma py_sum_len {A B} (f : A -> list B) (xs : list A) :
  py_sum (fun x => len (f x)) xs = len (xs ≫= f).
Proof.
  induction xs as [|x xs IH]; [reflexivity|].
  rewrite py_sum_cons, IH. unfold len. rewrite bind_cons, length_app. lia.
Qed.

Lemma py_sum_sum_list {A B} (f : A -> list B) (xs : list A) :
  py_sum (fun x => len (f x)) xs = Z.of_nat (sum_list ((fun x => length (f x)) <$> xs)).
Proof.
  induction xs as [|x xs IH]; [reflexivity|].
  rewrite py_sum_cons, IH. unfold len. rewrite fmap_cons.
  change (sum_list (?a :: ?l)) with (a + sum_list l)%nat.
  rewrite Nat2Z.inj_add. reflexivity.
Qed.

(** C8. For every [GameData] value the summary has: [total_waves] the sum
    over the stages of their numbers of waves, [total_boss_phases] the sum
    over the stages of the numbers of phases of their bosses, the four
    counts the lengths of [stages], [enemies], [weapons] and [pickups],
    and [pattern_count] the length of [bullet_patterns] when present and
    0 when absent. *)
Theorem validation_summary_counts (game_data : GameData) :
  let s := get_validation_summary game_data in
  total_waves s
    = Z.of_nat (sum_list ((fun stage => length (waves stage)) <$> stages game_data)) /\
  total_boss_phases s
    = Z.of_nat (sum_list ((fun stage => length (phases (boss stage))) <$> stages game_data)) /\
  stage_count s = Z.of_nat (length (stages game_data)) /\
  enemy_count s = Z.of_nat (length (enemies game_data)) /\
  weapon_count s = Z.of_nat (length (weapons game_data)) /\
  pickup_count s = Z.of_nat (length (pickups game_data)) /\
  pattern_count s
    = match bullet_patterns game_data with
      | Some l => Z.of_nat (length l)
      | None => 0
      end /\
  s_game_id s = game_id game_data /\
  s_os_name s = os_name (story game_data).
Proof.
  cbv zeta. unfold get_validation_summary. cbn [total_waves total_boss_phases stage_count
    enemy_count weapon_count pickup_count pattern_count s_game_id s_os_name].
  split; [apply py_sum_sum_list|]. split; [apply (py_sum_sum_list (fun s => phases (boss s)))|].
  repeat split.
  destruct (bullet_patterns game_data) as [l|]; [|reflexivity].
  destruct l; reflexivity.
Qed.

(** *** Sample documents *)

(** The conversions on values that already have the JSON type of the
    field (an [int] is also a valid [float]); every implementation of
    pydantic's conversions agrees with them there. *)
Definition json_int (raw : pyval) : option Z :=
  match raw with
  | PInt z => Some z
  | _ => None
  end.

Definition json_float (raw : pyval) : option Q :=
  match raw with
  | PFloat q => Some q
  | PInt z => Some (inject_Z z)
  | _ => None
  end.

Definition json_bool (raw : pyval) : option bool :=
  match raw with
  | PBool b => Some b
  | _ => None
  end.

Definition sample_story : pyval :=
  PDict [("os_name", PStr "FantasyOS-Δ9");
         ("tagline", PStr "A living terminal of bone and wire");
         ("palette", PDict [("ansi_fg", PStr "#00FFD1");
                            ("ansi_bg", PStr "#06080A");
                            ("accent", PStr "#8AE6FF")])]%string.

Definition sample_stage : pyval :=
  PDict [("id", PStr "mod-init");
         ("title", PStr "initd: Cathedral Kernel");
         ("scroll_speed", PFloat 1);
         ("length_sec", PInt 240);
         ("parallax", PList [
            PDict [("id", PStr "bg_ribs");
                   ("prompt", PStr "biomechanical ribbed tunnel, giger, monochrome teal");
                   ("depth", PFloat (2 # 10))];
            PDict [("id", PStr "bg_cables");
                   ("prompt", PStr "sinewy cables, organic conduits, giger");
                   ("depth", PFloat (5 # 10))]]);
         ("waves", PList [
            PDict [("time", PInt 5); ("formation", PStr "v_wave");
                   ("enemy_type", PStr "glyph_worm"); ("count", PInt 6);
                   ("path", PStr "sine")];
            PDict [("time", PInt 25); ("formation", PStr "column");
                   ("enemy_type", PStr "rib_sentry"); ("count", PInt 4);
                   ("path", PStr "straight")]]);
         ("boss", PDict [
            ("id", PStr "daemon_seraph");
            ("title", PStr "Seraph of Sockets");
            ("sprite_prompt", PStr "biomechanical angel with cable wings, giger style");
            ("phases", PList [
               PDict [("hp", PInt 1000); ("patterns", PList [PStr "fan_5"; PStr "burst_32"])];
               PDict [("hp", PInt 1200);
                      ("patterns", PList [PStr "spiral_dual"; PStr "laser_sweep"])]])])]%string.

Definition glyph_worm : pyval :=
  PDict [("id", PStr "glyph_worm"); ("name", PStr "Glyph Worm"); ("hp", PInt 24);
         ("speed", PFloat (12 # 10)); ("radius", PInt 10);
         ("sprite_prompt",
          PStr "side-view biomech larva, single eye socket, giger lines, teal highlights");
         ("score", PInt 100)]%string.

Definition rib_sentry : pyval :=
  PDict [("id", PStr "rib_sentry"); ("name", PStr "Rib Sentry"); ("hp", PInt 48);
         ("speed", PFloat (8 # 10)); ("radius", PInt 12);
         ("sprite_prompt", PStr "floating ribcage with mechanical core, giger biomech");
         ("score", PInt 200)]%string.

Definition sample_patterns : pyval :=
  PList [
    PDict [("id", PStr "fan_5"); ("type", PStr "fan"); ("bullets", PInt 5);
           ("spread_deg", PInt 40); ("cooldown_ms", PInt 800); ("speed", PInt 300)];
    PDict [("id", PStr "burst_32"); ("type", PStr "burst"); ("bullets", PInt 32);
           ("arc_deg", PInt 360); ("cooldown_ms", PInt 1500); ("speed", PInt 200)];
    PDict [("id", PStr "spiral_dual"); ("type", PStr "spiral"); ("rate", PFloat (8 # 100));
           ("dual", PBool true); ("cooldown_ms", PInt 100); ("speed", PInt 250)]]%string.

Definition sample_weapons : pyval :=
  PList [PDict [("id", PStr "needle_rifle"); ("name", PStr "Needle Rifle");
                ("dps", PInt 120); ("projectile_speed", PInt 900);
                ("spread", PInt 0); ("fire_rate", PInt 8)]]%string.

Definition sample_pickups : pyval :=
  PList [
    PDict [("id", PStr "shield_cell"); ("name", PStr "Shield Cell"); ("effect", PStr "shield+1")];
    PDict [("id", PStr "power_core"); ("name", PStr "Power Core"); ("effect", PStr "power+1")];
    PDict [("id", PStr "bomb_cache"); ("name", PStr "Bomb Cache"); ("effect", PStr "bomb+1")]
  ]%string.

Definition sample_tui_skin : pyval :=
  PDict [("frame_prompt", PStr "terminal bezel with box-drawing, giger filigree corners");
         ("glyph_bullets", PBool true);
         ("glyph_set", PList [PStr "•"; PStr "×"; PStr "◇"; PStr "/"; PStr "\"; PStr "|"]);
         ("crt_effects", PDict [("scanlines", PBool true); ("glow", PFloat (3 # 10));
                                ("vignette", PFloat (2 # 10))])]%string.

(** [SAMPLE_GAME_DATA] (models/game_data.py, lines 199-325) *)
Definition SAMPLE_GAME_DATA : list (string * pyval) :=
  [("story", sample_story);
   ("stages", PList [sample_stage]);
   ("enemies", PList [glyph_worm; rib_sentry]);
   ("bullet_patterns", sample_patterns);
   ("weapons", sample_weapons);
   ("pickups", sample_pickups);
   ("tui_skin", sample_tui_skin)]%string.

(** The sample with the required [player] field, which it lacks. *)
Definition sample_with_player : list (string * pyval) :=
  ("player", PDict [("sprite_prompt", PStr "sleek fighter with angular wings")])%string
  :: SAMPLE_GAME_DATA.

(** *** Combining field results *)

Lemma vap_valid_inv {A B} (rf : validated (A -> B)) (ra : validated A) (b : B) :
  rf <*> ra = Valid b -> exists f a, rf = Valid f /\ ra = Valid a /\ b = f a.
Proof.
  destruct rf as [f|e1], ra as [a|e2]; simpl; intros H; try discriminate.
  injection H as <-. eauto.
Qed.

Lemma errors_of_vap {A B} (rf : validated (A -> B)) (ra : validated A) :
  errors_of (rf <*> ra) = errors_of rf ++ errors_of ra.
Proof.
  destruct rf as [f|e1], ra as [a|e2]; simpl; try reflexivity.
  rewrite app_nil_r. reflexivity.
Qed.

Lemma errors_of_elem {A} (r : validated A) (e : line_error) :
  e ∈ errors_of r -> r = Invalid (errors_of r).
Proof. destruct r; simpl; [intros H; inversion H|reflexivity]. Qed.


Lemma at_loc_valid_inv {A} (item : loc_item) (r : validated A) (a : A) :
  at_loc item r = Valid a -> r = Valid a.
Proof. destruct r; simpl; congruence. Qed.




Lemma required_valid_inv {A} (items : list (string * pyval)) (name : string)
    (v : pyval -> validated A) (a : A) :
  required items name v = Valid a ->
  exists raw, lookup_key name items = Some raw /\ v raw = Valid a.
Proof.
  unfold required. destruct (lookup_key name items) as [raw|]; [|discriminate].
  intros H%at_loc_valid_inv. eauto.
Qed.

(** *** The message *)

Lemma contains_join (sub sep : string) (parts : list string) (x : string) :
  x ∈ parts -> Str.contains sub x -> Str.contains sub (join sep parts).
Proof.
  intros Hin Hx. induction parts as [|y parts IH]; [inversion Hin|].
  destruct parts as [|z parts].
  - apply list_elem_of_singleton in Hin as ->. exact Hx.
  - change (join sep (y :: z :: parts)) with (y ++ sep ++ join sep (z :: parts))%string.
    apply elem_of_cons in Hin as [->|Hin].
    + apply Str.contains_app_l. exact Hx.
    + apply Str.contains_app_r, Str.contains_app_r. apply IH. exact Hin.
Qed.

Lemma contains_error_line (sub : string) (e : line_error) :
  Str.contains sub (err_msg e) -> Str.contains sub (error_line e).
Proof.
  intros H. unfold error_line.
  apply Str.contains_app_r, Str.contains_app_r, Str.contains_app_r. exact H.
Qed.

Lemma contains_format (sub : string) (errors : list line_error) (e : line_error) :
  e ∈ errors -> Str.contains sub (err_msg e) ->
  Str.contains sub (format_validation_error errors).
Proof.
  intros Hin H. unfold format_validation_error.
  apply Str.contains_app_r, Str.contains_app_r.
  apply (contains_join _ _ _ (error_line e)).
  - apply list_elem_of_fmap. eauto.
  - apply contains_error_line. exact H.
Qed.

(** *** Duplicates *)

Lemma size_list_to_set_le (ids : list string) :
  (size (list_to_set (C := gset string) ids) <= length ids)%nat /\
  (size (list_to_set (C := gset string) ids) = length ids -> NoDup ids).
Proof.
  induction ids as [|x ids [IHle IHeq]].
  - split; [reflexivity|]. intros _. constructor.
  - rewrite list_to_set_cons. simpl.
    destruct (decide (x ∈ ids)) as [Hin|Hnin].
    + assert (({[x]} ∪ list_to_set ids : gset string) = list_to_set ids) as ->.
      { apply set_eq. intros y. rewrite elem_of_union, elem_of_singleton, !elem_of_list_to_set.
        split; [intros [->|?]; assumption|auto]. }
      split; [lia|]. intros E. lia.
    + rewrite size_union by (apply disjoint_singleton_l; rewrite elem_of_list_to_set; exact Hnin).
      rewrite size_singleton. split; [lia|].
      intros E. constructor; [exact Hnin|]. apply IHeq. lia.
Qed.

(** [len(ids) != len(set(ids))] says that some id occurs twice. *)
Lemma has_duplicates_false (ids : list string) :
  has_duplicates ids = false <-> NoDup ids.
Proof.
  unfold has_duplicates. rewrite negb_false_iff, Nat.eqb_eq. split.
  - intros E. apply size_list_to_set_le. symmetry. exact E.
  - intros H. symmetry. apply size_list_to_set. exact H.
Qed.

Lemma has_duplicates_true (ids : list string) :
  has_duplicates ids = true <-> ~ NoDup ids.
Proof.
  rewrite <- has_duplicates_false. destruct (has_duplicates ids); split; congruence.
Qed.

(** *** The generated identifier *)




Section Identifier.

Variable as_int : pyval -> option Z.
Variable as_float : pyval -> option Q.
Variable as_bool : pyval -> option bool.

Let validate := validate_game_data as_int as_float as_bool.



End Identifier.


(** *** Duplicated identifiers *)

(** The raw [id] of an item of a collection. *)
Definition raw_id (item : pyval) : option pyval :=
  match item with
  | PDict d => lookup_key "id" d
  | _ => None
  end.

(** Two items of the raw list have the same [id]. *)
Definition shares_id (raw : pyval) : Prop :=
  exists items i j a b x,
    raw = PList items /\ i <> j /\
    items !! i = Some a /\ items !! j = Some b /\
    raw_id a = Some x /\ raw_id b = Some x.

Definition glyph_worm_strong : pyval :=
  PDict [("id", PStr "glyph_worm"); ("name", PStr "Glyph Worm"); ("hp", PInt 10000);
         ("speed", PFloat (12 # 10)); ("radius", PInt 10);
         ("sprite_prompt",
          PStr "side-view biomech larva, single eye socket, giger lines, teal highlights");
         ("score", PInt 100)]%string.

(** The sample with a third enemy that repeats the id [glyph_worm] and has
    [hp = 10000]. *)
Definition duplicate_and_range_error : list (string * pyval) :=
  [("player", PDict [("sprite_prompt", PStr "sleek fighter with angular wings")]);
   ("story", sample_story);
   ("stages", PList [sample_stage]);
   ("enemies", PList [glyph_worm; rib_sentry; glyph_worm_strong]);
   ("bullet_patterns", sample_patterns);
   ("weapons", sample_weapons);
   ("pickups", sample_pickups);
   ("tui_skin", sample_tui_skin)]%string.

(** The sample with the first enemy repeated (test 7 of test_step2.py). *)
Definition duplicate_enemy : list (string * pyval) :=
  [("player", PDict [("sprite_prompt", PStr "sleek fighter with angular wings")]);
   ("story", sample_story);
   ("stages", PList [sample_stage]);
   ("enemies", PList [glyph_worm; rib_sentry; glyph_worm]);
   ("bullet_patterns", sample_patterns);
   ("weapons", sample_weapons);
   ("pickups", sample_pickups);
   ("tui_skin", sample_tui_skin)]%string.

(** Test 7 of test_step2.py: a repeated enemy is rejected on uniqueness. *)
Example duplicate_enemy_message :
  validate_game_data json_int json_float json_bool 0 duplicate_enemy
  = Returned false None
      (Some ("Validation failed:" ++ newline ++
             "  â€¢ enemies: Value error, Enemy IDs must be unique")%string).
Proof. vm_compute. reflexivity. Qed.

(** The sample as it is lacks the required [player]. *)
Example sample_lacks_player :
  validate_game_data json_int json_float json_bool 0 SAMPLE_GAME_DATA
  = Returned false None
      (Some ("Validation failed:" ++ newline ++ "  â€¢ player: Field required")%string).
Proof. vm_compute. reflexivity. Qed.

(** An explicit null for [bullet_patterns] reaches [validate_patterns]. *)
Example null_patterns_raise :
  validate_game_data json_int json_float json_bool 0
    (("bullet_patterns"%string, PNone) :: sample_with_player)
  = Propagated "TypeError: 'NoneType' object is not iterable".
Proof. vm_compute. reflexivity. Qed.

(** A document with a duplicated enemy id and a field error in the same
    collection is rejected with the field error only: the uniqueness
    validator runs on a validated collection, so its message is absent. *)
Lemma duplicate_without_unique_message :
  let data := duplicate_and_range_error in
  let msg := ("Validation failed:" ++ newline ++
    "  â€¢ enemies -> 2 -> hp: Input should be less than or equal to 1000")%string in
  lookup_key "enemies" data = Some (PList [glyph_worm; rib_sentry; glyph_worm_strong]) /\
  raw_id glyph_worm = Some (PStr "glyph_worm") /\
  raw_id glyph_worm_strong = Some (PStr "glyph_worm") /\
  validate_game_data json_int json_float json_bool 0 data = Returned false None (Some msg) /\
  Str.containsb "unique" msg = false.
Proof. vm_compute. repeat split; reflexivity. Qed.

Definition is_invalid {A} (r : validated A) : Prop := exists e, r = Invalid e.

Lemma is_invalid_vap_l {A B} (rf : validated (A -> B)) (ra : validated A) :
  is_invalid rf -> is_invalid (rf <*> ra).
Proof. intros [e ->]. destruct ra; simpl; unfold is_invalid; eauto. Qed.

Lemma is_invalid_vap_r {A B} (rf : validated (A -> B)) (ra : validated A) :
  is_invalid ra -> is_invalid (rf <*> ra).
Proof. intros [e ->]. destruct rf; simpl; unfold is_invalid; eauto. Qed.

Lemma is_invalid_at_loc {A} (item : loc_item) (r : validated A) :
  is_invalid r -> is_invalid (at_loc item r).
Proof. intros [e ->]. simpl. unfold is_invalid. eauto. Qed.

Lemma required_and_then {A B} (items : list (string * pyval)) (name : string)
    (v : pyval -> validated A) (k : A -> validated B) :
  required items name (fun raw => and_then (v raw) k)
  = match required items name v with
    | Valid a => at_loc (LKey name) (k a)
    | Invalid e => Invalid e
    end.
Proof.
  unfold required. destruct (lookup_key name items) as [raw|]; [|reflexivity].
  destruct (v raw); reflexivity.
Qed.

Lemma contains_unique (what : string) :
  Str.contains "unique" ("Value error, " ++ what ++ " IDs must be unique").
Proof.
  exists ("Value error, " ++ what ++ " IDs must be ")%string, ""%string.
  rewrite !Str.app_assoc. reflexivity.
Qed.

Section Uniqueness.

Variable as_int : pyval -> option Z.
Variable as_float : pyval -> option Q.
Variable as_bool : pyval -> option bool.

Let validate := validate_game_data as_int as_float as_bool.
Let v_Stage' := v_Stage as_int as_float.
Let v_Enemy' := v_Enemy as_int as_float.
Let v_BulletPattern' := v_BulletPattern as_int as_float as_bool.

(** The declared types of the three collections. *)
Definition stages_type : pyval -> validated (list Stage) :=
  v_list "List" 1 (Some 10%nat) v_Stage'.
Definition enemies_type : pyval -> validated (list Enemy) :=
  v_list "List" 1 (Some 50%nat) v_Enemy'.
Definition patterns_type : pyval -> validated (list BulletPattern) :=
  v_list "List" 0 None v_BulletPattern'.

Lemma v_items_Forall2 {A} (v : pyval -> validated A) (items : list pyval) :
  forall i l, v_items v i items = Valid l ->
    Forall2 (fun raw t => v raw = Valid t) items l.
Proof.
  induction items as [|raw items IH]; intros i l H.
  - injection H as <-. constructor.
  - cbn [v_items] in H.
    apply vap_valid_inv in H as (f & tl & H & Htl & ->).
    apply vap_valid_inv in H as (c & t & Hc & Ht & ->).
    injection Hc as <-. apply at_loc_valid_inv in Ht.
    constructor; [exact Ht|]. eapply IH. exact Htl.
Qed.

Lemma v_list_valid_inv {A} (name : string) (lo : nat) (hi : option nat)
    (v : pyval -> validated A) (raw : pyval) (l : list A) :
  v_list name lo hi v raw = Valid l ->
  exists items, raw = PList items /\ Forall2 (fun r t => v r = Valid t) items l.
Proof.
  unfold v_list. destruct raw as [| | | | |items|]; try discriminate.
  destruct (match hi with Some h => _ | None => _ end); [discriminate|].
  destruct (v_items v 0 items) as [l'|] eqn:Hi; [|discriminate].
  cbn [and_then]. destruct (_ <? _)%nat; [discriminate|].
  intros H. injection H as <-. exists items. split; [reflexivity|].
  eapply v_items_Forall2. exact Hi.
Qed.

Lemma str_min_valid_inv (n : nat) (raw : pyval) (s : string) :
  str_min n raw = Valid s -> raw = PStr s.
Proof.
  unfold str_min, v_str. destruct raw; try discriminate.
  cbn [and_then]. unfold min_length. destruct (_ <? _)%nat; [discriminate|].
  congruence.
Qed.

Lemma id_field_inv (d : list (string * pyval)) (s : string) :
  required d "id" (str_min 1) = Valid s -> lookup_key "id" d = Some (PStr s).
Proof.
  intros (raw & Hl & Hv)%required_valid_inv.
  apply str_min_valid_inv in Hv as ->. exact Hl.
Qed.

Lemma v_Stage_id (raw : pyval) (t : Stage) :
  v_Stage' raw = Valid t -> raw_id raw = Some (PStr (stage_id t)).
Proof.
  unfold v_Stage', v_Stage, v_model. destruct raw as [| | | | | |d]; try discriminate.
  intros H. repeat (apply vap_valid_inv in H as (?f & ?a & H & ? & ?)). subst.
  injection H as <-. simpl. apply id_field_inv. assumption.
Qed.

Lemma v_Enemy_id (raw : pyval) (t : Enemy) :
  v_Enemy' raw = Valid t -> raw_id raw = Some (PStr (enemy_id t)).
Proof.
  unfold v_Enemy', v_Enemy, v_model. destruct raw as [| | | | | |d]; try discriminate.
  intros H. repeat (apply vap_valid_inv in H as (?f & ?a & H & ? & ?)). subst.
  injection H as <-. simpl. apply id_field_inv. assumption.
Qed.

Lemma v_BulletPattern_id (raw : pyval) (t : BulletPattern) :
  v_BulletPattern' raw = Valid t -> raw_id raw = Some (PStr (pattern_id t)).
Proof.
  unfold v_BulletPattern', v_BulletPattern, v_model.
  destruct raw as [| | | | | |d]; try discriminate.
  intros H. repeat (apply vap_valid_inv in H as (?f & ?a & H & ? & ?)). subst.
  injection H as <-. simpl. apply id_field_inv. assumption.
Qed.

(** Items that share a raw id are validated to items with the same id. *)
Lemma shares_id_not_NoDup {A} (v : pyval -> validated A) (id_of : A -> string)
    (name : string) (lo : nat) (hi : option nat) (raw : pyval) (l : list A) :
  (forall r t, v r = Valid t -> raw_id r = Some (PStr (id_of t))) ->
  shares_id raw ->
  v_list name lo hi v raw = Valid l ->
  ~ NoDup (id_of <$> l).
Proof.
  intros Hid (items & i & j & a & b & x & -> & Hij & Hi & Hj & Ha & Hb) Hv Hnd.
  apply v_list_valid_inv in Hv as (items' & E & HF). injection E as <-.
  destruct (Forall2_lookup_l _ _ _ _ _ HF Hi) as (ta & Hta & Hva).
  destruct (Forall2_lookup_l _ _ _ _ _ HF Hj) as (tb & Htb & Hvb).
  apply Hid in Hva, Hvb.
  assert (id_of ta = id_of tb) as Eid by congruence.
  apply Hij. eapply (NoDup_lookup _ _ _ _ Hnd).
  - rewrite list_lookup_fmap, Hta. reflexivity.
  - rewrite list_lookup_fmap, Htb, Eid. reflexivity.
Qed.

(** The fields in terms of the declared type and the validator. *)
Lemma stages_field_eq (data : list (string * pyval)) :
  stages_field as_int as_float data
  = match required data "stages" stages_type with
    | Valid v => at_loc (LKey "stages") (validate_stages v)
    | Invalid e => Invalid e
    end.
Proof. apply required_and_then. Qed.

Lemma enemies_field_eq (data : list (string * pyval)) :
  enemies_field as_int as_float data
  = match required data "enemies" enemies_type with
    | Valid v => at_loc (LKey "enemies") (validate_enemies v)
    | Invalid e => Invalid e
    end.
Proof. apply required_and_then. Qed.

Lemma bullet_patterns_field_eq (data : list (string * pyval)) (raw : pyval) :
  lookup_key "bullet_patterns" data = Some raw -> raw <> PNone ->
  bullet_patterns_field as_int as_float as_bool data
  = Done (match patterns_type raw with
          | Valid l =>
              at_loc (LKey "bullet_patterns")
                (if has_duplicates (pattern_id <$> l)
                 then value_error "Bullet pattern IDs must be unique"
                 else Valid (Some l))
          | Invalid e => at_loc (LKey "bullet_patterns") (Invalid e)
          end).
Proof.
  intros Hl Hne. unfold bullet_patterns_field. rewrite Hl.
  assert (En : nullable (v_list "List" 0 None v_BulletPattern') raw
               = vmap Some (patterns_type raw)).
  { destruct raw; try reflexivity. congruence. }
  unfold v_BulletPattern' in En. rewrite En. unfold patterns_type, v_BulletPattern'.
  destruct (v_list _ _ _ _ raw) as [l|e]; cbn [vmap]; [|reflexivity].
  unfold validate_patterns. destruct (has_duplicates _); reflexivity.
Qed.

Lemma bullet_patterns_field_done (data : list (string * pyval)) :
  lookup_key "bullet_patterns" data <> Some PNone ->
  exists r, bullet_patterns_field as_int as_float as_bool data = Done r.
Proof.
  intros Hne. destruct (lookup_key "bullet_patterns" data) as [raw|] eqn:Hl.
  - rewrite (bullet_patterns_field_eq data raw Hl) by congruence. eauto.
  - unfold bullet_patterns_field. rewrite Hl. eauto.
Qed.

(** An invalid [stages], [enemies] or [bullet_patterns] field makes the
    call return a failure whose message lists the errors of that field. *)
Lemma invalid_field_rejected (fresh : Z) (data : list (string * pyval))
    (r_bp : validated (option (list BulletPattern))) :
  bullet_patterns_field as_int as_float as_bool data = Done r_bp ->
  is_invalid (stages_field as_int as_float data) \/
  is_invalid (enemies_field as_int as_float data) \/
  is_invalid r_bp ->
  exists errors,
    validate fresh data = Returned false None (Some (format_validation_error errors)) /\
    forall e, e ∈ errors_of (stages_field as_int as_float data) \/
              e ∈ errors_of (enemies_field as_int as_float data) \/
              e ∈ errors_of r_bp -> e ∈ errors.
Proof.
  intros Hbp Hinv. unfold validate, validate_game_data, new_GameData. rewrite Hbp.
  match goal with
  | |- context [match ?c with Valid _ => _ | Invalid _ => _ end] => set (chain := c)
  end.
  assert (Hc : is_invalid chain).
  { unfold chain. destruct Hinv as [H|[H|H]].
    - do 6 apply is_invalid_vap_l. apply is_invalid_vap_r. exact H.
    - do 5 apply is_invalid_vap_l. apply is_invalid_vap_r. exact H.
    - do 4 apply is_invalid_vap_l. apply is_invalid_vap_r. exact H. }
  assert (He : forall e, e ∈ errors_of (stages_field as_int as_float data) \/
                         e ∈ errors_of (enemies_field as_int as_float data) \/
                         e ∈ errors_of r_bp -> e ∈ errors_of chain).
  { intros e H. unfold chain. rewrite !errors_of_vap, !elem_of_app. tauto. }
  destruct Hc as [errors Hc]. rewrite Hc in He |- *. cbn [errors_of] in He.
  exists errors. split; [reflexivity|exact He].
Qed.

Definition unique_error (field what : string) : line_error :=
  LineError [LKey field] ("Value error, " ++ what ++ " IDs must be unique").

Lemma stages_field_cases (data : list (string * pyval)) (raw : pyval) :
  lookup_key "stages" data = Some raw ->
  match stages_type raw with
  | Valid v =>
      if has_duplicates (stage_id <$> v)
      then stages_field as_int as_float data = Invalid [unique_error "stages" "Stage"]
      else stages_field as_int as_float data = Valid v
  | Invalid e => is_invalid (stages_field as_int as_float data)
  end.
Proof.
  intros Hl. rewrite stages_field_eq. unfold required. rewrite Hl.
  destruct (stages_type raw) as [v|e]; cbn [at_loc].
  - unfold validate_stages. destruct (has_duplicates _); reflexivity.
  - unfold is_invalid. eauto.
Qed.

Lemma enemies_field_cases (data : list (string * pyval)) (raw : pyval) :
  lookup_key "enemies" data = Some raw ->
  match enemies_type raw with
  | Valid v =>
      if has_duplicates (enemy_id <$> v)
      then enemies_field as_int as_float data = Invalid [unique_error "enemies" "Enemy"]
      else enemies_field as_int as_float data = Valid v
  | Invalid e => is_invalid (enemies_field as_int as_float data)
  end.
Proof.
  intros Hl. rewrite enemies_field_eq. unfold required. rewrite Hl.
  destruct (enemies_type raw) as [v|e]; cbn [at_loc].
  - unfold validate_enemies. destruct (has_duplicates _); reflexivity.
  - unfold is_invalid. eauto.
Qed.

Lemma bullet_patterns_field_cases (data : list (string * pyval)) (raw : pyval) :
  lookup_key "bullet_patterns" data = Some raw -> raw <> PNone ->
  exists r_bp,
    bullet_patterns_field as_int as_float as_bool data = Done r_bp /\
    match patterns_type raw with
    | Valid v =>
        if has_duplicates (pattern_id <$> v)
        then r_bp = Invalid [unique_error "bullet_patterns" "Bullet pattern"]
        else r_bp = Valid (Some v)
    | Invalid e => is_invalid r_bp
    end.
Proof.
  intros Hl Hne. rewrite (bullet_patterns_field_eq data raw Hl Hne).
  eexists. split; [reflexivity|].
  destruct (patterns_type raw) as [v|e].
  - destruct (has_duplicates _); reflexivity.
  - unfold is_invalid. simpl. eauto.
Qed.

Lemma unique_error_message (errors : list line_error) (field what : string) :
  unique_error field what ∈ errors ->
  Str.contains "unique" (format_validation_error errors).
Proof.
  intros Hin. eapply contains_format; [exact Hin|]. apply contains_unique.
Qed.

End Uniqueness.

(** C1 (amended). For every raw document whose [bullet_patterns] is not an
    explicit null:
    - if two raw stages, two raw enemies or two raw bullet patterns have
      the same [id], [validate_game_data] returns a failure with a message;
    - if moreover the collection with the repeated id passes the
      validation of its declared type, that message contains ["unique"];
    and for every validated collection with pairwise distinct ids the
    uniqueness check of that collection passes. *)
Theorem duplicate_ids_rejected
    (as_int : pyval -> option Z) (as_float : pyval -> option Q) (as_bool : pyval -> option bool)
    (fresh : Z) (data : list (string * pyval)) :
  lookup_key "bullet_patterns" data <> Some PNone ->
  let validate := validate_game_data as_int as_float as_bool in
  ((exists raw, lookup_key "stages" data = Some raw /\ shares_id raw) \/
   (exists raw, lookup_key "enemies" data = Some raw /\ shares_id raw) \/
   (exists raw, lookup_key "bullet_patterns" data = Some raw /\ shares_id raw) ->
   exists msg, validate fresh data = Returned false None (Some msg)) /\
  (forall raw v,
     lookup_key "stages" data = Some raw ->
     stages_type as_int as_float raw = Valid v -> ~ NoDup (stage_id <$> v) ->
     exists msg, validate fresh data = Returned false None (Some msg) /\
                 Str.contains "unique" msg) /\
  (forall raw v,
     lookup_key "enemies" data = Some raw ->
     enemies_type as_int as_float raw = Valid v -> ~ NoDup (enemy_id <$> v) ->
     exists msg, validate fresh data = Returned false None (Some msg) /\
                 Str.contains "unique" msg) /\
  (forall raw v,
     lookup_key "bullet_patterns" data = Some raw ->
     patterns_type as_int as_float as_bool raw = Valid v -> ~ NoDup (pattern_id <$> v) ->
     exists msg, validate fresh data = Returned false None (Some msg) /\
                 Str.contains "unique" msg) /\
  (forall v, NoDup (stage_id <$> v) -> validate_stages v = Valid v) /\
  (forall v, NoDup (enemy_id <$> v) -> validate_enemies v = Valid v) /\
  (forall v, NoDup (pattern_id <$> v) -> validate_patterns (Some v) = Done (Valid (Some v))).
Proof.
  intros Hnull validate.
  destruct (bullet_patterns_field_done as_int as_float as_bool data Hnull) as [r_bp Hbp].
  pose proof (invalid_field_rejected as_int as_float as_bool fresh data r_bp Hbp) as Hrej.
  fold validate in Hrej.
  (* the three collections, when their declared type accepts them *)
  assert (Hstages : forall raw v,
     lookup_key "stages" data = Some raw ->
     stages_type as_int as_float raw = Valid v -> ~ NoDup (stage_id <$> v) ->
     exists msg, validate fresh data = Returned false None (Some msg) /\
                 Str.contains "unique" msg).
  { intros raw v Hl Hv Hd. apply has_duplicates_true in Hd.
    pose proof (stages_field_cases as_int as_float data raw Hl) as Hc.
    rewrite Hv, Hd in Hc.
    destruct Hrej as (errors & Hr & He); [left; rewrite Hc; unfold is_invalid; eauto|].
    eexists. split; [exact Hr|].
    apply (unique_error_message _ "stages" "Stage"). apply He. left.
    rewrite Hc. apply list_elem_of_singleton. reflexivity. }
  assert (Henemies : forall raw v,
     lookup_key "enemies" data = Some raw ->
     enemies_type as_int as_float raw = Valid v -> ~ NoDup (enemy_id <$> v) ->
     exists msg, validate fresh data = Returned false None (Some msg) /\
                 Str.contains "unique" msg).
  { intros raw v Hl Hv Hd. apply has_duplicates_true in Hd.
    pose proof (enemies_field_cases as_int as_float data raw Hl) as Hc.
    rewrite Hv, Hd in Hc.
    destruct Hrej as (errors & Hr & He); [right; left; rewrite Hc; unfold is_invalid; eauto|].
    eexists. split; [exact Hr|].
    apply (unique_error_message _ "enemies" "Enemy"). apply He. right. left.
    rewrite Hc. apply list_elem_of_singleton. reflexivity. }
  assert (Hpatterns : forall raw v,
     lookup_key "bullet_patterns" data = Some raw ->
     patterns_type as_int as_float as_bool raw = Valid v -> ~ NoDup (pattern_id <$> v) ->
     exists msg, validate fresh data = Returned false None (Some msg) /\
                 Str.contains "unique" msg).
  { intros raw v Hl Hv Hd. apply has_duplicates_true in Hd.
    destruct (bullet_patterns_field_cases as_int as_float as_bool data raw Hl
                ltac:(congruence)) as (r & Hr_bp & Hc).
    assert (r = r_bp) as -> by congruence.
    rewrite Hv, Hd in Hc.
    destruct Hrej as (errors & Hr & He); [right; right; rewrite Hc; unfold is_invalid; eauto|].
    eexists. split; [exact Hr|].
    apply (unique_error_message _ "bullet_patterns" "Bullet pattern"). apply He. right. right.
    rewrite Hc. apply list_elem_of_singleton. reflexivity. }
  split; [|split; [exact Hstages|split; [exact Henemies|split; [exact Hpatterns|]]]].
  - intros [(raw & Hl & Hs)|[(raw & Hl & Hs)|(raw & Hl & Hs)]].
    + pose proof (stages_field_cases as_int as_float data raw Hl) as Hc.
      destruct (stages_type as_int as_float raw) as [v|e] eqn:Hv.
      * destruct (Hstages raw v Hl Hv) as (msg & Hm & _); [|eauto].
        eapply (shares_id_not_NoDup _ stage_id); [apply v_Stage_id|exact Hs|exact Hv].
      * destruct Hrej as (errors & Hr & _); [left; exact Hc|eauto].
    + pose proof (enemies_field_cases as_int as_float data raw Hl) as Hc.
      destruct (enemies_type as_int as_float raw) as [v|e] eqn:Hv.
      * destruct (Henemies raw v Hl Hv) as (msg & Hm & _); [|eauto].
        eapply (shares_id_not_NoDup _ enemy_id); [apply v_Enemy_id|exact Hs|exact Hv].
      * destruct Hrej as (errors & Hr & _); [right; left; exact Hc|eauto].
    + destruct (bullet_patterns_field_cases as_int as_float as_bool data raw Hl
                  ltac:(congruence)) as (r & Hr_bp & Hc).
      assert (r = r_bp) as -> by congruence.
      destruct (patterns_type as_int as_float as_bool raw) as [v|e] eqn:Hv.
      * destruct (Hpatterns raw v Hl Hv) as (msg & Hm & _); [|eauto].
        eapply (shares_id_not_NoDup _ pattern_id);
          [apply v_BulletPattern_id|exact Hs|exact Hv].
      * destruct Hrej as (errors & Hr & _); [right; right; exact Hc|eauto].
  - split; [|split].
    + intros v Hnd. unfold validate_stages.
      apply has_duplicates_false in Hnd. rewrite Hnd. reflexivity.
    + intros v Hnd. unfold validate_enemies.
      apply has_duplicates_false in Hnd. rewrite Hnd. reflexivity.
    + intros v Hnd. unfold validate_patterns.
      apply has_duplicates_false in Hnd. rewrite Hnd. reflexivity.
Qed.

Lemma duplicate_ids_rejected_witness :
  lookup_key "bullet_patterns" duplicate_enemy <> Some PNone /\
  (exists raw, lookup_key "enemies" duplicate_enemy = Some raw /\ shares_id raw) /\
  exists msg,
    validate_game_data json_int json_float json_bool 0 duplicate_enemy
    = Returned false None (Some msg).
Proof.
  assert (Hnull : lookup_key "bullet_patterns" duplicate_enemy <> Some PNone)
    by discriminate.
  assert (Hshare : exists raw, lookup_key "enemies" duplicate_enemy = Some raw /\ shares_id raw).
  { eexists. split; [reflexivity|].
    exists [glyph_worm; rib_sentry; glyph_worm], 0%nat, 2%nat, glyph_worm, glyph_worm,
           (PStr "glyph_worm").
    repeat split; try reflexivity. discriminate. }
  split; [exact Hnull|]. split; [exact Hshare|].
  destruct (duplicate_ids_rejected json_int json_float json_bool 0 duplicate_enemy Hnull)
    as [H _].
  apply H. right. left. exact Hshare.
Defined.


(** *** What an accepted document satisfies *)

Definition enemy_in_range (e : Enemy) : Prop :=
  1 <= hp e <= 1000 /\ (1 # 10 <= speed e)%Q /\ (speed e <= 10)%Q /\
  4 <= radius e <= 64 /\ (forall s, score e = Some s -> 0 <= s).

Definition wave_in_range (w : Wave) : Prop :=
  0 <= time w /\ 1 <= count w <= 50 /\
  formation w ∈ ["v_wave"; "column"; "line"; "arc"; "circle"; "random"]%string /\
  path w ∈ ["straight"; "sine"; "seek"; "arc"; "spiral"]%string.

Definition phase_in_range (p : BossPhase) : Prop :=
  100 <= phase_hp p <= 10000 /\ (1 <= length (patterns p) <= 10)%nat.

Definition stage_in_range (s : Stage) : Prop :=
  (1 # 10 <= scroll_speed s)%Q /\ (scroll_speed s <= 5)%Q /\
  60 <= length_sec s <= 600 /\
  (1 <= length (parallax s) <= 5)%nat /\
  Forall (fun l => (0 <= depth l)%Q /\ (depth l <= 1)%Q) (parallax s) /\
  (1 <= length (waves s) <= 50)%nat /\
  Forall wave_in_range (waves s) /\
  (1 <= length (phases (boss s)) <= 5)%nat /\
  Forall phase_in_range (phases (boss s)).

Lemma in_range_Z_valid_inv (lo hi : option Z) (z z' : Z) :
  in_range_Z lo hi z = Valid z' ->
  z' = z /\ (forall l, lo = Some l -> l <= z) /\ (forall h, hi = Some h -> z <= h).
Proof.
  unfold in_range_Z.
  destruct hi as [h|], lo as [l|];
    repeat match goal with
    | |- context [?a <? ?b] => destruct (Z.ltb_spec a b)
    end; try discriminate; intros Hv; injection Hv as <-;
    (split; [reflexivity|]); split; intros b E; try discriminate;
    injection E as <-; lia.
Qed.

Lemma in_range_Q_valid_inv (lo hi : Q * string) (q q' : Q) :
  in_range_Q lo hi q = Valid q' -> q' = q /\ (lo.1 <= q)%Q /\ (q <= hi.1)%Q.
Proof.
  unfold in_range_Q.
  destruct (Qle_bool q hi.1) eqn:Hhi; [|discriminate].
  destruct (Qle_bool lo.1 q) eqn:Hlo; [|discriminate].
  intros H. injection H as <-. apply Qle_bool_iff in Hhi, Hlo. auto.
Qed.

Lemma nullable_valid_inv {A} (v : pyval -> validated A) (raw : pyval) (o : option A) :
  nullable v raw = Valid o -> o = None \/ exists a, o = Some a /\ v raw = Valid a.
Proof.
  unfold nullable.
  destruct raw; try (intros H; injection H as <-; left; reflexivity);
    (destruct (v _) as [a|] eqn:E; [|discriminate]);
    intros H; injection H as <-; right; eauto.
Qed.

Lemma with_default_valid_inv {A} (items : list (string * pyval)) (name : string)
    (dflt : A) (v : pyval -> validated A) (a : A) :
  with_default items name dflt v = Valid a ->
  a = dflt \/ exists raw, v raw = Valid a.
Proof.
  unfold with_default. destruct (lookup_key name items) as [raw|].
  - intros H%at_loc_valid_inv. eauto.
  - intros H. injection H as <-. auto.
Qed.

Lemma and_then_valid_inv {A B} (r : validated A) (k : A -> validated B) (b : B) :
  and_then r k = Valid b -> exists a, r = Valid a /\ k a = Valid b.
Proof. destruct r as [a|]; [eauto|discriminate]. Qed.

Lemma one_of_valid_inv (what : string) (allowed : list string) (repr v s : string) :
  one_of what allowed repr v = Valid s -> s = v /\ s ∈ allowed.
Proof.
  unfold one_of. destruct (existsb (String.eqb v) allowed) eqn:E; [|discriminate].
  intros H. injection H as <-. split; [reflexivity|].
  apply existsb_exists in E as (x & Hin & Hx). apply String.eqb_eq in Hx as ->.
  apply list_elem_of_In. exact Hin.
Qed.

Lemma v_list_valid_length {A} (name : string) (lo : nat) (hi : option nat)
    (v : pyval -> validated A) (raw : pyval) (l : list A) :
  v_list name lo hi v raw = Valid l ->
  (lo <= length l)%nat /\ (forall h, hi = Some h -> (length l <= h)%nat) /\
  exists items, raw = PList items /\ Forall2 (fun r t => v r = Valid t) items l.
Proof.
  unfold v_list. destruct raw as [| | | | |items|]; try discriminate.
  destruct (match hi with Some h => _ | None => _ end) eqn:Hhi; [discriminate|].
  destruct (v_items v 0 items) as [l'|] eqn:Hi; [|discriminate].
  cbn [and_then]. destruct (Nat.ltb_spec (length items) lo) as [|Hlo]; [discriminate|].
  intros H. injection H as <-.
  pose proof (v_items_Forall2 v items 0 l' Hi) as HF.
  pose proof (Forall2_length _ _ _ HF) as Hlen.
  split; [lia|]. split; [|eauto].
  intros h ->. apply Nat.ltb_ge in Hhi. lia.
Qed.

Lemma Forall2_valid_Forall {A} (v : pyval -> validated A) (P : A -> Prop)
    (items : list pyval) (l : list A) :
  (forall r t, v r = Valid t -> P t) ->
  Forall2 (fun r t => v r = Valid t) items l -> Forall P l.
Proof.
  intros HP HF. induction HF as [|r t items l Hrt _ IH]; constructor; eauto.
Qed.

Ltac invert_model H :=
  repeat (apply vap_valid_inv in H as (?f & ?a & H & ? & ?)); subst;
  injection H as <-; cbn.

Section Accepted.

Variable as_int : pyval -> option Z.
Variable as_float : pyval -> option Q.
Variable as_bool : pyval -> option bool.

Lemma v_int_valid_inv (lo hi : option Z) (raw : pyval) (z : Z) :
  v_int as_int lo hi raw = Valid z ->
  (forall l, lo = Some l -> l <= z) /\ (forall h, hi = Some h -> z <= h).
Proof.
  unfold v_int. destruct (as_int raw) as [z0|]; [|discriminate].
  intros (-> & Hlo & Hhi)%in_range_Z_valid_inv. auto.
Qed.

Lemma v_float_valid_inv (lo hi : Q * string) (raw : pyval) (q : Q) :
  v_float as_float lo hi raw = Valid q -> (lo.1 <= q)%Q /\ (q <= hi.1)%Q.
Proof.
  unfold v_float. destruct (as_float raw) as [q0|]; [|discriminate].
  intros (-> & Hlo & Hhi)%in_range_Q_valid_inv. auto.
Qed.

Lemma v_Enemy_in_range (raw : pyval) (e : Enemy) :
  v_Enemy as_int as_float raw = Valid e -> enemy_in_range e.
Proof.
  unfold v_Enemy, v_model. destruct raw as [| | | | | |d]; try discriminate.
  intros H. invert_model H.
  repeat match goal with
  | H : required _ "hp" _ = Valid _ |- _ =>
      apply required_valid_inv in H as (? & _ & [Hhp1 Hhp2]%v_int_valid_inv)
  | H : required _ "radius" _ = Valid _ |- _ =>
      apply required_valid_inv in H as (? & _ & [Hr1 Hr2]%v_int_valid_inv)
  | H : required _ "speed" _ = Valid _ |- _ =>
      apply required_valid_inv in H as (? & _ & [Hs1 Hs2]%v_float_valid_inv)
  end.
  specialize (Hhp1 _ eq_refl). specialize (Hhp2 _ eq_refl).
  specialize (Hr1 _ eq_refl). specialize (Hr2 _ eq_refl).
  unfold enemy_in_range. cbn [hp speed radius score].
  split; [lia|]. split; [exact Hs1|]. split; [exact Hs2|]. split; [lia|].
  intros s Hs.
  match goal with
  | H : with_default _ "score" _ _ = Valid _ |- _ =>
      apply with_default_valid_inv in H as [E|(r & Hsc)]
  end.
  - rewrite E in Hs. injection Hs as <-. lia.
  - apply nullable_valid_inv in Hsc as [E|(z & E & [Hz _]%v_int_valid_inv)].
    + congruence.
    + rewrite E in Hs. injection Hs as <-. apply Hz. reflexivity.
Qed.

Lemma v_Wave_in_range (raw : pyval) (w : Wave) :
  v_Wave as_int raw = Valid w -> wave_in_range w.
Proof.
  unfold v_Wave, v_model. destruct raw as [| | | | | |d]; try discriminate.
  intros H. invert_model H.
  repeat match goal with
  | H : required _ "time" _ = Valid _ |- _ =>
      apply required_valid_inv in H as (? & _ & [Ht _]%v_int_valid_inv)
  | H : required _ "count" _ = Valid _ |- _ =>
      apply required_valid_inv in H as (? & _ & [Hc1 Hc2]%v_int_valid_inv)
  | H : required _ "formation" _ = Valid _ |- _ =>
      apply required_valid_inv in H as (? & _ & (? & _ & [_ Hf]%one_of_valid_inv)%and_then_valid_inv)
  | H : required _ "path" _ = Valid _ |- _ =>
      apply required_valid_inv in H as (? & _ & (? & _ & [_ Hp]%one_of_valid_inv)%and_then_valid_inv)
  end.
  specialize (Ht _ eq_refl). specialize (Hc1 _ eq_refl). specialize (Hc2 _ eq_refl).
  unfold wave_in_range. cbn [time count formation path].
  split; [lia|]. split; [lia|]. split; [exact Hf|exact Hp].
Qed.

Lemma v_BossPhase_in_range (raw : pyval) (p : BossPhase) :
  v_BossPhase as_int raw = Valid p -> phase_in_range p.
Proof.
  unfold v_BossPhase, v_model. destruct raw as [| | | | | |d]; try discriminate.
  intros H. invert_model H.
  repeat match goal with
  | H : required _ "hp" _ = Valid _ |- _ =>
      apply required_valid_inv in H as (? & _ & [Hh1 Hh2]%v_int_valid_inv)
  | H : required _ "patterns" _ = Valid _ |- _ =>
      apply required_valid_inv in H as (? & _ & (Hl1 & Hl2 & _)%v_list_valid_length)
  end.
  specialize (Hh1 _ eq_refl). specialize (Hh2 _ eq_refl). specialize (Hl2 _ eq_refl).
  unfold phase_in_range. cbn [phase_hp patterns]. lia.
Qed.

Lemma v_ParallaxLayer_in_range (raw : pyval) (l : ParallaxLayer) :
  v_ParallaxLayer as_float raw = Valid l -> (0 <= depth l)%Q /\ (depth l <= 1)%Q.
Proof.
  unfold v_ParallaxLayer, v_model. destruct raw as [| | | | | |d]; try discriminate.
  intros H. invert_model H.
  match goal with
  | H : required _ "depth" _ = Valid _ |- _ =>
      apply required_valid_inv in H as (? & _ & [Hd1 Hd2]%v_float_valid_inv)
  end.
  auto.
Qed.

Lemma v_Boss_in_range (raw : pyval) (b : Boss) :
  v_Boss as_int raw = Valid b ->
  (1 <= length (phases b) <= 5)%nat /\ Forall phase_in_range (phases b).
Proof.
  unfold v_Boss, v_model. destruct raw as [| | | | | |d]; try discriminate.
  intros H. invert_model H.
  match goal with
  | H : required _ "phases" _ = Valid _ |- _ =>
      apply required_valid_inv in H as (? & _ & (Hl1 & Hl2 & items & _ & HF)%v_list_valid_length)
  end.
  specialize (Hl2 _ eq_refl). split; [lia|].
  eapply Forall2_valid_Forall; [|exact HF]. apply v_BossPhase_in_range.
Qed.

Lemma v_Stage_in_range (raw : pyval) (s : Stage) :
  v_Stage as_int as_float raw = Valid s -> stage_in_range s.
Proof.
  unfold v_Stage, v_model. destruct raw as [| | | | | |d]; try discriminate.
  intros H. invert_model H.
  repeat match goal with
  | H : required _ "scroll_speed" _ = Valid _ |- _ =>
      apply required_valid_inv in H as (? & _ & [Hs1 Hs2]%v_float_valid_inv)
  | H : required _ "length_sec" _ = Valid _ |- _ =>
      apply required_valid_inv in H as (? & _ & [Hl1 Hl2]%v_int_valid_inv)
  | H : required _ "parallax" _ = Valid _ |- _ =>
      apply required_valid_inv in H as (? & _ & (Hp1 & Hp2 & ? & _ & HFp)%v_list_valid_length)
  | H : required _ "waves" _ = Valid _ |- _ =>
      apply required_valid_inv in H as (? & _ & (Hw1 & Hw2 & ? & _ & HFw)%v_list_valid_length)
  | H : required _ "boss" _ = Valid _ |- _ =>
      apply required_valid_inv in H as (? & _ & [Hb1 Hb2]%v_Boss_in_range)
  end.
  specialize (Hl1 _ eq_refl). specialize (Hl2 _ eq_refl).
  specialize (Hp2 _ eq_refl). specialize (Hw2 _ eq_refl).
  unfold stage_in_range. cbn [scroll_speed length_sec parallax waves boss].
  split; [exact Hs1|]. split; [exact Hs2|]. split; [lia|]. split; [lia|].
  split; [eapply Forall2_valid_Forall; [|exact HFp]; apply v_ParallaxLayer_in_range|].
  split; [lia|].
  split; [eapply Forall2_valid_Forall; [|exact HFw]; apply v_Wave_in_range|].
  split; [exact Hb1|exact Hb2].
Qed.

(** The fields of an accepted document. *)
Lemma new_GameData_valid_inv (fresh : Z) (data : list (string * pyval)) (gd : GameData) :
  new_GameData as_int as_float as_bool fresh data = Done (Valid gd) ->
  stages_field as_int as_float data = Valid (stages gd) /\
  enemies_field as_int as_float data = Valid (enemies gd) /\
  bullet_patterns_field as_int as_float as_bool data = Done (Valid (bullet_patterns gd)) /\
  required data "weapons" (v_list "List" 1 (Some 10%nat) (v_Weapon as_float))
    = Valid (weapons gd) /\
  required data "pickups" (v_list "List" 1 (Some 20%nat) v_Pickup) = Valid (pickups gd).
Proof.
  unfold new_GameData.
  destruct (bullet_patterns_field as_int as_float as_bool data) as [r_bp|]; [|discriminate].
  intros H. injection H as H.
  repeat (apply vap_valid_inv in H as (?f & ?a & H & ? & ?)). subst.
  destruct (game_id_field fresh data) as [g|]; [|discriminate].
  injection H as <-. cbn. auto.
Qed.

Lemma validate_game_data_accepts (fresh : Z) (data : list (string * pyval)) (gd : GameData)
    (o : option string) :
  validate_game_data as_int as_float as_bool fresh data = Returned true (Some gd) o ->
  new_GameData as_int as_float as_bool fresh data = Done (Valid gd).
Proof.
  unfold validate_game_data.
  destruct (new_GameData as_int as_float as_bool fresh data) as [[g|e]|]; try discriminate.
  congruence.
Qed.

Lemma stages_field_valid_inv (data : list (string * pyval)) (l : list Stage) :
  stages_field as_int as_float data = Valid l ->
  NoDup (stage_id <$> l) /\ (1 <= length l <= 10)%nat /\ Forall stage_in_range l.
Proof.
  unfold stages_field.
  intros (raw & _ & (l0 & Hl & Hv)%and_then_valid_inv)%required_valid_inv.
  unfold validate_stages in Hv.
  destruct (has_duplicates (stage_id <$> l0)) eqn:Hd; [discriminate|].
  injection Hv as <-. apply has_duplicates_false in Hd.
  apply v_list_valid_length in Hl as (H1 & H2 & items & _ & HF).
  specialize (H2 _ eq_refl). split; [exact Hd|]. split; [lia|].
  eapply Forall2_valid_Forall; [|exact HF]. apply v_Stage_in_range.
Qed.

Lemma enemies_field_valid_inv (data : list (string * pyval)) (l : list Enemy) :
  enemies_field as_int as_float data = Valid l ->
  NoDup (enemy_id <$> l) /\ (1 <= length l <= 50)%nat /\ Forall enemy_in_range l.
Proof.
  unfold enemies_field.
  intros (raw & _ & (l0 & Hl & Hv)%and_then_valid_inv)%required_valid_inv.
  unfold validate_enemies in Hv.
  destruct (has_duplicates (enemy_id <$> l0)) eqn:Hd; [discriminate|].
  injection Hv as <-. apply has_duplicates_false in Hd.
  apply v_list_valid_length in Hl as (H1 & H2 & items & _ & HF).
  specialize (H2 _ eq_refl). split; [exact Hd|]. split; [lia|].
  eapply Forall2_valid_Forall; [|exact HF]. apply v_Enemy_in_range.
Qed.

Lemma bullet_patterns_field_valid_inv (data : list (string * pyval))
    (o : option (list BulletPattern)) (l : list BulletPattern) :
  bullet_patterns_field as_int as_float as_bool data = Done (Valid o) ->
  o = Some l -> NoDup (pattern_id <$> l).
Proof.
  unfold bullet_patterns_field.
  destruct (lookup_key "bullet_patterns" data) as [raw|].
  - destruct (nullable _ raw) as [v|e]; [|discriminate].
    unfold validate_patterns. destruct v as [l0|]; [|discriminate].
    destruct (has_duplicates (pattern_id <$> l0)) eqn:Hd; [discriminate|].
    cbn [at_loc]. intros H E. injection H as <-. injection E as <-.
    apply has_duplicates_false. exact Hd.
  - intros H E. injection H as <-. discriminate.
Qed.

(** X21. in a document that [validate_game_data] accepts, the stage ids, the
    enemy ids and the bullet pattern ids are each without repetition, and
    there are 1 to 10 stages, 1 to 50 enemies, 1 to 10 weapons and 1 to 20
    pickups. *)
Theorem accepted_ids_unique_and_counted
    (fresh : Z) (data : list (string * pyval)) (gd : GameData) :
  validate_game_data as_int as_float as_bool fresh data = Returned true (Some gd) None ->
  NoDup (stage_id <$> stages gd) /\
  NoDup (enemy_id <$> enemies gd) /\
  (forall l, bullet_patterns gd = Some l -> NoDup (pattern_id <$> l)) /\
  (1 <= length (stages gd) <= 10)%nat /\
  (1 <= length (enemies gd) <= 50)%nat /\
  (1 <= length (weapons gd) <= 10)%nat /\
  (1 <= length (pickups gd) <= 20)%nat.
Proof.
  intros H%validate_game_data_accepts.
  apply new_GameData_valid_inv in H as (Hs & He & Hb & Hw & Hp).
  apply stages_field_valid_inv in Hs as (Hs1 & Hs2 & _).
  apply enemies_field_valid_inv in He as (He1 & He2 & _).
  apply required_valid_inv in Hw as (? & _ & (Hw1 & Hw2 & _)%v_list_valid_length).
  apply required_valid_inv in Hp as (? & _ & (Hp1 & Hp2 & _)%v_list_valid_length).
  specialize (Hw2 _ eq_refl). specialize (Hp2 _ eq_refl).
  split; [exact Hs1|]. split; [exact He1|].
  split; [intros l; eapply bullet_patterns_field_valid_inv; exact Hb|].
  split; [exact Hs2|]. split; [exact He2|]. split; lia.
Qed.

(** X22. in an accepted document every enemy, stage, parallax layer, wave
    and boss phase has its numbers within the bounds of the schema, every
    list within it has a length within its bounds, and the formation and
    the path of every wave are among the allowed names. *)
Theorem accepted_values_in_range
    (fresh : Z) (data : list (string * pyval)) (gd : GameData) :
  validate_game_data as_int as_float as_bool fresh data = Returned true (Some gd) None ->
  Forall enemy_in_range (enemies gd) /\ Forall stage_in_range (stages gd).
Proof.
  intros H%validate_game_data_accepts.
  apply new_GameData_valid_inv in H as (Hs & He & _).
  apply stages_field_valid_inv in Hs as (_ & _ & Hs).
  apply enemies_field_valid_inv in He as (_ & _ & He).
  split; assumption.
Qed.

End Accepted.


Lemma accepted_ids_unique_and_counted_witness :
  exists gd,
    validate_game_data json_int json_float json_bool 7 sample_with_player
    = Returned true (Some gd) None /\
    NoDup (enemy_id <$> enemies gd) /\ (1 <= length (enemies gd) <= 50)%nat.
Proof.
  eexists. split; [vm_compute; reflexivity|].
  edestruct (accepted_ids_unique_and_counted json_int json_float json_bool 7
               sample_with_player) as (_ & He & _ & _ & Hc & _).
  { vm_compute. reflexivity. }
  split; [exact He|exact Hc].
Defined.

Lemma accepted_values_in_range_witness :
  exists gd,
    validate_game_data json_int json_float json_bool 7 sample_with_player
    = Returned true (Some gd) None /\
    Forall enemy_in_range (enemies gd) /\ Forall stage_in_range (stages gd).
Proof.
  eexists. split; [vm_compute; reflexivity|].
  eapply (accepted_values_in_range json_int json_float json_bool 7 sample_with_player).
  vm_compute. reflexivity.
Defined.


(** *** Rejected values and their location *)

Lemma contains_self (s : string) : Str.contains s s.
Proof. exists ""%string, ""%string. rewrite Str.app_nil_l, Str.app_nil_r. reflexivity. Qed.

Lemma contains_line (errors : list line_error) (e : line_error) :
  e ∈ errors -> Str.contains (error_line e) (format_validation_error errors).
Proof.
  intros Hin. unfold format_validation_error.
  apply Str.contains_app_r, Str.contains_app_r.
  apply (contains_join _ _ _ (error_line e)).
  - apply list_elem_of_fmap. eauto.
  - apply contains_self.
Qed.

(** An error under one more location item. *)
Definition under (item : loc_item) (e : line_error) : line_error :=
  LineError (item :: err_loc e) (err_msg e).

Lemma errors_of_at_loc {A} (item : loc_item) (r : validated A) :
  errors_of (at_loc item r) = under item <$> errors_of r.
Proof. destruct r; reflexivity. Qed.

Lemma v_items_error {A} (v : pyval -> validated A) (items : list pyval) :
  forall (k i : nat) (raw : pyval) (e : line_error),
    items !! i = Some raw -> e ∈ errors_of (v raw) ->
    under (LIdx (k + i)) e ∈ errors_of (v_items v k items).
Proof.
  induction items as [|x items IH]; intros k i raw e Hi He; [discriminate|].
  cbn [v_items]. rewrite !errors_of_vap, errors_of_at_loc. cbn [errors_of app].
  destruct i as [|i].
  - injection Hi as ->. apply elem_of_app. left.
    rewrite Nat.add_0_r. apply list_elem_of_fmap. eauto.
  - apply elem_of_app. right.
    replace (k + S i)%nat with (S k + i)%nat by lia.
    eapply IH; eassumption.
Qed.

Lemma v_list_error {A} (name : string) (lo hi : nat) (v : pyval -> validated A)
    (items : list pyval) (i : nat) (raw : pyval) (e : line_error) :
  (length items <= hi)%nat ->
  items !! i = Some raw -> e ∈ errors_of (v raw) ->
  under (LIdx i) e ∈ errors_of (v_list name lo (Some hi) v (PList items)).
Proof.
  intros Hlen Hi He. unfold v_list.
  destruct (Nat.ltb_spec hi (length items)) as [|_]; [lia|].
  pose proof (v_items_error v items 0 i raw e Hi He) as Hin.
  rewrite (errors_of_elem _ _ Hin). exact Hin.
Qed.

Lemma required_error {A} (items : list (string * pyval)) (name : string)
    (v : pyval -> validated A) (raw : pyval) (e : line_error) :
  lookup_key name items = Some raw -> e ∈ errors_of (v raw) ->
  under (LKey name) e ∈ errors_of (required items name v).
Proof.
  intros Hl He. unfold required. rewrite Hl, errors_of_at_loc.
  apply list_elem_of_fmap. eauto.
Qed.

(** The message pydantic gives for an integer outside [lo, hi]. *)
Definition out_of_range_msg (lo hi z : Z) : string :=
  if hi <? z
  then ("Input should be less than or equal to " ++ NilZero.string_of_int (Z.to_int hi))%string
  else ("Input should be greater than or equal to " ++ NilZero.string_of_int (Z.to_int lo))%string.

Section Rejected.

Variable as_int : pyval -> option Z.
Variable as_float : pyval -> option Q.
Variable as_bool : pyval -> option bool.

Lemma v_int_error (lo hi : Z) (raw : pyval) (z : Z) :
  as_int raw = Some z -> z < lo \/ hi < z ->
  LineError [] (out_of_range_msg lo hi z) ∈ errors_of (v_int as_int (Some lo) (Some hi) raw).
Proof.
  intros Hz Hout. unfold v_int, in_range_Z, out_of_range_msg. rewrite Hz.
  destruct (Z.ltb_spec hi z).
  - apply list_elem_of_here.
  - destruct (Z.ltb_spec z lo); [apply list_elem_of_here|lia].
Qed.

Lemma v_Enemy_hp_error (d : list (string * pyval)) (raw : pyval) (z : Z) :
  lookup_key "hp" d = Some raw -> as_int raw = Some z -> z < 1 \/ 1000 < z ->
  LineError [LKey "hp"] (out_of_range_msg 1 1000 z)
    ∈ errors_of (v_Enemy as_int as_float (PDict d)).
Proof.
  intros Hl Hz Hout. unfold v_Enemy, v_model.
  rewrite !errors_of_vap, !elem_of_app.
  left. left. left. left. right.
  apply (required_error d "hp" _ raw (LineError [] (out_of_range_msg 1 1000 z)) Hl).
  apply v_int_error; assumption.
Qed.

(** X23. a document in which an enemy has an [hp] below 1 or above 1000 is
    rejected, and the message has a line that names the place,
    [enemies -> i -> hp], and the bound that was passed. *)
Theorem enemy_hp_out_of_range_rejected
    (fresh : Z) (data : list (string * pyval)) (items : list pyval) (i : nat)
    (d : list (string * pyval)) (raw : pyval) (z : Z) :
  lookup_key "enemies" data = Some (PList items) ->
  (length items <= 50)%nat ->
  items !! i = Some (PDict d) ->
  lookup_key "hp" d = Some raw ->
  as_int raw = Some z ->
  z < 1 \/ 1000 < z ->
  lookup_key "bullet_patterns" data <> Some PNone ->
  exists msg,
    validate_game_data as_int as_float as_bool fresh data = Returned false None (Some msg) /\
    Str.contains ("enemies -> " ++ str_of_nat i ++ " -> hp: " ++ out_of_range_msg 1 1000 z) msg.
Proof.
  intros Hen Hlen Hi Hhp Hz Hout Hbp.
  set (e := LineError [LKey "enemies"; LIdx i; LKey "hp"] (out_of_range_msg 1 1000 z)).
  assert (He : e ∈ errors_of (enemies_field as_int as_float data)).
  { unfold enemies_field.
    pose proof (v_Enemy_hp_error d raw z Hhp Hz Hout) as H1.
    pose proof (v_list_error "List" 1 50 (v_Enemy as_int as_float) items i (PDict d) _
                  Hlen Hi H1) as H2.
    unfold required. rewrite Hen, errors_of_at_loc.
    apply list_elem_of_fmap. exists (under (LIdx i) (LineError [LKey "hp"] (out_of_range_msg 1 1000 z))).
    split; [reflexivity|].
    rewrite (errors_of_elem _ _ H2) in H2 |- *. exact H2. }
  destruct (bullet_patterns_field_done as_int as_float as_bool data Hbp) as [r_bp Hdone].
  destruct (invalid_field_rejected as_int as_float as_bool fresh data r_bp Hdone)
    as (errors & Hv & Hall).
  { right. left. eexists. eapply errors_of_elem. exact He. }
  exists (format_validation_error errors). split; [exact Hv|].
  pose proof (contains_line errors e (Hall e ltac:(auto))) as Hc.
  destruct Hc as (before & after & ->).
  exists (before ++ "  â€¢ ")%string, after.
  unfold error_line, e. cbn [err_loc err_msg fmap list_fmap loc_str join].
  rewrite !Str.app_assoc. reflexivity.
Qed.

End Rejected.

(** The sample with the first enemy at [hp = 10000]. *)
Definition overpowered_enemy : list (string * pyval) :=
  ("enemies", PList [glyph_worm_strong; rib_sentry])%string :: sample_with_player.

Lemma enemy_hp_out_of_range_rejected_witness :
  exists msg,
    validate_game_data json_int json_float json_bool 0 overpowered_enemy
    = Returned false None (Some msg) /\
    Str.contains "enemies -> 0 -> hp: Input should be less than or equal to 1000" msg.
Proof.
  apply (enemy_hp_out_of_range_rejected json_int json_float json_bool 0 overpowered_enemy
           [glyph_worm_strong; rib_sentry] 0
           [("id", PStr "glyph_worm"); ("name", PStr "Glyph Worm"); ("hp", PInt 10000);
            ("speed", PFloat (12 # 10)); ("radius", PInt 10);
            ("sprite_prompt",
             PStr "side-view biomech larva, single eye socket, giger lines, teal highlights");
            ("score", PInt 100)]%string
           (PInt 10000) 10000).
  - reflexivity.
  - simpl. lia.
  - reflexivity.
  - reflexivity.
  - reflexivity.
  - right. lia.
  - discriminate.
Defined.


(** *** Partial validation *)

Section Partial.

Variable as_int : pyval -> option Z.
Variable as_float : pyval -> option Q.
Variable as_bool : pyval -> option bool.

(** The [try] block of [validate_partial_game_data] (lines 75-79), for
    the model that was looked up. *)
Definition check_model {A} (r : validated A) : bool * option string :=
  match r with
  | Valid _ => (true, None)
  | Invalid e => (false, Some (format_validation_error e))
  end.

(** [validate_partial_game_data] (lines 49-79) *)
Definition validate_partial_game_data (data : list (string * pyval)) (field : string)
  : bool * option string :=
  if String.eqb field "story" then check_model (v_Story (PDict data))
  else if String.eqb field "enemy" then check_model (v_Enemy as_int as_float (PDict data))
  else if String.eqb field "bullet_pattern"
    then check_model (v_BulletPattern as_int as_float as_bool (PDict data))
  else if String.eqb field "weapon" then check_model (v_Weapon as_float (PDict data))
  else if String.eqb field "pickup" then check_model (v_Pickup (PDict data))
  else if String.eqb field "tui_skin" then check_model (v_TUISkin as_float as_bool (PDict data))
  else if String.eqb field "stage" then check_model (v_Stage as_int as_float (PDict data))
  else (false, Some ("Unknown field: " ++ field)%string).


Lemma required_list_items {A} (data : list (string * pyval)) (name : string)
    (lo : nat) (hi : option nat) (v : pyval -> validated A)
    (k : list A -> validated (list A)) (l : list A) (items : list pyval) (raw : pyval) :
  required data name (fun r => and_then (v_list "List" lo hi v r) k) = Valid l ->
  lookup_key name data = Some (PList items) -> raw ∈ items ->
  exists t, v raw = Valid t.
Proof.
  intros (r & Hl & (l0 & Hv & _)%and_then_valid_inv)%required_valid_inv Hitems Hin.
  rewrite Hitems in Hl. injection Hl as <-.
  apply v_list_valid_length in Hv as (_ & _ & items' & E & HF). injection E as <-.
  apply list_elem_of_lookup in Hin as [i Hi].
  destruct (Forall2_lookup_l _ _ _ _ _ HF Hi) as (t & _ & Ht). eauto.
Qed.

(** X25. the stages and the enemies of a document that [validate_game_data]
    accepts each pass the partial validation, under the names [stage] and
    [enemy]. *)
Theorem accepted_parts_pass_partial_validation
    (fresh : Z) (data : list (string * pyval)) (gd : GameData) :
  validate_game_data as_int as_float as_bool fresh data = Returned true (Some gd) None ->
  (forall items d, lookup_key "stages" data = Some (PList items) -> PDict d ∈ items ->
     validate_partial_game_data d "stage" = (true, None)) /\
  (forall items d, lookup_key "enemies" data = Some (PList items) -> PDict d ∈ items ->
     validate_partial_game_data d "enemy" = (true, None)).
Proof.
  intros H%validate_game_data_accepts.
  apply new_GameData_valid_inv in H as (Hs & He & _).
  split; intros items d Hl Hin; unfold validate_partial_game_data; cbn [String.eqb Ascii.eqb Bool.eqb].
  - destruct (required_list_items _ _ _ _ _ _ _ _ _ Hs Hl Hin) as [t Ht].
    change (check_model (v_Stage as_int as_float (PDict d)) = (true, None)).
    rewrite Ht. reflexivity.
  - destruct (required_list_items _ _ _ _ _ _ _ _ _ He Hl Hin) as [t Ht].
    change (check_model (v_Enemy as_int as_float (PDict d)) = (true, None)).
    rewrite Ht. reflexivity.
Qed.

End Partial.


Lemma accepted_parts_pass_partial_validation_witness :
  exists gd d,
    validate_game_data json_int json_float json_bool 7 sample_with_player
    = Returned true (Some gd) None /\
    glyph_worm = PDict d /\
    validate_partial_game_data json_int json_float json_bool d "enemy" = (true, None).
Proof.
  eexists _, _. split; [vm_compute; reflexivity|]. split; [reflexivity|].
  edestruct (accepted_parts_pass_partial_validation json_int json_float json_bool 7
               sample_with_player) as [_ He].
  { vm_compute. reflexivity. }
  apply (He [glyph_worm; rib_sentry]); [reflexivity|]. apply list_elem_of_here.
Defined.

End Validation.

(** ** routes/game.py *)

Module GameRoute.

Import GameData Validation.

(** The JSON body of a response: an error object with its optional
    [details] and [raw_data], or the success object (lines 88-97), in
    which [game_data] stands for [validated_game.model_dump()]. *)
Inductive body :=
| ErrorBody (error : string) (details : option string) (raw_data : option pyval)
| SuccessBody (game_data : GameData) (summary : Validation.summary)
    (user_prompt difficulty : string) (player_id : pyval).

Record response := Response { body_of : body; status : Z }.

(** [type(v).__name__] *)
Definition type_name (v : pyval) : string :=
  match v with
  | PNone => "NoneType"
  | PBool _ => "bool"
  | PInt _ => "int"
  | PFloat _ => "float"
  | PStr _ => "str"
  | PList _ => "list"
  | PDict _ => "dict"
  end.

Definition missing_prompt : response :=
  Response (ErrorBody "Missing required field: user_prompt" None None) 400.

Definition internal_error (details : string) : response :=
  Response (ErrorBody "Internal server error" (Some details) None) 500.

Section Route.

(** The provider and the scalar conversions as in the modules above.
    [strip] is [str.strip].  [not_a_mapping v] is the text of the
    [TypeError] that the call with [**v] raises when [v] is not a dict. *)
Variable build_user_prompt : string -> string -> string.
Variable completion : string -> nat -> LlmService.attempt_result.
Variable as_int : pyval -> option Z.
Variable as_float : pyval -> option Q.
Variable as_bool : pyval -> option bool.
Variable strip : string -> string.
Variable not_a_mapping : pyval -> string.

(** Lines 53-99: the answer to what [generate_game_json] returned. *)
Definition answer (fresh : Z) (user_prompt difficulty : string) (player_id : pyval)
    (o : LlmService.outcome) : response :=
  if negb (LlmService.success o)
  then Response (ErrorBody "Failed to generate game" (LlmService.error_message o) None) 500
  else
    let game_data := default PNone (LlmService.game_data o) in
    match game_data with
    | PDict items =>
        match validate_game_data as_int as_float as_bool fresh items with
        | Propagated exn => Response (ErrorBody "Validation error" (Some exn) None) 500
        | Returned is_valid validated_game validation_error =>
            if negb is_valid
            then Response (ErrorBody "Generated game data failed validation"
                             validation_error (Some game_data)) 500
            else
              match validated_game with
              | Some g =>
                  Response (SuccessBody g (get_validation_summary g)
                              user_prompt difficulty player_id) 200
              | None =>
                  internal_error
                    "AttributeError: 'NoneType' object has no attribute 'game_id'"
              end
        end
    | _ =>
        Response (ErrorBody "Validation error"
                    (Some ("TypeError: " ++ not_a_mapping game_data)%string) None) 500
    end.

(** [generate_game] (lines 12-110), for a request whose body
    [request.get_json()] is a JSON object ([Some]) or null ([None]).
    [fresh] is the number [uuid.uuid4()] would draw. *)
Definition generate_game (data : option (list (string * pyval))) (fresh : Z)
    (w : LlmService.world) : response * LlmService.world :=
  match data with
  | None => (missing_prompt, w)
  | Some items =>
      if Nat.eqb (length items) 0 then (missing_prompt, w)
      else
        match lookup_key "user_prompt" items with
        | None => (missing_prompt, w)
        | Some (PStr s) =>
            let user_prompt := strip s in
            if String.eqb user_prompt "" || (py_len user_prompt <? 10)%nat
            then (Response (ErrorBody "user_prompt must be at least 10 characters"
                              None None) 400, w)
            else
              let difficulty := default (PStr "normal") (lookup_key "difficulty" items) in
              match difficulty with
              | PStr d =>
                  if existsb (String.eqb d) ["easy"; "normal"; "hard"]%string
                  then
                    let player_id := default PNone (lookup_key "player_id" items) in
                    let '(o, w) :=
                      LlmService.generate_game_json build_user_prompt completion
                        user_prompt d 3 true w in
                    (answer fresh user_prompt d player_id o, w)
                  else (Response (ErrorBody "difficulty must be one of: easy, normal, hard"
                                    None None) 400, w)
              | _ => (Response (ErrorBody "difficulty must be one of: easy, normal, hard"
                                  None None) 400, w)
              end
        | Some v =>
            (internal_error ("AttributeError: '" ++ type_name v
                             ++ "' object has no attribute 'strip'"), w)
        end
  end.

(** A request that passes the three checks of lines 30-45. *)
Definition well_formed_request (items : list (string * pyval)) (user_prompt difficulty : string)
  : Prop :=
  (exists s, lookup_key "user_prompt" items = Some (PStr s) /\ user_prompt = strip s) /\
  (10 <= py_len user_prompt)%nat /\
  default (PStr "normal") (lookup_key "difficulty" items) = PStr difficulty /\
  difficulty ∈ ["easy"; "normal"; "hard"]%string.

Lemma py_len_nonempty (s : string) : (10 <= py_len s)%nat -> String.eqb s "" = false.
Proof.
  intros H. destruct (String.eqb_spec s "") as [->|]; [|reflexivity].
  cbv in H. lia.
Qed.

Lemma generate_game_well_formed (items : list (string * pyval)) (user_prompt difficulty : string)
    (fresh : Z) (w : LlmService.world) :
  well_formed_request items user_prompt difficulty ->
  let g := LlmService.generate_game_json build_user_prompt completion
             user_prompt difficulty 3 true w in
  generate_game (Some items) fresh w
  = (answer fresh user_prompt difficulty (default PNone (lookup_key "player_id" items)) g.1,
     g.2).
Proof.
  intros ((s & Hp & ->) & Hlen & Hd & Hin) g. unfold generate_game.
  destruct items as [|kv items]; [discriminate|]. cbn [length Nat.eqb].
  rewrite Hp. cbv zeta. rewrite (py_len_nonempty _ Hlen).
  destruct (Nat.ltb_spec (py_len (strip s)) 10) as [|_]; [lia|]. cbn [orb].
  rewrite Hd.
  assert (Hex : existsb (String.eqb difficulty) ["easy"; "normal"; "hard"]%string = true).
  { apply existsb_exists. exists difficulty. split; [|apply String.eqb_refl].
    apply list_elem_of_In. exact Hin. }
  rewrite Hex. fold g. destruct g as [o w']. reflexivity.
Qed.

Lemma status_200_inv (data : option (list (string * pyval))) (fresh : Z)
    (w : LlmService.world) :
  status (generate_game data fresh w).1 = 200 ->
  exists items user_prompt difficulty,
    data = Some items /\ well_formed_request items user_prompt difficulty /\
    let g := LlmService.generate_game_json build_user_prompt completion
               user_prompt difficulty 3 true w in
    generate_game data fresh w
    = (answer fresh user_prompt difficulty (default PNone (lookup_key "player_id" items)) g.1,
       g.2).
Proof.
  intros H200.
  destruct data as [items|]; [|discriminate].
  assert (Hwf : exists user_prompt difficulty, well_formed_request items user_prompt difficulty).
  { revert H200. unfold generate_game.
    destruct (Nat.eqb (length items) 0); [discriminate|].
    destruct (lookup_key "user_prompt" items) as [[| | | |s| |]|] eqn:Hp; try discriminate.
    cbv zeta.
    destruct (String.eqb (strip s) "" || (py_len (strip s) <? 10)%nat) eqn:Hshort;
      [discriminate|].
    apply orb_false_iff in Hshort as [_ Hlen]. apply Nat.ltb_ge in Hlen.
    destruct (default (PStr "normal") (lookup_key "difficulty" items))
      as [| | | |d| |] eqn:Hd; try discriminate.
    destruct (existsb (String.eqb d) ["easy"; "normal"; "hard"]%string) eqn:Hex;
      [|discriminate].
    intros _. exists (strip s), d. split; [eauto|]. split; [exact Hlen|].
    split; [exact Hd|].
    apply existsb_exists in Hex as (x & Hin & Hx). apply String.eqb_eq in Hx as ->.
    apply list_elem_of_In. exact Hin. }
  destruct Hwf as (user_prompt & difficulty & Hwf).
  exists items, user_prompt, difficulty. split; [reflexivity|]. split; [exact Hwf|].
  apply generate_game_well_formed. exact Hwf.
Qed.

(** X26. a request that is answered with status 400 costs nothing: the
    provider is not called and the cache is not read.  A body without
    [user_prompt], a prompt of fewer than 10 characters after stripping, or a
    [difficulty] that is not one of the three names is answered so. *)
Theorem bad_request_makes_no_call (data : option (list (string * pyval))) (fresh : Z)
    (w : LlmService.world) :
  let r := generate_game data fresh w in
  (status r.1 = 400 ->
   r.2 = w /\ exists msg, body_of r.1 = ErrorBody msg None None) /\
  (match data with
   | None => True
   | Some items =>
       lookup_key "user_prompt" items = None \/
       (exists s, lookup_key "user_prompt" items = Some (PStr s) /\
                  (py_len (strip s) < 10)%nat) \/
       (exists s d, lookup_key "user_prompt" items = Some (PStr s) /\
                    lookup_key "difficulty" items = Some (PStr d) /\
                    d ∉ ["easy"; "normal"; "hard"]%string)
   end -> status r.1 = 400).
Proof.
  cbv zeta. split.
  - unfold generate_game.
    destruct data as [items|]; [|simpl; eauto].
    destruct (Nat.eqb (length items) 0); [simpl; eauto|].
    destruct (lookup_key "user_prompt" items) as [[| | | |s| |]|];
      try (cbn [fst status internal_error]; discriminate); [|simpl; eauto].
    cbv zeta.
    destruct (String.eqb (strip s) "" || (py_len (strip s) <? 10)%nat); [simpl; eauto|].
    destruct (default (PStr "normal") (lookup_key "difficulty" items))
      as [| | | |d| |]; try solve [simpl; eauto].
    destruct (existsb (String.eqb d) ["easy"; "normal"; "hard"]%string); [|simpl; eauto].
    destruct (LlmService.generate_game_json _ _ _ _ _ _ _) as [o w'].
    cbn [fst snd]. unfold answer.
    destruct (negb (LlmService.success o)); [cbn [status]; discriminate|].
    destruct (default PNone (LlmService.game_data o)); try (cbn [status]; discriminate).
    destruct (validate_game_data _ _ _ _ _) as [v g e|]; [|cbn [status]; discriminate].
    destruct (negb v); [cbn [status]; discriminate|].
    destruct g; cbn [status internal_error]; discriminate.
  - unfold generate_game. destruct data as [items|]; [|reflexivity].
    destruct (Nat.eqb (length items) 0); [reflexivity|].
    intros [Hp|[(s & Hp & Hlen)|(s & d & Hp & Hd & Hnot)]]; rewrite Hp; [reflexivity| |].
    + cbv zeta. destruct (Nat.ltb_spec (py_len (strip s)) 10) as [_|]; [|lia].
      rewrite orb_true_r. reflexivity.
    + cbv zeta. destruct (_ || _); [reflexivity|]. rewrite Hd.
      change (default (PStr "normal") (Some (PStr d))) with (PStr d). cbv iota beta.
      destruct (existsb (String.eqb d) ["easy"; "normal"; "hard"]%string) eqn:Hex;
        [|reflexivity].
      exfalso. apply Hnot.
      apply existsb_exists in Hex as (x & Hin & Hx). apply String.eqb_eq in Hx as ->.
      apply list_elem_of_In. exact Hin.
Qed.

(** X27. a response with status 200 carries a game that the provider (or
    the cache) gave for the stripped prompt and that [validate_game_data]
    accepted: its stage and enemy ids are without repetition and its
    enemies and stages within the bounds of the schema; the summary is the
    one of that game, and the request was well formed. *)
Theorem ok_response_is_validated (data : option (list (string * pyval))) (fresh : Z)
    (w : LlmService.world) :
  let r := generate_game data fresh w in
  status r.1 = 200 ->
  exists items user_prompt difficulty raw gd,
    data = Some items /\
    well_formed_request items user_prompt difficulty /\
    (LlmService.generate_game_json build_user_prompt completion
       user_prompt difficulty 3 true w).1
      = LlmService.Outcome true (Some (PDict raw)) None /\
    validate_game_data as_int as_float as_bool fresh raw = Returned true (Some gd) None /\
    body_of r.1 = SuccessBody gd (get_validation_summary gd) user_prompt difficulty
                    (default PNone (lookup_key "player_id" items)) /\
    NoDup (stage_id <$> stages gd) /\ NoDup (enemy_id <$> enemies gd) /\
    Forall stage_in_range (stages gd) /\ Forall enemy_in_range (enemies gd).
Proof.
  cbv zeta. intros H200.
  destruct (status_200_inv data fresh w H200)
    as (items & user_prompt & difficulty & -> & Hwf & Heq).
  cbv zeta in Heq. rewrite Heq in H200 |- *. cbn [fst] in H200 |- *.
  pose proof (LlmService.generate_game_json_well_shaped build_user_prompt completion
                user_prompt difficulty 3 true w) as Hshape.
  destruct (LlmService.generate_game_json _ _ _ _ _ _ _).1 as [ok gdata err] eqn:Hgen.
  unfold LlmService.well_shaped in Hshape. cbn in Hshape.
  revert H200. unfold answer. cbn [LlmService.success LlmService.game_data].
  destruct ok; [|cbn [negb status]; discriminate]. cbn [negb].
  destruct Hshape as [[payload ->] ->].
  change (default PNone (Some payload)) with payload.
  destruct payload as [| | | | | |raw]; try (cbn [status]; discriminate).
  destruct (validate_game_data as_int as_float as_bool fresh raw)
    as [valid g e|] eqn:Hv; [|cbn [status]; discriminate].
  destruct valid; [|cbn [negb status]; discriminate]. cbn [negb].
  destruct g as [gd|]; [|cbn [status internal_error]; discriminate]. intros _.
  assert (He : e = None).
  { revert Hv. unfold validate_game_data.
    destruct (new_GameData _ _ _ _ _) as [[?|?]|]; congruence. }
  subst e.
  pose proof (validate_game_data_accepts _ _ _ _ _ _ _ Hv) as Hnew.
  apply new_GameData_valid_inv in Hnew as (Hs & Hen & _).
  apply stages_field_valid_inv in Hs as (Hs1 & _ & Hs2).
  apply enemies_field_valid_inv in Hen as (He1 & _ & He2).
  exists items, user_prompt, difficulty, raw, gd.
  split; [reflexivity|]. split; [exact Hwf|]. split; [exact Hgen|].
  split; [exact Hv|]. split; [reflexivity|].
  split; [exact Hs1|]. split; [exact He1|]. split; [exact Hs2|exact He2].
Qed.

(** X28. when the generated document has an explicit null for
    [bullet_patterns], the exception that leaves [validate_game_data] is
    caught by the route: the answer is status 500 with the error
    [Validation error], whatever else the document holds. *)
Theorem null_patterns_answered_with_500 (items raw : list (string * pyval))
    (user_prompt difficulty : string) (fresh : Z) (w : LlmService.world) :
  well_formed_request items user_prompt difficulty ->
  (LlmService.generate_game_json build_user_prompt completion
     user_prompt difficulty 3 true w).1
    = LlmService.Outcome true (Some (PDict raw)) None ->
  lookup_key "bullet_patterns" raw = Some PNone ->
  (generate_game (Some items) fresh w).1
  = Response (ErrorBody "Validation error"
                (Some "TypeError: 'NoneType' object is not iterable"%string) None) 500.
Proof.
  intros Hwf Hgen Hnull.
  rewrite (generate_game_well_formed _ _ _ _ _ Hwf). cbn [fst]. rewrite Hgen.
  unfold answer. cbn [LlmService.success LlmService.game_data negb].
  change (default PNone (Some (PDict raw))) with (PDict raw). cbv iota beta.
  unfold validate_game_data, new_GameData, bullet_patterns_field. rewrite Hnull.
  reflexivity.
Qed.

(** X29. for a well-formed request whose prompt is not in the cache, a
    provider that fails at each of its attempts is tried three times, and
    the answer is status 500 with the error [Failed to generate game] and
    the message of the third attempt as details. *)
Theorem failed_generation_answered_with_500 (items : list (string * pyval))
    (user_prompt difficulty : string) (fresh : Z) (w : LlmService.world) :
  well_formed_request items user_prompt difficulty ->
  LlmService.cache_files w !! LlmService.get_llm_cache_key user_prompt None = None ->
  (forall i, LlmService.failure_message
               (completion (build_user_prompt user_prompt difficulty) i) <> None) ->
  let r := generate_game (Some items) fresh w in
  r.1 = Response (ErrorBody "Failed to generate game"
                    (LlmService.failure_message
                       (completion (build_user_prompt user_prompt difficulty) 2))
                    None) 500 /\
  LlmService.completions_of (drop (length (LlmService.trace w)) (LlmService.trace r.2))
    = [0; 1; 2]%nat /\
  LlmService.cache_files r.2 = LlmService.cache_files w.
Proof.
  intros Hwf Hmiss Hfail. cbv zeta.
  rewrite (generate_game_well_formed _ _ _ _ _ Hwf). cbn [fst snd].
  unfold LlmService.generate_game_json. rewrite LlmService.llm_cache_on_key.
  unfold LlmService.load_from_llm_cache. rewrite Hmiss.
  destruct (LlmService.retry_loop_all_fail completion
              (build_user_prompt user_prompt difficulty) 3 true
              (Some (LlmService.get_llm_cache_key user_prompt None)) Hfail 3 0
              (LlmService.log
                 (LlmService.EvCacheLoad (LlmService.get_llm_cache_key user_prompt None)) w)
              eq_refl) as (Ht & Hc & Hs & Hg & He).
  cbv zeta in Ht, Hc, Hs, Hg, He. unfold LlmService.range.
  change (Z.to_nat 3) with 3%nat.
  destruct (LlmService.retry_loop _ _ _ _ _ _ _) as [o w'].
  cbn [fst snd] in *. split; [|split].
  - unfold answer. rewrite Hs. cbn [negb]. rewrite He. reflexivity.
  - rewrite Ht. cbn [LlmService.log LlmService.trace]. rewrite <- app_assoc.
    rewrite drop_app_length. reflexivity.
  - rewrite Hc. reflexivity.
Qed.

End Route.

Definition well_formed_sample : list (string * pyval) :=
  [("user_prompt", PStr "A cathedral kernel"); ("difficulty", PStr "hard")]%string.

(** A provider whose first answer is the sample document with a null
    [bullet_patterns]. *)
Definition null_patterns_provider (user_message : string) (attempt : nat)
  : LlmService.attempt_result :=
  LlmService.Parsed (PDict (("bullet_patterns"%string, PNone) :: sample_with_player)).

(** A provider whose first answer is the sample document. *)
Definition sample_provider (user_message : string) (attempt : nat)
  : LlmService.attempt_result :=
  LlmService.Parsed (PDict sample_with_player).

Lemma well_formed_sample_ok :
  well_formed_request (fun s => s) well_formed_sample "A cathedral kernel" "hard".
Proof.
  split; [exists "A cathedral kernel"%string; split; reflexivity|].
  split; [vm_compute; lia|]. split; [reflexivity|].
  apply list_elem_of_further, list_elem_of_further, list_elem_of_here.
Qed.

Lemma null_patterns_answered_with_500_witness :
  (generate_game (fun theme _ => theme) null_patterns_provider
     json_int json_float json_bool (fun s => s) (fun _ => ""%string)
     (Some well_formed_sample) 7 LlmService.empty_world).1
  = Response (ErrorBody "Validation error"
                (Some "TypeError: 'NoneType' object is not iterable"%string) None) 500.
Proof.
  apply (null_patterns_answered_with_500 (fun theme _ => theme) null_patterns_provider
           json_int json_float json_bool (fun s => s) (fun _ => ""%string)
           well_formed_sample (("bullet_patterns"%string, PNone) :: sample_with_player)
           "A cathedral kernel" "hard" 7 LlmService.empty_world).
  - exact well_formed_sample_ok.
  - vm_compute. reflexivity.
  - reflexivity.
Defined.

Lemma failed_generation_answered_with_500_witness :
  (generate_game (fun theme _ => theme) LlmService.broken_provider
     json_int json_float json_bool (fun s => s) (fun _ => ""%string)
     (Some well_formed_sample) 7 LlmService.empty_world).1
  = Response (ErrorBody "Failed to generate game"
                (Some "JSON parsing error: Expecting value: line 1 column 1 (char 0)"%string)
                None) 500.
Proof.
  destruct (failed_generation_answered_with_500 (fun theme _ => theme)
              LlmService.broken_provider
              json_int json_float json_bool (fun s => s) (fun _ => ""%string)
              well_formed_sample "A cathedral kernel" "hard" 7 LlmService.empty_world)
    as (H & _).
  - exact well_formed_sample_ok.
  - reflexivity.
  - intros i. unfold LlmService.broken_provider. destruct (Nat.even i); discriminate.
  - exact H.
Defined.

Lemma ok_response_is_validated_witness :
  exists gd,
    (generate_game (fun theme _ => theme) sample_provider
       json_int json_float json_bool (fun s => s) (fun _ => ""%string)
       (Some well_formed_sample) 7 LlmService.empty_world).1
    = Response (SuccessBody gd (get_validation_summary gd) "A cathedral kernel" "hard" PNone) 200 /\
    NoDup (enemy_id <$> enemies gd).
Proof.
  edestruct (ok_response_is_validated (fun theme _ => theme) sample_provider
               json_int json_float json_bool (fun s => s) (fun _ => ""%string)
               (Some well_formed_sample) 7 LlmService.empty_world)
    as (items & p & d & raw & gd & _ & _ & _ & _ & Hb & _ & Hnd & _).
  { vm_compute. reflexivity. }
  exists gd. split; [|exact Hnd].
  revert Hb.
  destruct (generate_game _ _ _ _ _ _ _ _ _ _).1 as [b st] eqn:E.
  assert (Hst : st = 200) by (apply (f_equal status) in E; vm_compute in E; congruence).
  assert (Hp : exists g s, b = SuccessBody g s "A cathedral kernel" "hard" PNone).
  { apply (f_equal body_of) in E. vm_compute in E. rewrite <- E. eauto. }
  destruct Hp as (g & s & ->). cbn [body_of]. intros Hb. injection Hb as -> -> -> -> ->.
  rewrite Hst. reflexivity.
Defined.

End GameRoute.
